(** * xRWA / rwa-vc: section-scoped EIP-712 credentials

    A shallow embedding of [vc/crypto.py], [vc/issuer.py] and
    [vc/verifier.py], and the properties of the
    canonicalize-hash-sign-verify protocol they implement.

    Python values are embedded as the type [json]; a raised exception
    is the [Raises] branch of [result]; the in-place mutation that
    [issue] performs on its private deep copy is a functional update
    at the path through which the source reaches the mutated
    sub-object.  The elliptic-curve and Keccak primitives
    ([eth_account], [eth_utils]) are an interface, [Runtime]. *)

From Stdlib Require Import ZArith List Bool Ascii String Lia.
From Stdlib Require Import Permutation Sorted DecimalString DecimalZ OrderedTypeEx.
Import ListNotations.

Local Open Scope string_scope.
Local Open Scope list_scope.

(* ================================================================= *)
(** ** Python values *)

(** The values that [json.load] produces and the code passes around.
    [JNull] is Python's [None].  A [dict] is an association list in
    insertion order; Python dictionaries never hold a key twice
    ([well_formed] below).  Strings are UTF-8 byte strings: comparing
    UTF-8 strings bytewise orders them as Python orders the code
    points.  A lone surrogate, which [json.loads] lets through and
    which has no UTF-8 encoding, is the three bytes that the
    [surrogatepass] scheme gives it ([has_surrogate] below).
    Floating-point numbers are outside the model. *)
#[local] Unset Elimination Schemes.
Inductive json : Type :=
| JNull
| JBool (b : bool)
| JNum (z : Z)
| JStr (s : string)
| JArr (l : list json)
| JObj (m : list (string * json)).
#[local] Set Elimination Schemes.

Definition dict := list (string * json).

Inductive exn : Type :=
| AttributeError   (* [.get] on a value that is not a dict *)
| TypeError        (* [int(...)] of None, a list or a dict *)
| ValueError       (* [int(...)] of a string that is no integer *)
| UnicodeEncodeError  (* [s.encode("utf-8")] of a string with a lone surrogate *)
| SigningError     (* [Account.from_key] refused the key *)
| EncodingError    (* [encode_typed_data] refused the message *)
| RecoveryError.   (* [Account.recover_message] refused the signature *)

Inductive result (A : Type) : Type :=
| Returns (a : A)
| Raises (e : exn).

Arguments Returns {A} a.
Arguments Raises {A} e.

Definition bind {A B : Type} (c : result A) (k : A -> result B) : result B :=
  match c with
  | Returns a => k a
  | Raises e => Raises e
  end.

Notation "x <- c ;; k" := (bind c (fun x => k))
  (at level 61, c at next level, right associativity).
Notation "' p <- c ;; k" := (bind c (fun x => let p := x in k))
  (at level 61, p pattern, c at next level, right associativity).

Definition of_option {A : Type} (e : exn) (o : option A) : result A :=
  match o with
  | Some a => Returns a
  | None => Raises e
  end.

(** [isinstance(v, dict)] *)
Definition is_dict (v : json) : bool :=
  match v with JObj _ => true | _ => false end.

(** Truth value of a Python object: None, False, 0, the empty string,
    the empty list and the empty dict are false. *)
Definition truthy (v : json) : bool :=
  match v with
  | JNull => false
  | JBool b => b
  | JNum z => negb (z =? 0)%Z
  | JStr s => negb (s =? EmptyString)
  | JArr l => match l with [] => false | _ => true end
  | JObj m => match m with [] => false | _ => true end
  end.

(** [a or b] *)
Definition py_or (a b : json) : json := if truthy a then a else b.

(** [d[k]] for a key that may be missing *)
Fixpoint dict_get (k : string) (m : dict) : option json :=
  match m with
  | [] => None
  | (k', v) :: r => if k =? k' then Some v else dict_get k r
  end.

(** [k in d] *)
Definition dict_has (k : string) (m : dict) : bool :=
  match dict_get k m with Some _ => true | None => false end.

(** [d[k] = v] for a key that is present: the entry keeps its place. *)
Fixpoint dict_update (k : string) (f : json -> json) (m : dict) : dict :=
  match m with
  | [] => []
  | (k', v) :: r =>
      if k =? k' then (k', f v) :: r else (k', v) :: dict_update k f r
  end.

(** [d.pop(k, None)] *)
Fixpoint dict_pop (k : string) (m : dict) : dict :=
  match m with
  | [] => []
  | (k', v) :: r =>
      if k =? k' then dict_pop k r else (k', v) :: dict_pop k r
  end.

(** [v.get(k, default)]; an [AttributeError] when [v] is no dict. *)
Definition py_get (v : json) (k : string) (default : json) : result json :=
  match v with
  | JObj m =>
      Returns (match dict_get k m with Some x => x | None => default end)
  | _ => Raises AttributeError
  end.

(** [repr] of an [int] *)
Definition repr_int (z : Z) : string := NilZero.string_of_int (Z.to_int z).

(** [s.lower()].  Only the letters A-Z are mapped: the result is
    compared with a recovered address, which is made of ASCII
    characters. *)
Definition lower_char (c : ascii) : ascii :=
  let n := nat_of_ascii c in
  if andb (65 <=? n)%nat (n <=? 90)%nat then ascii_of_nat (n + 32) else c.

Fixpoint str_lower (s : string) : string :=
  match s with
  | EmptyString => EmptyString
  | String c r => String (lower_char c) (str_lower r)
  end.

(** [s.split(sep)] for a one-character separator *)
Fixpoint str_split (sep : ascii) (s : string) : list string :=
  match s with
  | EmptyString => [EmptyString]
  | String c r =>
      if Ascii.eqb c sep then EmptyString :: str_split sep r
      else match str_split sep r with
           | [] => [String c EmptyString]
           | w :: ws => String c w :: ws
           end
  end.

(** [s.endswith(suffix)] *)
Definition str_endswith (s suffix : string) : bool :=
  let n := String.length s in
  let k := String.length suffix in
  andb (k <=? n)%nat (substring (n - k) k s =? suffix).

(** Python dictionaries hold every key once, at every depth. *)
Fixpoint nodup_keys (ks : list string) : bool :=
  match ks with
  | [] => true
  | k :: r => negb (existsb (String.eqb k) r) && nodup_keys r
  end.

Fixpoint well_formed (v : json) : bool :=
  match v with
  | JArr l => forallb well_formed l
  | JObj m =>
      nodup_keys (map fst m) && forallb (fun kv => well_formed (snd kv)) m
  | _ => true
  end.

(** Equality of values up to the insertion order of the keys: two
    values are equal when they are of the same JSON type and equal
    there, dicts being equal when they have as many entries and every
    key of the first is bound in the second to an equal value.  On
    values of the same types at every place this is Python's
    [a == b]; the identifications that Python makes across types
    ([1 == True], [0 == False]) are not made: such values have
    different JSON texts. *)
Fixpoint py_eq (a b : json) : bool :=
  match a, b with
  | JNull, JNull => true
  | JBool x, JBool y => Bool.eqb x y
  | JNum x, JNum y => (x =? y)%Z
  | JStr x, JStr y => (x =? y)
  | JArr l1, JArr l2 =>
      (fix go (l1 l2 : list json) : bool :=
         match l1, l2 with
         | [], [] => true
         | x :: r1, y :: r2 => py_eq x y && go r1 r2
         | _, _ => false
         end) l1 l2
  | JObj m1, JObj m2 =>
      (List.length m1 =? List.length m2)%nat &&
      (fix go (m : dict) : bool :=
         match m with
         | [] => true
         | (k, v) :: r =>
             match dict_get k m2 with
             | Some v' => py_eq v v' && go r
             | None => false
             end
         end) m1
  | _, _ => false
  end.

(** A lone surrogate (U+D800 to U+DFFF) in a string: the byte 0xED
    followed by a byte from 0xA0 to 0xBF.  No UTF-8 text holds these
    two bytes in a row. *)
Fixpoint has_surrogate (s : string) : bool :=
  match s with
  | EmptyString => false
  | String c r =>
      match r with
      | EmptyString => false
      | String d _ =>
          ((nat_of_ascii c =? 237)%nat
           && (160 <=? nat_of_ascii d)%nat && (nat_of_ascii d <=? 191)%nat)
          || has_surrogate r
      end
  end.

(** [s.encode("utf-8")]: the bytes of the string, and a
    [UnicodeEncodeError] when it holds a lone surrogate. *)
Definition encode_utf8 (s : string) : result string :=
  if has_surrogate s then Raises UnicodeEncodeError else Returns s.

(* ================================================================= *)
(** ** crypto.py: canonical JSON *)

Definition dquote : ascii := "034"%char.

Definition hex_digit (n : nat) : ascii :=
  match n with
  | 0 => "0" | 1 => "1" | 2 => "2" | 3 => "3" | 4 => "4"
  | 5 => "5" | 6 => "6" | 7 => "7" | 8 => "8" | 9 => "9"
  | 10 => "a" | 11 => "b" | 12 => "c" | 13 => "d" | 14 => "e"
  | _ => "f"
  end%char.

(** The replacement table of [json.encoder.py_encode_basestring]
    ([ensure_ascii=False]): the backslash, the double quote and the
    control characters below 0x20 are escaped, nothing else. *)
Definition escape_char (c : ascii) : string :=
  let n := nat_of_ascii c in
  if (n =? 92)%nat then "\\"
  else if (n =? 34)%nat then String "\" (String dquote EmptyString)
  else if (n =? 8)%nat then "\b"
  else if (n =? 12)%nat then "\f"
  else if (n =? 10)%nat then "\n"
  else if (n =? 13)%nat then "\r"
  else if (n =? 9)%nat then "\t"
  else if (n <? 32)%nat then
    "\u00" ++ String (hex_digit (n / 16)) (String (hex_digit (n mod 16)) EmptyString)
  else String c EmptyString.

Fixpoint escape (s : string) : string :=
  match s with
  | EmptyString => EmptyString
  | String c r => escape_char c ++ escape r
  end.

Definition encode_basestring (s : string) : string :=
  String dquote (escape s ++ String dquote EmptyString).

(** [sorted(items)] on the items of a dict: the keys decide, since no
    two items share a key. *)
Fixpoint insert_item {A : Type} (x : string * A) (l : list (string * A))
  : list (string * A) :=
  match l with
  | [] => [x]
  | y :: r =>
      if (fst x <=? fst y) then x :: y :: r else y :: insert_item x r
  end.

Fixpoint sort_items {A : Type} (l : list (string * A)) : list (string * A) :=
  match l with
  | [] => []
  | x :: r => insert_item x (sort_items r)
  end.

Definition item_text (kt : string * string) : string :=
  encode_basestring (fst kt) ++ ":" ++ snd kt.

(** [json.dumps(data, sort_keys=True, separators=(",", ":"),
    ensure_ascii=False)].  The items of a dict are rendered and then
    ordered by key ([to_canonical_json_items] shows that this is the
    text of the items ordered first). *)
Fixpoint to_canonical_json (data : json) : string :=
  match data with
  | JNull => "null"
  | JBool true => "true"
  | JBool false => "false"
  | JNum z => repr_int z
  | JStr s => encode_basestring s
  | JArr l => "[" ++ String.concat "," (map to_canonical_json l) ++ "]"
  | JObj m =>
      "{" ++
      String.concat ","
        (map item_text
           (sort_items
              (map (fun kv => (fst kv, to_canonical_json (snd kv))) m)))
      ++ "}"
  end.

(* ================================================================= *)
(** ** The primitives of [eth_account] and [eth_utils] *)

(** A [LocalAccount]: the key bytes and the checksummed address. *)
Record LocalAccount : Type := {
  account_key : string;
  account_address : string
}.

(** What the code takes from its libraries and from the Python
    runtime without defining it.  A [None] is a raised exception. *)
Class Runtime : Type := {
  (** [to_hex(keccak(b))] *)
  keccak_hex : string -> string;
  (** [Account.from_key(k)] *)
  Account_from_key : json -> option LocalAccount;
  (** [encode_typed_data(full_message=t)] *)
  encode_typed_data : json -> option string;
  (** [to_hex(Account.sign_message(m, private_key=k).signature)] *)
  sign_message : string -> string -> string;
  (** [Account.recover_message(m, signature=s)] *)
  recover_message : string -> json -> option string;
  (** [str(v)] for a list or a dict *)
  repr_container : json -> string;
  (** [int(s)] for a string *)
  int_of_str : string -> option Z
}.

(** What the proofs rely on: a signature gives back the address of the
    key that made it; no account comes from [None]; the empty string
    is no signature (it has no recovery byte). *)
Record RuntimeLaws (R : Runtime) : Prop := {
  recover_sign : forall k acct m,
    Account_from_key k = Some acct ->
    recover_message m (JStr (sign_message m (account_key acct)))
    = Some (account_address acct);
  from_key_None : Account_from_key JNull = None;
  recover_empty : forall m, recover_message m (JStr EmptyString) = None
}.

(** Signatures bind the message: recovery against another message
    does not give the signer's address.  This is the unforgeability
    that EIP-712 domain separation is for; it is no law of the
    interface, and the signer used for the concrete runs has it
    ([Fake_binding]). *)
Definition Binding (R : Runtime) : Prop :=
  forall k acct m m',
    Account_from_key k = Some acct ->
    recover_message m' (JStr (sign_message m (account_key acct)))
    = Some (account_address acct) ->
    m' = m.

Section Code.

Context {R : Runtime}.

(** [str(v)] *)
Definition py_str (v : json) : string :=
  match v with
  | JStr s => s
  | JNum z => repr_int z
  | JBool true => "True"
  | JBool false => "False"
  | JNull => "None"
  | _ => repr_container v
  end.

(** [int(v)] *)
Definition py_int (v : json) : result Z :=
  match v with
  | JNum z => Returns z
  | JBool b => Returns (if b then 1 else 0)%Z
  | JStr s => of_option ValueError (int_of_str s)
  | _ => Raises TypeError
  end.

(* ================================================================= *)
(** ** crypto.py *)

Definition keccak256_json (data : json) : result string :=
  canonical <- encode_utf8 (to_canonical_json data) ;;
  Returns (keccak_hex canonical).

(** The digest that [keccak256_json] returns for a value, when it
    returns ([keccak256_json_eq]). *)
Definition keccak256_hex (data : json) : string :=
  keccak_hex (to_canonical_json data).

Definition zero_address : string :=
  "0x0000000000000000000000000000000000000000".

Record Eip712Domain : Type := {
  name : json;
  version : string;
  chainId : Z;
  verifyingContract : json
}.

Definition as_dict (self : Eip712Domain) : json :=
  JObj [("name", name self);
        ("version", JStr (version self));
        ("chainId", JNum (chainId self));
        ("verifyingContract", verifyingContract self)].

Definition type_field (n t : string) : json :=
  JObj [("name", JStr n); ("type", JStr t)].

Definition EIP712Domain_type : json :=
  JArr [type_field "name" "string";
        type_field "version" "string";
        type_field "chainId" "uint256";
        type_field "verifyingContract" "address"].

Definition build_section_typed_data
  (domain : Eip712Domain) (path : string) (section_hash_hex : string) : json :=
  JObj [("types",
         JObj [("EIP712Domain", EIP712Domain_type);
               ("Section",
                JArr [type_field "path" "string";
                      type_field "sectionHash" "bytes32"])]);
        ("primaryType", JStr "Section");
        ("domain", as_dict domain);
        ("message",
         JObj [("path", JStr path);
               ("sectionHash", JStr section_hash_hex)])].

Definition build_document_typed_data
  (domain : Eip712Domain) (document_hash_hex : string) : json :=
  JObj [("types",
         JObj [("EIP712Domain", EIP712Domain_type);
               ("Document",
                JArr [type_field "documentHash" "bytes32"])]);
        ("primaryType", JStr "Document");
        ("domain", as_dict domain);
        ("message", JObj [("documentHash", JStr document_hash_hex)])].

Definition sign_typed_data (private_key_hex : json) (typed_data : json)
  : result (string * string) :=
  account <- of_option SigningError (Account_from_key private_key_hex) ;;
  encoded <- of_option EncodingError (encode_typed_data typed_data) ;;
  let signed := sign_message encoded (account_key account) in
  Returns (signed, account_address account).

Definition recover_typed_data_signer (typed_data : json) (signature_hex : json)
  : result string :=
  encoded <- of_option EncodingError (encode_typed_data typed_data) ;;
  recovered <- of_option RecoveryError (recover_message encoded signature_hex) ;;
  Returns recovered.

Definition private_key_to_address (private_key_hex : json) : result string :=
  acct <- of_option SigningError (Account_from_key private_key_hex) ;;
  Returns (account_address acct).

(* ================================================================= *)
(** ** issuer.py *)

Definition SECTION_PATHS : list string :=
  ["/credentialSubject/identity";
   "/credentialSubject/compliance";
   "/credentialSubject/custody"].

(** [[p for p in path.split("/") if p]] *)
Definition path_parts (path : string) : list string :=
  filter (fun p => negb (p =? EmptyString)) (str_split "/" path).

Fixpoint walk (parts : list string) (cur : json) : json :=
  match parts with
  | [] => cur
  | p :: ps =>
      match cur with
      | JObj m =>
          match dict_get p m with
          | Some v => walk ps v
          | None => JNull
          end
      | _ => JNull
      end
  end.

(** The same function in issuer.py and in verifier.py. *)
Definition _get_by_path (doc : json) (path : string) : json :=
  walk (path_parts path) doc.

(** The object that [_get_by_path(doc, path)] returns is the one inside
    [doc]: a mutation made through it shows in [doc] at that place.
    [mutate_at doc path f] is [doc] after the object at [path] has
    become [f] of itself; where the path leads nowhere there is no
    object to mutate. *)
Fixpoint mutate_parts (parts : list string) (f : json -> json) (cur : json)
  : json :=
  match parts with
  | [] => f cur
  | p :: ps =>
      match cur with
      | JObj m => JObj (dict_update p (mutate_parts ps f) m)
      | _ => cur
      end
  end.

Definition mutate_at (doc : json) (path : string) (f : json -> json) : json :=
  mutate_parts (path_parts path) f doc.

(** [if k in proof: proof[k] = v] *)
Definition set_if_present (k : string) (v : json) (proof : dict) : dict :=
  dict_update k (fun _ => v) proof.

Definition _update_section_proof
  (section : json) (section_hash : string) (signature : string) : result json :=
  proof <- py_get section "sProof" JNull ;;
  match section, proof with
  | JObj m, JObj proof =>
      let proof := set_if_present "type" (JStr "Eip712Signature2023") proof in
      let proof := set_if_present "sectionHash" (JStr section_hash) proof in
      let proof := set_if_present "proofValue" (JStr signature) proof in
      Returns (JObj (dict_update "sProof" (fun _ => JObj proof) m))
  | _, _ => Returns section
  end.

Definition _update_top_proof (doc : json) (signature : string) : result json :=
  proof <- py_get doc "proof" JNull ;;
  match doc, proof with
  | JObj m, JObj proof =>
      let proof := set_if_present "type" (JStr "Eip712Signature2023") proof in
      let proof := set_if_present "proofValue" (JStr signature) proof in
      Returns (JObj (dict_update "proof" (fun _ => JObj proof) m))
  | _, _ => Returns doc
  end.

(** [section.pop("sProof", None)] on the object at a section path *)
Definition pop_key (k : string) (v : json) : json :=
  match v with
  | JObj m => JObj (dict_pop k m)
  | _ => v
  end.

Definition strip_section (doc : json) (path : string) : json :=
  match _get_by_path doc path with
  | JObj section =>
      if dict_has "sProof" section
      then mutate_at doc path (pop_key "sProof")
      else doc
  | _ => doc
  end.

(** [deepcopy] is the identity on values. *)
Definition _strip_existing_eip712 (vc : json) : json :=
  let doc := vc in
  let doc := fold_left strip_section SECTION_PATHS doc in
  match doc with
  | JObj m => if dict_has "proof" m then pop_key "proof" doc else doc
  | _ => doc
  end.

(** A [for] loop whose body may raise. *)
Fixpoint for_each {S A : Type} (body : S -> A -> result S) (l : list A) (s : S)
  : result S :=
  match l with
  | [] => Returns s
  | a :: r => s' <- body s a ;; for_each body r s'
  end.

(** The body of the section loop of [issue]; the state is the working
    copy and the proof records so far. *)
Definition issue_section (domain : Eip712Domain) (clean_for_section_hash : json)
  (st : json * list json) (it : string * json) : result (json * list json) :=
  let '(issued, proofs_meta) := st in
  let '(path, priv) := it in
  let section := _get_by_path issued path in
  if negb (is_dict section) then Returns st
  else
    let section_clean :=
      py_or (_get_by_path clean_for_section_hash path) (JObj []) in
    section_hash <- keccak256_json section_clean ;;
    let typed := build_section_typed_data domain path section_hash in
    '(signature, signer) <- sign_typed_data priv typed ;;
    section' <- _update_section_proof section section_hash signature ;;
    Returns (mutate_at issued path (fun _ => section'),
             proofs_meta ++
             [JObj [("path", JStr path); ("sectionHash", JStr section_hash)]]).

Definition issue (vc keys_cfg : json) (verifying_contract : json)
  : result (json * list json) :=
  let issued := vc in
  domain_cfg <- py_get keys_cfg "domain" (JObj []) ;;
  name_v <- py_get domain_cfg "name" (JStr "RWA-VC") ;;
  version_v <- py_get domain_cfg "version" (JStr "1") ;;
  chainId_v <- py_get domain_cfg "chainId" (JNum 1) ;;
  chainId_i <- py_int chainId_v ;;
  let domain :=
    {| name := name_v;
       version := py_str version_v;
       chainId := chainId_i;
       verifyingContract := verifying_contract |} in
  keys <- py_get keys_cfg "keys" (JObj []) ;;
  priv_identity <- py_get keys "identity" JNull ;;
  priv_compliance <- py_get keys "compliance" JNull ;;
  priv_custody <- py_get keys "custody" JNull ;;
  priv_document <- py_get keys "document" JNull ;;
  let proofs_meta := [] in
  let clean_for_section_hash := _strip_existing_eip712 issued in
  '(issued, proofs_meta) <-
    for_each (issue_section domain clean_for_section_hash)
      [(nth 0 SECTION_PATHS EmptyString, priv_identity);
       (nth 1 SECTION_PATHS EmptyString, priv_compliance);
       (nth 2 SECTION_PATHS EmptyString, priv_custody)]
      (issued, proofs_meta) ;;
  let clean_for_doc_hash := _strip_existing_eip712 issued in
  doc_hash <- keccak256_json clean_for_doc_hash ;;
  let typed_doc := build_document_typed_data domain doc_hash in
  '(sig_doc, signer_doc) <- sign_typed_data priv_document typed_doc ;;
  issued <- _update_top_proof issued sig_doc ;;
  Returns (issued,
           proofs_meta ++
           [JObj [("path", JStr "/"); ("documentHash", JStr doc_hash)]]).

(* ================================================================= *)
(** ** verifier.py *)

(** Line for line [_strip_existing_eip712]. *)
Definition _strip_eip712 (vc : json) : json :=
  let doc := vc in
  let doc := fold_left strip_section SECTION_PATHS doc in
  match doc with
  | JObj m => if dict_has "proof" m then pop_key "proof" doc else doc
  | _ => doc
  end.

Definition _role_for_path (path : string) : json :=
  if str_endswith path "/identity" then JStr "identity"
  else if str_endswith path "/compliance" then JStr "compliance"
  else if str_endswith path "/custody" then JStr "custody"
  else JNull.

Definition default_domain_dict : json :=
  JObj [("name", JStr "RWA-VC");
        ("version", JStr "1");
        ("chainId", JNum 1);
        ("verifyingContract", JStr zero_address)].

(** The domain that [verify] rebuilds from a proof object. *)
Definition proof_domain (proof : json) : result Eip712Domain :=
  domain_dict <- py_get proof "domain" default_domain_dict ;;
  name_v <- py_get domain_dict "name" (JStr "RWA-VC") ;;
  version_v <- py_get domain_dict "version" (JStr "1") ;;
  chainId_v <- py_get domain_dict "chainId" (JNum 1) ;;
  chainId_i <- py_int chainId_v ;;
  verifyingContract_v <-
    py_get domain_dict "verifyingContract" (JStr zero_address) ;;
  Returns {| name := name_v;
             version := py_str version_v;
             chainId := chainId_i;
             verifyingContract := verifyingContract_v |}.

(** [recovered.lower() == str(expected).lower()] *)
Definition same_address (recovered : string) (expected : json) : bool :=
  str_lower recovered =? str_lower (py_str expected).

(** [v == s] for a string [s] *)
Definition eq_str (s : string) (v : json) : bool :=
  match v with
  | JStr s' => s =? s'
  | _ => false
  end.

(** The body of the section loop of [verify]. *)
Definition verify_section (vc clean expected_addresses : json)
  (results : list json) (path : string) : result (list json) :=
  let section := _get_by_path vc path in
  if negb (is_dict section) then Returns results
  else
    proof <- py_get section "sProof" JNull ;;
    if negb (is_dict proof) then
      Returns (results ++
               [JObj [("path", JStr path); ("ok", JBool false);
                      ("reason", JStr "missing sProof")]])
    else
      let section_clean := py_or (_get_by_path clean path) (JObj []) in
      computed_hash <- keccak256_json section_clean ;;
      domain <- proof_domain proof ;;
      let typed := build_section_typed_data domain path computed_hash in
      signature <- py_get proof "proofValue" (JStr EmptyString) ;;
      recovered <- recover_typed_data_signer typed signature ;;
      expected_hash <- py_get proof "sectionHash" JNull ;;
      let hash_ok := eq_str computed_hash expected_hash in
      let role := _role_for_path path in
      expected_from_keys <-
        (if truthy role
         then py_get (py_or expected_addresses (JObj [])) (py_str role) JNull
         else Returns JNull) ;;
      signer_v <- py_get proof "signer" JNull ;;
      let expected_signer := py_or signer_v expected_from_keys in
      let addr_ok :=
        if negb (truthy expected_signer) then true
        else same_address recovered expected_signer in
      type_v <- py_get proof "type" JNull ;;
      let type_ok := eq_str "Eip712Signature2023" type_v in
      Returns (results ++
               [JObj [("path", JStr path);
                      ("ok", JBool (hash_ok && addr_ok && type_ok));
                      ("hash_ok", JBool hash_ok);
                      ("addr_ok", JBool addr_ok);
                      ("type_ok", JBool type_ok);
                      ("recovered", JStr recovered);
                      ("expected_signer", expected_signer);
                      ("role", role)]]).

Definition verify (vc expected_addresses : json) : result (list json) :=
  let results := [] in
  let clean := _strip_eip712 vc in
  results <-
    for_each (verify_section vc clean expected_addresses)
      SECTION_PATHS results ;;
  proof_doc <- py_get vc "proof" JNull ;;
  if negb (is_dict proof_doc) then
    Returns (results ++
             [JObj [("path", JStr "/"); ("ok", JBool false);
                    ("reason", JStr "missing proof")]])
  else
    let clean_doc := _strip_eip712 vc in
    computed_doc_hash <- keccak256_json clean_doc ;;
    domain <- proof_domain proof_doc ;;
    let typed_doc := build_document_typed_data domain computed_doc_hash in
    signature <- py_get proof_doc "proofValue" (JStr EmptyString) ;;
    recovered_doc <- recover_typed_data_signer typed_doc signature ;;
    expected_doc <-
      py_get (py_or expected_addresses (JObj [])) "document" JNull ;;
    signer_v <- py_get proof_doc "signer" JNull ;;
    let expected_doc := py_or signer_v expected_doc in
    let ok_doc := true in
    let ok_doc :=
      if truthy expected_doc then same_address recovered_doc expected_doc
      else ok_doc in
    type_v <- py_get proof_doc "type" JNull ;;
    let ok_doc := ok_doc && eq_str "Eip712Signature2023" type_v in
    Returns (results ++
             [JObj [("path", JStr "/");
                    ("ok", JBool ok_doc);
                    ("recovered", JStr recovered_doc);
                    ("expected", expected_doc)]]).

End Code.

(* ================================================================= *)
(** ** A deterministic signer for concrete runs *)

(** The design notes of the specification ask for the core to be
    testable with a deterministic fake signer; this is one.  A key is
    a non-empty string without a bar, its address is the key behind a
    prefix, a signature is the key, a bar and the message, and the
    digest of a text is the text behind ["0x"] (so no two texts share
    a digest). *)
Module Fake.

Fixpoint has_bar (s : string) : bool :=
  match s with
  | EmptyString => false
  | String c r => Ascii.eqb c "|" || has_bar r
  end.

Fixpoint cut_at_bar (s : string) : option (string * string) :=
  match s with
  | EmptyString => None
  | String c r =>
      if Ascii.eqb c "|" then Some (EmptyString, r)
      else match cut_at_bar r with
           | Some (a, b) => Some (String c a, b)
           | None => None
           end
  end.

Definition address (k : string) : string := ("0xAcct" ++ k)%string.

Definition from_key (k : json) : option LocalAccount :=
  match k with
  | JStr s =>
      if (s =? EmptyString) || has_bar s then None
      else Some {| account_key := s; account_address := address s |}
  | _ => None
  end.

Definition recover (m : string) (signature : json) : option string :=
  match signature with
  | JStr s =>
      match cut_at_bar s with
      | Some (k, m') => if m' =? m then Some (address k) else Some "0xForged"
      | None => None
      end
  | _ => None
  end.

Definition int_of_string (s : string) : option Z :=
  match NilZero.int_of_string s with
  | Some i => Some (Z.of_int i)
  | None => None
  end.

#[export] Instance runtime : Runtime := {|
  keccak_hex := fun s => ("0x" ++ s)%string;
  Account_from_key := from_key;
  encode_typed_data := fun t => Some (to_canonical_json t);
  sign_message := fun m k => (k ++ "|" ++ m)%string;
  recover_message := recover;
  repr_container := to_canonical_json;
  int_of_str := int_of_string
|}.

End Fake.

(* ================================================================= *)
(** ** The scenario of the specification's section 8 *)

Module Scenario.

Definition template : json :=
  JObj [("type", JStr "x");
        ("sectionHash", JStr EmptyString);
        ("proofValue", JStr EmptyString)].

Definition document : json :=
  JObj [("credentialSubject",
         JObj [("identity", JObj [("a", JNum 1); ("sProof", template)]);
               ("custody", JObj [("b", JNum 2); ("sProof", template)])]);
        ("proof", template)].

Definition keys : json :=
  JObj [("identity", JStr "key-identity");
        ("compliance", JStr "key-compliance");
        ("custody", JStr "key-custody");
        ("document", JStr "key-document")].

Definition config (domain_name : string) : json :=
  JObj [("domain",
         JObj [("name", JStr domain_name);
               ("version", JStr "1");
               ("chainId", JNum 1)]);
        ("keys", keys)].

Definition expectedSigners : json :=
  JObj [("identity", JStr (Fake.address "key-identity"));
        ("compliance", JStr (Fake.address "key-compliance"));
        ("custody", JStr (Fake.address "key-custody"));
        ("document", JStr (Fake.address "key-document"))].

End Scenario.

(* ================================================================= *)
(** ** Vocabulary of the statements *)

(** Two paths part company at some key. *)
Fixpoint diverge (ps qs : list string) : bool :=
  match ps, qs with
  | p :: ps', q :: qs' => if p =? q then diverge ps' qs' else true
  | _, _ => false
  end.

(** The section, or the document, that the issuer's update leaves
    behind: the value that [_update_section_proof] and
    [_update_top_proof] compute, and the argument itself where they
    would raise. *)
Definition signed_section (section_hash signature : string) (section : json)
  : json :=
  match _update_section_proof section section_hash signature with
  | Returns s => s
  | Raises _ => section
  end.

Definition signed_document (signature : string) (doc : json) : json :=
  match _update_top_proof doc signature with
  | Returns d => d
  | Raises _ => doc
  end.

(** The proof object of a section and of the document, [JNull] when
    there is none. *)
Definition section_proof (section : json) : json :=
  match py_get section "sProof" JNull with
  | Returns p => p
  | Raises _ => JNull
  end.

Definition document_proof (doc : json) : json :=
  match py_get doc "proof" JNull with
  | Returns p => p
  | Raises _ => JNull
  end.

(** The keys of an object, in order. *)
Definition keys_of (v : json) : list string :=
  match v with
  | JObj m => map fst m
  | _ => []
  end.

(** [v.get(k)] as a total function, for the statements. *)
Definition field (k : string) (v : json) : json :=
  match v with
  | JObj m => match dict_get k m with Some x => x | None => JNull end
  | _ => JNull
  end.

Definition section_record (path section_hash : string) : json :=
  JObj [("path", JStr path); ("sectionHash", JStr section_hash)].

Definition document_record (doc_hash : string) : json :=
  JObj [("path", JStr "/"); ("documentHash", JStr doc_hash)].

(** A section is present when its path leads to an object. *)
Definition present (doc : json) (path : string) : bool :=
  is_dict (_get_by_path doc path).

(** The canonical text of the value encodes in UTF-8, so that
    [keccak256_json] returns. *)
Definition hashable (data : json) : bool :=
  negb (has_surrogate (to_canonical_json data)).

(** The content that issuer and verifier hash for the section at
    [path], from the document with its proofs stripped. *)
Definition section_content (clean : json) (path : string) : json :=
  py_or (_get_by_path clean path) (JObj []).

Section Vocabulary.

Context {R : Runtime}.

(** The hash that issuer and verifier compute for the section at
    [path], from the document with its proofs stripped, when its
    content can be hashed. *)
Definition section_hash_of (clean : json) (path : string) : string :=
  keccak256_hex (py_or (_get_by_path clean path) (JObj [])).

End Vocabulary.

(** What the issuer writes into a proof object: the values of the keys
    that are there. *)
Definition sealed_section_proof (section_hash signature : string) (proof : dict)
  : dict :=
  set_if_present "proofValue" (JStr signature)
    (set_if_present "sectionHash" (JStr section_hash)
       (set_if_present "type" (JStr "Eip712Signature2023") proof)).

Definition sealed_document_proof (signature : string) (proof : dict) : dict :=
  set_if_present "proofValue" (JStr signature)
    (set_if_present "type" (JStr "Eip712Signature2023") proof).

Section IssueSteps.

Context {R : Runtime}.

(** The two halves of [issue], for the proofs: reading the
    configuration, and signing with what was read ([issue_eq]). *)
Definition config_domain (keys_cfg verifying_contract : json)
  : result Eip712Domain :=
  domain_cfg <- py_get keys_cfg "domain" (JObj []) ;;
  name_v <- py_get domain_cfg "name" (JStr "RWA-VC") ;;
  version_v <- py_get domain_cfg "version" (JStr "1") ;;
  chainId_v <- py_get domain_cfg "chainId" (JNum 1) ;;
  chainId_i <- py_int chainId_v ;;
  Returns {| name := name_v;
             version := py_str version_v;
             chainId := chainId_i;
             verifyingContract := verifying_contract |}.

(** The key configured for a role, [JNull] when there is none. *)
Definition config_key (keys_cfg : json) (role : string) : result json :=
  keys <- py_get keys_cfg "keys" (JObj []) ;;
  py_get keys role JNull.

Definition section_items (priv_identity priv_compliance priv_custody : json)
  : list (string * json) :=
  [(nth 0 SECTION_PATHS EmptyString, priv_identity);
   (nth 1 SECTION_PATHS EmptyString, priv_compliance);
   (nth 2 SECTION_PATHS EmptyString, priv_custody)].

Definition issue_with (domain : Eip712Domain)
  (priv_identity priv_compliance priv_custody priv_document : json) (vc : json)
  : result (json * list json) :=
  '(issued, proofs_meta) <-
    for_each (issue_section domain (_strip_existing_eip712 vc))
      (section_items priv_identity priv_compliance priv_custody) (vc, []) ;;
  doc_hash <- keccak256_json (_strip_existing_eip712 issued) ;;
  let typed_doc := build_document_typed_data domain doc_hash in
  '(sig_doc, signer_doc) <- sign_typed_data priv_document typed_doc ;;
  issued <- _update_top_proof issued sig_doc ;;
  Returns (issued, proofs_meta ++ [document_record doc_hash]).

(** The outcome of an issuance without the issued document: the proof
    records, or the exception. *)
Definition records_of (r : result (json * list json)) : result (list json) :=
  match r with
  | Returns (_, meta) => Returns meta
  | Raises e => Raises e
  end.

End IssueSteps.


(** The root proof object once the issuer has written into it. *)
Definition seal_document (signature : string) (proof : json) : json :=
  match proof with
  | JObj p => JObj (sealed_document_proof signature p)
  | v => v
  end.

Definition seal_section (section_hash signature : string) (proof : json)
  : json :=
  match proof with
  | JObj p => JObj (sealed_section_proof section_hash signature p)
  | v => v
  end.

Section Results.

Context {R : Runtime}.

(** [proof.get("proofValue", "")] *)
Definition proof_value (proof : json) : json :=
  match proof with
  | JObj p =>
      match dict_get "proofValue" p with
      | Some v => v
      | None => JStr EmptyString
      end
  | _ => JStr EmptyString
  end.

(** The expected signer that [verify] settles on for a proof object
    and a role: the proof's own [signer] when it is truthy, else the
    entry of the role in the expected addresses. *)
Definition expected_signer_of (proof expected_addresses role : json) : json :=
  let expected_from_keys :=
    if truthy role
    then field (py_str role) (py_or expected_addresses (JObj []))
    else JNull in
  py_or (field "signer" proof) expected_from_keys.

Definition addr_ok_of (recovered : string) (expected_signer : json) : bool :=
  if negb (truthy expected_signer) then true
  else same_address recovered expected_signer.

(** The result that [verify] appends for a section with a proof
    object, given the hash it computed and the signer it recovered. *)
Definition section_entry (path computed_hash recovered : string)
  (proof expected_addresses : json) : json :=
  let hash_ok := eq_str computed_hash (field "sectionHash" proof) in
  let role := _role_for_path path in
  let expected_signer := expected_signer_of proof expected_addresses role in
  let addr_ok := addr_ok_of recovered expected_signer in
  let type_ok := eq_str "Eip712Signature2023" (field "type" proof) in
  JObj [("path", JStr path);
        ("ok", JBool (hash_ok && addr_ok && type_ok));
        ("hash_ok", JBool hash_ok);
        ("addr_ok", JBool addr_ok);
        ("type_ok", JBool type_ok);
        ("recovered", JStr recovered);
        ("expected_signer", expected_signer);
        ("role", role)].

(** The result that [verify] appends for the document. *)
Definition document_entry (recovered : string) (proof expected_addresses : json)
  : json :=
  let expected_doc :=
    expected_signer_of proof expected_addresses (JStr "document") in
  let ok_doc :=
    (if truthy expected_doc then same_address recovered expected_doc else true)
    && eq_str "Eip712Signature2023" (field "type" proof) in
  JObj [("path", JStr "/");
        ("ok", JBool ok_doc);
        ("recovered", JStr recovered);
        ("expected", expected_doc)].

Definition missing_entry (path reason : string) : json :=
  JObj [("path", JStr path); ("ok", JBool false); ("reason", JStr reason)].

(** The expected addresses are [None], or a dict, or another false
    value: [(expected_addresses or {}).get] does not raise. *)
Definition usable_expected (expected_addresses : json) : bool :=
  is_dict (py_or expected_addresses (JObj [])).

(** The signer that [verify] recovers for the section at [path] from
    its proof object, or the exception: the content is hashed, the
    domain rebuilt and the signer recovered, in this order. *)
Definition recover_section (vc : json) (path : string) (proof : json)
  : result string :=
  computed_hash <- keccak256_json (section_content (_strip_eip712 vc) path) ;;
  domain <- proof_domain proof ;;
  recover_typed_data_signer
    (build_section_typed_data domain path computed_hash)
    (proof_value proof).

Definition recover_document (vc : json) (proof : json) : result string :=
  computed_doc_hash <- keccak256_json (_strip_eip712 vc) ;;
  domain <- proof_domain proof ;;
  recover_typed_data_signer
    (build_document_typed_data domain computed_doc_hash)
    (proof_value proof).

End Results.

(** A per-target result: an object with a path and a boolean [ok]. *)
Definition is_result (r : json) : bool :=
  match field "path" r, field "ok" r with
  | JStr _, JBool _ => true
  | _, _ => false
  end.

(** The result is about the target at [path]. *)
Definition has_path (path : string) (r : json) : bool :=
  eq_str path (field "path" r).

Section Templates.

Context {R : Runtime}.

(** A section proof template that the round trip can fill: an object
    with the three fields the issuer writes, no signer of its own, and
    from which the verifier rebuilds the domain [domain]. *)
Definition section_template_ok (domain : Eip712Domain) (proof : json) : Prop :=
  exists p,
    proof = JObj p
    /\ dict_has "type" p = true
    /\ dict_has "sectionHash" p = true
    /\ dict_has "proofValue" p = true
    /\ truthy (field "signer" proof) = false
    /\ proof_domain proof = Returns domain.

Definition document_template_ok (domain : Eip712Domain) (proof : json) : Prop :=
  exists p,
    proof = JObj p
    /\ dict_has "type" p = true
    /\ dict_has "proofValue" p = true
    /\ truthy (field "signer" proof) = false
    /\ proof_domain proof = Returns domain.

(** The expected addresses are those of the configured keys, as
    [gen_keys.py] writes them. *)
Definition ROLES : list string :=
  ["identity"; "compliance"; "custody"; "document"].

Definition expected_matches (keys_cfg expected_addresses : json) : Prop :=
  usable_expected expected_addresses = true
  /\ forall role priv a,
      In role ROLES ->
      config_key keys_cfg role = Returns priv ->
      private_key_to_address priv = Returns a ->
      field role (py_or expected_addresses (JObj [])) = JStr a.

End Templates.

(** The order of the keys in canonical JSON. *)
Definition key_le {A : Type} (a b : string * A) : Prop :=
  (fst a <=? fst b)%string = true.

(** The items of a dict with their values rendered. *)
Definition rendered_items (m : dict) : list (string * string) :=
  map (fun kv => (fst kv, to_canonical_json (snd kv))) m.

(** Space, tab, line feed, carriage return. *)
Definition is_whitespace (c : ascii) : bool :=
  let n := nat_of_ascii c in
  ((n =? 32) || (n =? 9) || (n =? 10) || (n =? 13))%nat.

Fixpoint has_whitespace (s : string) : bool :=
  match s with
  | EmptyString => false
  | String c r => is_whitespace c || has_whitespace r
  end.

Fixpoint has_space (s : string) : bool :=
  match s with
  | EmptyString => false
  | String c r => (nat_of_ascii c =? 32)%nat || has_space r
  end.

(** No string of the value, key or content, holds a space. *)
Fixpoint space_free (v : json) : bool :=
  match v with
  | JStr s => negb (has_space s)
  | JArr l => forallb space_free l
  | JObj m =>
      forallb (fun kv => negb (has_space (fst kv)) && space_free (snd kv)) m
  | _ => true
  end.

(* ================================================================= *)
(** ** Sample documents *)

Module Samples.

(** A signature that the fake signer can take apart but that nobody
    made for the message at hand. *)
Definition stray_signature : json := JStr "someone|something".

(** A credential whose identity section and root carry a proof object
    with a stray signature and nothing else. *)
Definition unsigned : json :=
  JObj [("credentialSubject",
         JObj [("identity",
                JObj [("a", JNum 1);
                      ("sProof", JObj [("proofValue", stray_signature)])])]);
        ("proof", JObj [("proofValue", stray_signature)])].

(** The identity section says [2] where the stored hash is that of the
    content [{"a": 1}]. *)
Definition signed_content : json := JObj [("a", JNum 1)].

Definition tampered : json :=
  JObj [("credentialSubject",
         JObj [("identity",
                JObj [("a", JNum 2);
                      ("sProof",
                       JObj [("type", JStr "Eip712Signature2023");
                             ("sectionHash",
                              JStr (keccak256_hex (R := Fake.runtime)
                                      signed_content));
                             ("proofValue", stray_signature)])])]);
        ("proof", JObj [("proofValue", stray_signature)])].

(** No section; a root proof of the right type with a stray
    signature. *)
Definition typed_only : json :=
  JObj [("proof",
         JObj [("type", JStr "Eip712Signature2023");
               ("proofValue", stray_signature)])].

(** A section without a proof object, and no root proof. *)
Definition bare : json :=
  JObj [("credentialSubject", JObj [("identity", JObj [("a", JNum 1)])])].

(** A configuration without a key for the document. *)
Definition config_without_document_key : json :=
  JObj [("keys", JObj [("identity", JStr "key-identity")])].

(** The same dict, its keys inserted in two orders. *)
Definition ordered : json :=
  JObj [("a", JNum 1); ("b", JObj [("x", JStr "u"); ("y", JArr [JNull])])].

Definition reordered : json :=
  JObj [("b", JObj [("y", JArr [JNull]); ("x", JStr "u")]); ("a", JNum 1)].

End Samples.

(* ================================================================= *)
(** ** Reading canonical JSON back *)

(** What follows a value inside canonical JSON: nothing, a comma, a
    closing bracket or a closing brace. *)
Definition delimited (r : string) : bool :=
  match r with
  | EmptyString => true
  | String c _ =>
      let n := nat_of_ascii c in
      ((n =? 44) || (n =? 93) || (n =? 125))%nat
  end.

(** The characters of the decimal text of an integer. *)
Definition numeric (c : ascii) : bool :=
  let n := nat_of_ascii c in
  (((48 <=? n) && (n <=? 57)) || (n =? 45))%nat.

Fixpoint all_numeric (s : string) : bool :=
  match s with
  | EmptyString => true
  | String c r => numeric c && all_numeric r
  end.

(** The longest numeric prefix of a text, and the rest. *)
Fixpoint span_numeric (s : string) : string * string :=
  match s with
  | EmptyString => (EmptyString, EmptyString)
  | String c r =>
      if numeric c
      then let '(a, b) := span_numeric r in (String c a, b)
      else (EmptyString, s)
  end.

(** The first character of its text tells the constructor of a
    value. *)
Inductive kind : Type := Knull | Kbool | Knum | Kstr | Karr | Kobj | Kother.

Definition kind_of (v : json) : kind :=
  match v with
  | JNull => Knull
  | JBool _ => Kbool
  | JNum _ => Knum
  | JStr _ => Kstr
  | JArr _ => Karr
  | JObj _ => Kobj
  end.

Definition kind_of_char (c : ascii) : kind :=
  let n := nat_of_ascii c in
  if (n =? 110)%nat then Knull
  else if ((n =? 116) || (n =? 102))%nat then Kbool
  else if numeric c then Knum
  else if (n =? 34)%nat then Kstr
  else if (n =? 91)%nat then Karr
  else if (n =? 123)%nat then Kobj
  else Kother.

Definition head_kind (s : string) : kind :=
  match s with
  | EmptyString => Kother
  | String c _ => kind_of_char c
  end.

Definition hex_value (c : ascii) : nat :=
  let n := nat_of_ascii c in
  if (n <=? 57)%nat then n - 48 else n - 87.

(** The character that an escaped text starts with, and the rest. *)
Definition unescape_head (s : string) : option (ascii * string) :=
  match s with
  | EmptyString => None
  | String c r =>
      if (nat_of_ascii c =? 92)%nat then
        match r with
        | String e r' =>
            let n := nat_of_ascii e in
            if (n =? 92)%nat then Some (e, r')
            else if (n =? 34)%nat then Some (e, r')
            else if (n =? 98)%nat then Some (ascii_of_nat 8, r')
            else if (n =? 102)%nat then Some (ascii_of_nat 12, r')
            else if (n =? 110)%nat then Some (ascii_of_nat 10, r')
            else if (n =? 114)%nat then Some (ascii_of_nat 13, r')
            else if (n =? 116)%nat then Some (ascii_of_nat 9, r')
            else
              match r' with
              | String _ (String _ (String h1 (String h2 r''))) =>
                  Some (ascii_of_nat (16 * hex_value h1 + hex_value h2), r'')
              | _ => None
              end
        | EmptyString => None
        end
      else Some (c, r)
  end.

(** The text of the elements after the first: each behind a comma. *)
Fixpoint sep_tail (l : list string) : string :=
  match l with
  | [] => EmptyString
  | x :: r => ("," ++ x ++ sep_tail r)%string
  end.

Definition item_of (kv : string * json) : string :=
  (encode_basestring (fst kv) ++ ":" ++ to_canonical_json (snd kv))%string.

(* ================================================================= *)
(** ** Vocabulary of the further properties *)

(** A character below 0x20. *)
Fixpoint has_control (s : string) : bool :=
  match s with
  | EmptyString => false
  | String c r => (nat_of_ascii c <? 32)%nat || has_control r
  end.

(** [all(r.get("ok", False) for r in results)], the composite verdict
    of demo.py and scripts/verify.py.  The results of [verify] are
    dicts. *)
Definition ok_all (results : list json) : bool :=
  forallb
    (fun r =>
       match py_get r "ok" (JBool false) with
       | Returns v => truthy v
       | Raises _ => false
       end)
    results.

Section FurtherVocabulary.

Context {R : Runtime}.

(** [sign_typed_data] returns. *)
Definition signable (priv typed : json) : Prop :=
  exists sig signer, sign_typed_data priv typed = Returns (sig, signer).

(** The expected signer that [verify] settles on is nobody, or the
    address [a] in some letter case. *)
Definition accepts (a : string) (expected_signer : json) : Prop :=
  truthy expected_signer = false \/ same_address a expected_signer = true.

(** A template with the fields the issuer fills and a rebuilt domain
    [domain]; its own [signer] is not constrained. *)
Definition section_template_fields (domain : Eip712Domain) (proof : json)
  : Prop :=
  exists p,
    proof = JObj p
    /\ dict_has "type" p = true
    /\ dict_has "sectionHash" p = true
    /\ dict_has "proofValue" p = true
    /\ proof_domain proof = Returns domain.

Definition document_template_fields (domain : Eip712Domain) (proof : json)
  : Prop :=
  exists p,
    proof = JObj p
    /\ dict_has "type" p = true
    /\ dict_has "proofValue" p = true
    /\ proof_domain proof = Returns domain.

(** The core of demo.py's [main]: issue, read the expected addresses
    off the configuration, verify, and say whether every result is
    ok.  Reading and writing the files is left out. *)
Definition demo (vc keys_cfg : json) : result (json * list json * bool) :=
  '(issued, proofs) <- issue vc keys_cfg (JStr zero_address) ;;
  expected <- py_get (py_or keys_cfg (JObj [])) "addresses" JNull ;;
  results <- verify issued expected ;;
  let ok := ok_all results in
  Returns (issued, results, ok).

End FurtherVocabulary.

Section CallersVocabulary.

Context {R : Runtime}.



End CallersVocabulary.

(* ================================================================= *)
(** ** rwa_status_list_manager.py: the status lists *)

(** The state of the objects and what the methods do to it.  Left out
    are the readings of the clock ([created], [updated], [updated_at]
    and the durations that the methods return), the log lines and the
    lock, which guards single calls.  A method that mutates its object
    gives the object after the call. *)
Module StatusList.

Record StatusEntry : Type := {
  index : Z;
  status : string;
  reason : option string
}.

Record StatusList2021 : Type := {
  list_id : string;
  purpose : string;
  size : Z;
  (** the [bitarray]: it has [size] bits from [__init__] on, item
      assignment keeping the length *)
  status_bits : list bool;
  detailed_status : list (Z * StatusEntry)
}.

(** [bits[i] = b] for an index within the array *)
Fixpoint set_bit (i : nat) (b : bool) (bits : list bool) : list bool :=
  match bits, i with
  | [], _ => []
  | _ :: r, O => b :: r
  | x :: r, S i' => x :: set_bit i' b r
  end.

(** [bits[i]] for an index within the array *)
Definition get_bit (i : nat) (bits : list bool) : bool := nth i bits false.

(** [d.get(i)] and [d[i] = e] on a dict with integer keys *)
Fixpoint entry_get (i : Z) (m : list (Z * StatusEntry)) : option StatusEntry :=
  match m with
  | [] => None
  | (k, e) :: r => if (i =? k)%Z then Some e else entry_get i r
  end.

Fixpoint entry_set (i : Z) (e : StatusEntry) (m : list (Z * StatusEntry))
  : list (Z * StatusEntry) :=
  match m with
  | [] => [(i, e)]
  | (k, e') :: r =>
      if (i =? k)%Z then (k, e) :: r else (k, e') :: entry_set i e r
  end.

(** [StatusList2021.__init__]; [bitarray(size)] refuses a negative
    length. *)
Definition StatusList2021_init (list_id purpose : string) (size : Z)
  : result StatusList2021 :=
  if (size <? 0)%Z then Raises ValueError
  else
    Returns {| list_id := list_id;
               purpose := purpose;
               size := size;
               status_bits := repeat false (Z.to_nat size);
               detailed_status := [] |}.

Definition update_status (self : StatusList2021) (index : Z) (status : string)
  (reason : option string) : result StatusList2021 :=
  if ((index >=? size self) || (index <? 0))%Z then Raises ValueError
  else
    let status_bits :=
      if (status =? "revoked") || (status =? "suspended")
      then set_bit (Z.to_nat index) true (status_bits self)
      else set_bit (Z.to_nat index) false (status_bits self) in
    let detailed_status :=
      entry_set index
        {| index := index; status := status; reason := reason |}
        (detailed_status self) in
    Returns {| list_id := list_id self;
               purpose := purpose self;
               size := size self;
               status_bits := status_bits;
               detailed_status := detailed_status |}.

Definition batch_update_status (self : StatusList2021)
  (updates : list (Z * string * option string)) : StatusList2021 :=
  fold_left
    (fun self u =>
       let '(index, status, reason) := u in
       if ((index >=? size self) || (index <? 0))%Z then self
       else
         let status_bits :=
           if (status =? "revoked") || (status =? "suspended")
           then set_bit (Z.to_nat index) true (status_bits self)
           else set_bit (Z.to_nat index) false (status_bits self) in
         let detailed_status :=
           entry_set index
             {| index := index; status := status; reason := reason |}
             (detailed_status self) in
         {| list_id := list_id self;
            purpose := purpose self;
            size := size self;
            status_bits := status_bits;
            detailed_status := detailed_status |})
    updates self.

Definition get_status (self : StatusList2021) (index : Z) : result string :=
  if ((index >=? size self) || (index <? 0))%Z then Raises ValueError
  else
    let bit_value := get_bit (Z.to_nat index) (status_bits self) in
    match entry_get index (detailed_status self) with
    | Some e => Returns (status e)
    | None => Returns (if bit_value then "revoked" else "valid")
    end.

(** [get_metrics], as far as the list is concerned: the query of
    index 0 and the batch of the first hundred entries.  The record of
    sizes and durations that it returns is left out. *)
Definition get_metrics (self : StatusList2021) : result StatusList2021 :=
  _ <- get_status self 0 ;;
  let batch_updates :=
    map (fun i => (Z.of_nat i, "valid", @None string))
      (seq 0 (Z.to_nat (Z.min 100 (size self)))) in
  Returns (batch_update_status self batch_updates).

(** [StatusListManager.status_lists] *)
Definition StatusListManager : Type := list (string * StatusList2021).

Fixpoint get_status_list (self : StatusListManager) (list_id : string)
  : option StatusList2021 :=
  match self with
  | [] => None
  | (k, l) :: r => if list_id =? k then Some l else get_status_list r list_id
  end.

(** The list under [list_id] after a method has mutated it: the dict
    holds the object itself. *)
Fixpoint put_status_list (self : StatusListManager) (list_id : string)
  (l : StatusList2021) : StatusListManager :=
  match self with
  | [] => [(list_id, l)]
  | (k, l') :: r =>
      if list_id =? k then (k, l) :: r
      else (k, l') :: put_status_list r list_id l
  end.

Definition create_status_list (self : StatusListManager)
  (list_id purpose : string) (size : Z)
  : result (StatusListManager * StatusList2021) :=
  match get_status_list self list_id with
  | Some l => Returns (self, l)
  | None =>
      status_list <- StatusList2021_init list_id purpose size ;;
      Returns (put_status_list self list_id status_list, status_list)
  end.

Definition update_credential_status (self : StatusListManager)
  (list_id : string) (index : Z) (status : string) (reason : option string)
  : result StatusListManager :=
  match get_status_list self list_id with
  | None => Raises ValueError
  | Some status_list =>
      status_list' <- update_status status_list index status reason ;;
      Returns (put_status_list self list_id status_list')
  end.

Definition check_credential_status (self : StatusListManager)
  (list_id : string) (index : Z) : result string :=
  match get_status_list self list_id with
  | None => Returns "unknown"
  | Some status_list => get_status status_list index
  end.

Definition batch_revoke_credentials (self : StatusListManager)
  (list_id : string) (indices : list Z) (reason : string)
  : result StatusListManager :=
  match get_status_list self list_id with
  | None => Raises ValueError
  | Some status_list =>
      let updates :=
        map (fun index => (index, "revoked", Some reason)) indices in
      Returns (put_status_list self list_id
                 (batch_update_status status_list updates))
  end.

(** The bit that goes with a status. *)
Definition flagged (status : string) : bool :=
  (status =? "revoked") || (status =? "suspended").

(** The two stores agree: the array has [size] bits, and the bit of
    every index with a detailed entry is the one of its status. *)
Definition consistent (l : StatusList2021) : Prop :=
  List.length (status_bits l) = Z.to_nat (size l)
  /\ forall i e,
      entry_get i (detailed_status l) = Some e ->
      (0 <= i < size l)%Z
      /\ get_bit (Z.to_nat i) (status_bits l) = flagged (status e).

(** One entry of a batch, as [update_status] would do it; an entry
    that [update_status] refuses changes nothing. *)
Definition update_or_skip (l : StatusList2021)
  (u : Z * string * option string) : StatusList2021 :=
  let '(index, status, reason) := u in
  match update_status l index status reason with
  | Returns l' => l'
  | Raises _ => l
  end.

End StatusList.

(** A list of eight entries as [StatusList2021("test-list",
    "revocation", 8)] builds it, and a manager that holds it. *)
Module StatusSamples.

Definition fresh : StatusList.StatusList2021 :=
  {| StatusList.list_id := "test-list";
     StatusList.purpose := "revocation";
     StatusList.size := 8;
     StatusList.status_bits := repeat false 8;
     StatusList.detailed_status := [] |}.

Definition manager : StatusList.StatusListManager := [("test-list", fresh)].

End StatusSamples.

(* ================================================================= *)
(** ** spv_algorithm_analysis.py: the Merkle tree *)

(** [MerkleTree] with SHA-256 as a parameter.  An index is a natural
    number: the negative indices of Python, which count from the end
    of a list, are not modelled. *)
Module Merkle.

Inductive error : Type := ValueError | IndexError | AttributeError.

Inductive outcome (A : Type) : Type :=
| Ok (a : A)
| Err (e : error).

Arguments Ok {A} a.
Arguments Err {A} e.

Record MerkleTree : Type := {
  transactions : list string;
  tree : list (list string);
  (** [None]: the attribute was never assigned *)
  root : option string
}.

Section Tree.

(** [hashlib.sha256(data.encode()).hexdigest()] *)
Variable hash_data : string -> string.

(** The [for] loop of [build_tree]: the nodes in pairs, the last one
    with itself when it has no partner. *)
Fixpoint next_level (current_level : list string) : list string :=
  match current_level with
  | [] => []
  | [a] => [hash_data (a ++ a)]
  | a :: b :: r => hash_data (a ++ b) :: next_level r
  end.

(** The [while] loop of [build_tree]: the levels above
    [current_level].  [fuel] bounds the number of rounds; the length
    of the level is enough ([build_levels_fuel]). *)
Fixpoint build_levels (fuel : nat) (current_level : list string)
  : list (list string) :=
  match fuel with
  | O => []
  | S fuel' =>
      if (1 <? List.length current_level)%nat
      then
        let next := next_level current_level in
        next :: build_levels fuel' next
      else []
  end.

(** [MerkleTree.__init__] with [build_tree] *)
Definition MerkleTree_init (transactions : list string) : MerkleTree :=
  match transactions with
  | [] => {| transactions := transactions; tree := []; root := None |}
  | _ =>
      let current_level := map hash_data transactions in
      let tree :=
        current_level
        :: build_levels (List.length current_level) current_level in
      {| transactions := transactions;
         tree := tree;
         root := match last tree [] with
                 | x :: _ => Some x
                 | [] => None
                 end |}
  end.

(** The sibling that [get_merkle_proof] takes at one level, with its
    side; [None] where an index lies outside the level. *)
Definition sibling (current_level : list string) (current_index : nat)
  : option (string * string) :=
  if (current_index mod 2 =? 0)%nat then
    if (current_index + 1 <? List.length current_level)%nat
    then option_map (fun h => (h, "right"))
           (nth_error current_level (current_index + 1))
    else option_map (fun h => (h, "right"))
           (nth_error current_level current_index)
  else option_map (fun h => (h, "left"))
         (nth_error current_level (current_index - 1)).

Fixpoint proof_loop (levels : list (list string))
  (proof : list (string * string)) (current_index : nat)
  : outcome (list (string * string)) :=
  match levels with
  | [] => Ok proof
  | current_level :: rest =>
      match sibling current_level current_index with
      | Some entry => proof_loop rest (proof ++ [entry]) (current_index / 2)
      | None => Err IndexError
      end
  end.

Definition get_merkle_proof (self : MerkleTree) (tx_index : nat)
  : outcome (list (string * string)) :=
  if (List.length (transactions self) <=? tx_index)%nat then Err ValueError
  else proof_loop (removelast (tree self)) [] tx_index.

(** One round of the loop of [verify_spv_proof]. *)
Definition climb (current_hash : string) (entry : string * string) : string :=
  let '(sibling_hash, position) := entry in
  let combined :=
    (if position =? "left" then sibling_hash ++ current_hash
     else current_hash ++ sibling_hash)%string in
  hash_data combined.

Definition verify_spv_proof (self : MerkleTree) (tx_hash : string)
  (tx_index : nat) (proof : list (string * string)) : outcome bool :=
  let current_hash := fold_left climb proof tx_hash in
  match root self with
  | Some r => Ok (current_hash =? r)
  | None => Err AttributeError
  end.

Definition get_tree_height (self : MerkleTree) : nat := List.length (tree self).

End Tree.

End Merkle.

(** A hash for concrete runs: the text between brackets. *)
Module MerkleSamples.

Definition bracket (s : string) : string := ("<" ++ s ++ ">")%string.

Definition three : Merkle.MerkleTree :=
  Merkle.MerkleTree_init bracket ["a"; "b"; "c"].

End MerkleSamples.

(** Configurations and credentials for the document step of [issue]
    and for proofs without a signature. *)
Module IssueSamples.

(** A key for every section and none for the document. *)
Definition section_keys_only : json :=
  JObj [("domain",
         JObj [("name", JStr "T"); ("version", JStr "1"); ("chainId", JNum 1)]);
        ("keys",
         JObj [("identity", JStr "key-identity");
               ("compliance", JStr "key-compliance");
               ("custody", JStr "key-custody")])].

Definition domain_T : Eip712Domain :=
  {| name := JStr "T";
     version := "1";
     chainId := 1;
     verifyingContract := JStr zero_address |}.

(** A root proof object with a [type] and no [proofValue]. *)
Definition root_without_signature : json :=
  JObj [("proof", JObj [("type", JStr "Eip712Signature2023")])].

(** A section whose proof object has no [proofValue]; no root proof. *)
Definition section_without_signature : json :=
  JObj [("credentialSubject",
         JObj [("identity",
                JObj [("a", JNum 1);
                      ("sProof",
                       JObj [("type", JStr "Eip712Signature2023")])])])].

(** The string of one lone surrogate, U+D800, as [json.loads] reads it
    from the escape for it: the bytes 0xED 0xA0 0x80. *)
Definition lone_surrogate : string :=
  String (ascii_of_nat 237)
    (String (ascii_of_nat 160) (String (ascii_of_nat 128) EmptyString)).

(** A credential that holds it. *)
Definition with_lone_surrogate : json :=
  JObj [("name", JStr lone_surrogate)].

End IssueSamples.

(* ================================================================= *)
(** * Properties *)

(** ** Dictionaries *)

Lemma json_ind (P : json -> Prop) :
  P JNull ->
  (forall b, P (JBool b)) ->
  (forall z, P (JNum z)) ->
  (forall s, P (JStr s)) ->
  (forall l, Forall P l -> P (JArr l)) ->
  (forall m, Forall (fun kv => P (snd kv)) m -> P (JObj m)) ->
  forall v, P v.
Proof.
  intros Hnull Hbool Hnum Hstr Harr Hobj.
  fix IH 1.
  intros [ | b | z | s | l | m ].
  - exact Hnull.
  - apply Hbool.
  - apply Hnum.
  - apply Hstr.
  - apply Harr. induction l as [ | x l IHl ]; constructor; [ apply IH | exact IHl ].
  - apply Hobj. induction m as [ | [k x] m IHm ]; constructor;
      [ apply IH | exact IHm ].
Qed.

Lemma bind_Returns {A B : Type} (c : result A) (k : A -> result B) (b : B) :
  bind c k = Returns b -> exists a, c = Returns a /\ k a = Returns b.
Proof. destruct c as [a | e]; simpl; intros H; [ eauto | discriminate ]. Qed.

Lemma of_option_Returns {A : Type} (e : exn) (o : option A) (a : A) :
  of_option e o = Returns a -> o = Some a.
Proof. destruct o; simpl; intros H; [ injection H as -> | discriminate ]; reflexivity. Qed.

Lemma dict_get_update_same k f m :
  dict_get k (dict_update k f m) = option_map f (dict_get k m).
Proof.
  induction m as [ | [k' v] m IH ]; simpl; [ reflexivity | ].
  destruct (String.eqb_spec k k') as [-> | Hne]; simpl.
  - rewrite String.eqb_refl. reflexivity.
  - destruct (String.eqb_spec k k'); [ contradiction | exact IH ].
Qed.

Lemma dict_get_update_other k k' f m :
  k <> k' -> dict_get k (dict_update k' f m) = dict_get k m.
Proof.
  intros Hne. induction m as [ | [k0 v] m IH ]; simpl; [ reflexivity | ].
  destruct (String.eqb_spec k' k0) as [-> | Hne']; simpl.
  - destruct (String.eqb_spec k k0); [ contradiction | reflexivity ].
  - destruct (String.eqb_spec k k0); [ reflexivity | exact IH ].
Qed.

Lemma dict_update_at k f g m :
  (forall v, dict_get k m = Some v -> f v = g v) ->
  dict_update k f m = dict_update k g m.
Proof.
  induction m as [ | [k' v] m IH ]; simpl; intros H; [ reflexivity | ].
  destruct (String.eqb_spec k k') as [-> | Hne].
  - rewrite (H v eq_refl). reflexivity.
  - f_equal. apply IH. exact H.
Qed.

Lemma dict_update_id k f m :
  (forall v, dict_get k m = Some v -> f v = v) -> dict_update k f m = m.
Proof.
  induction m as [ | [k' v] m IH ]; simpl; intros H; [ reflexivity | ].
  destruct (String.eqb_spec k k') as [-> | Hne].
  - rewrite (H v eq_refl). reflexivity.
  - f_equal. apply IH. exact H.
Qed.

Lemma dict_update_twice k f g m :
  dict_update k f (dict_update k g m) = dict_update k (fun x => f (g x)) m.
Proof.
  induction m as [ | [k' v] m IH ]; simpl; [ reflexivity | ].
  destruct (String.eqb_spec k k') as [-> | Hne]; simpl.
  - rewrite String.eqb_refl. reflexivity.
  - destruct (String.eqb_spec k k'); [ contradiction | ]. f_equal. exact IH.
Qed.

Lemma dict_update_comm k k' f g m :
  k <> k' ->
  dict_update k f (dict_update k' g m) = dict_update k' g (dict_update k f m).
Proof.
  intros Hne. induction m as [ | [k0 v] m IH ]; simpl; [ reflexivity | ].
  destruct (String.eqb_spec k' k0) as [-> | H1];
    destruct (String.eqb_spec k k0) as [-> | H2]; simpl.
  - contradiction.
  - rewrite String.eqb_refl. destruct (String.eqb_spec k k0); [ contradiction | reflexivity ].
  - rewrite String.eqb_refl. destruct (String.eqb_spec k' k0); [ contradiction | reflexivity ].
  - destruct (String.eqb_spec k k0); [ contradiction | ].
    destruct (String.eqb_spec k' k0); [ contradiction | ]. f_equal. exact IH.
Qed.

Lemma dict_update_keys k f m : map fst (dict_update k f m) = map fst m.
Proof.
  induction m as [ | [k' v] m IH ]; simpl; [ reflexivity | ].
  destruct (k =? k'); simpl; [ reflexivity | f_equal; exact IH ].
Qed.

Lemma dict_pop_update_same k f m : dict_pop k (dict_update k f m) = dict_pop k m.
Proof.
  induction m as [ | [k' v] m IH ]; simpl; [ reflexivity | ].
  destruct (String.eqb_spec k k') as [-> | Hne]; simpl.
  - rewrite String.eqb_refl. reflexivity.
  - destruct (String.eqb_spec k k'); [ contradiction | ]. f_equal. exact IH.
Qed.


Lemma dict_pop_absent k m : dict_get k m = None -> dict_pop k m = m.
Proof.
  induction m as [ | [k' v] m IH ]; simpl; [ reflexivity | ].
  destruct (k =? k'); [ discriminate | ]. intros H. f_equal. apply IH, H.
Qed.


Lemma dict_get_pop_other k k' m :
  k <> k' -> dict_get k (dict_pop k' m) = dict_get k m.
Proof.
  intros Hne. induction m as [ | [k0 v] m IH ]; simpl; [ reflexivity | ].
  destruct (String.eqb_spec k' k0) as [-> | H1]; simpl.
  - destruct (String.eqb_spec k k0); [ contradiction | exact IH ].
  - destruct (String.eqb_spec k k0); [ reflexivity | exact IH ].
Qed.

(** ** Paths: reading and writing through [_get_by_path] *)

Lemma mutate_parts_at ps f g d :
  f (walk ps d) = g (walk ps d) -> mutate_parts ps f d = mutate_parts ps g d.
Proof.
  revert d. induction ps as [ | p ps IH ]; simpl; intros d H; [ exact H | ].
  destruct d as [ | | | | | m ]; try reflexivity.
  f_equal. apply dict_update_at. intros v Hv. apply IH.
  rewrite Hv in H. exact H.
Qed.

Lemma mutate_parts_id ps f d :
  f (walk ps d) = walk ps d -> mutate_parts ps f d = d.
Proof.
  revert d. induction ps as [ | p ps IH ]; simpl; intros d H; [ exact H | ].
  destruct d as [ | | | | | m ]; try reflexivity.
  f_equal. apply dict_update_id. intros v Hv. apply IH.
  rewrite Hv in H. exact H.
Qed.

Lemma walk_mutate_same ps f d :
  walk ps d <> JNull -> walk ps (mutate_parts ps f d) = f (walk ps d).
Proof.
  revert d. induction ps as [ | p ps IH ]; simpl; intros d H; [ reflexivity | ].
  destruct d as [ | | | | | m ]; try congruence.
  rewrite dict_get_update_same.
  destruct (dict_get p m) as [v | ]; simpl; [ apply IH, H | congruence ].
Qed.

Lemma walk_mutate_diverge ps qs f d :
  diverge ps qs = true -> walk ps (mutate_parts qs f d) = walk ps d.
Proof.
  revert qs d. induction ps as [ | p ps IH ]; intros [ | q qs ] d H;
    simpl in H; try discriminate.
  simpl. destruct d as [ | | | | | m ]; try reflexivity.
  destruct (String.eqb_spec p q) as [-> | Hne].
  - rewrite dict_get_update_same.
    destruct (dict_get q m) as [v | ]; simpl; [ apply IH, H | reflexivity ].
  - rewrite dict_get_update_other by exact Hne. reflexivity.
Qed.

Lemma mutate_parts_twice ps f g d :
  mutate_parts ps f (mutate_parts ps g d)
  = mutate_parts ps (fun x => f (g x)) d.
Proof.
  revert d. induction ps as [ | p ps IH ]; simpl; intros d; [ reflexivity | ].
  destruct d as [ | | | | | m ]; try reflexivity.
  f_equal. rewrite dict_update_twice. apply dict_update_at.
  intros v _. apply IH.
Qed.

Lemma mutate_parts_comm ps qs f g d :
  diverge ps qs = true ->
  mutate_parts ps f (mutate_parts qs g d)
  = mutate_parts qs g (mutate_parts ps f d).
Proof.
  revert qs d. induction ps as [ | p ps IH ]; intros [ | q qs ] d H;
    simpl in H; try discriminate.
  simpl. destruct d as [ | | | | | m ]; try reflexivity.
  f_equal. destruct (String.eqb_spec p q) as [-> | Hne].
  - rewrite !dict_update_twice. apply dict_update_at. intros v _. apply IH, H.
  - apply dict_update_comm, Hne.
Qed.

Lemma is_dict_mutate_parts p ps f d :
  is_dict (mutate_parts (p :: ps) f d) = is_dict d.
Proof. destruct d; reflexivity. Qed.


Lemma walk_mutate_same_null ps f d :
  f JNull = JNull -> walk ps (mutate_parts ps f d) = f (walk ps d).
Proof.
  intros Hf. revert d. induction ps as [ | p ps IH ]; simpl; intros d;
    [ reflexivity | ].
  destruct d as [ | | | | | m ]; simpl; try (symmetry; exact Hf).
  rewrite dict_get_update_same.
  destruct (dict_get p m) as [v | ]; simpl; [ apply IH | symmetry; exact Hf ].
Qed.

Lemma get_mutate_same d p f :
  f JNull = JNull \/ _get_by_path d p <> JNull ->
  _get_by_path (mutate_at d p f) p = f (_get_by_path d p).
Proof.
  unfold _get_by_path, mutate_at. intros [H | H].
  - apply walk_mutate_same_null, H.
  - apply walk_mutate_same, H.
Qed.

Lemma get_mutate_other d p q f :
  diverge (path_parts p) (path_parts q) = true ->
  _get_by_path (mutate_at d q f) p = _get_by_path d p.
Proof. unfold _get_by_path, mutate_at. apply walk_mutate_diverge. Qed.

Lemma mutate_at_comm d p q f g :
  diverge (path_parts p) (path_parts q) = true ->
  mutate_at (mutate_at d q g) p f = mutate_at (mutate_at d p f) q g.
Proof. unfold mutate_at. apply mutate_parts_comm. Qed.

Lemma mutate_at_twice d p f g :
  mutate_at (mutate_at d p g) p f = mutate_at d p (fun x => f (g x)).
Proof. unfold mutate_at. apply mutate_parts_twice. Qed.

Lemma mutate_at_at d p f g :
  f (_get_by_path d p) = g (_get_by_path d p) ->
  mutate_at d p f = mutate_at d p g.
Proof. unfold mutate_at, _get_by_path. apply mutate_parts_at. Qed.

Lemma mutate_at_id d p f :
  f (_get_by_path d p) = _get_by_path d p -> mutate_at d p f = d.
Proof. unfold mutate_at, _get_by_path. apply mutate_parts_id. Qed.

(** ** The three section paths *)

Lemma section_path_parts p :
  In p SECTION_PATHS ->
  exists s, path_parts p = ["credentialSubject"; s].
Proof.
  intros [<- | [<- | [<- | []]]]; eexists; vm_compute; reflexivity.
Qed.

Lemma section_paths_diverge p q :
  In p SECTION_PATHS -> In q SECTION_PATHS -> p <> q ->
  diverge (path_parts p) (path_parts q) = true.
Proof.
  intros [<- | [<- | [<- | []]]] [<- | [<- | [<- | []]]] Hne;
    try (exfalso; apply Hne; reflexivity); vm_compute; reflexivity.
Qed.

Lemma section_path_not_root p : In p SECTION_PATHS -> p <> "/".
Proof. intros [<- | [<- | [<- | []]]]; discriminate. Qed.

Lemma SECTION_PATHS_NoDup : NoDup SECTION_PATHS.
Proof.
  unfold SECTION_PATHS. repeat constructor; simpl; intuition discriminate.
Qed.

Lemma get_pop_root d p :
  In p SECTION_PATHS ->
  _get_by_path (pop_key "proof" d) p = _get_by_path d p.
Proof.
  intros Hp. destruct (section_path_parts p Hp) as [s Hs].
  unfold _get_by_path. rewrite Hs.
  destruct d as [ | | | | | m ]; try reflexivity.
  simpl. rewrite dict_get_pop_other by discriminate. reflexivity.
Qed.

Lemma py_get_mutate_section d p f k default :
  In p SECTION_PATHS -> k <> "credentialSubject" ->
  py_get (mutate_at d p f) k default = py_get d k default.
Proof.
  intros Hp Hk. destruct (section_path_parts p Hp) as [s Hs].
  unfold mutate_at. rewrite Hs.
  destruct d as [ | | | | | m ]; try reflexivity.
  simpl. rewrite dict_get_update_other by exact Hk. reflexivity.
Qed.

Lemma is_dict_mutate_section d p f :
  In p SECTION_PATHS -> is_dict (mutate_at d p f) = is_dict d.
Proof.
  intros Hp. destruct (section_path_parts p Hp) as [s Hs].
  unfold mutate_at. rewrite Hs. apply is_dict_mutate_parts.
Qed.

(** ** Stripping the proofs *)

Lemma strip_section_eq d p :
  strip_section d p = mutate_at d p (pop_key "sProof").
Proof.
  unfold strip_section.
  destruct (_get_by_path d p) as [ | | | | | section ] eqn:E;
    try (symmetry; apply mutate_at_id; rewrite E; reflexivity).
  unfold dict_has.
  destruct (dict_get "sProof" section) eqn:G; [ reflexivity | ].
  symmetry. apply mutate_at_id. rewrite E. simpl.
  rewrite dict_pop_absent by exact G. reflexivity.
Qed.

Lemma strip_fold_eq l d :
  fold_left strip_section l d
  = fold_left (fun d p => mutate_at d p (pop_key "sProof")) l d.
Proof.
  revert d. induction l as [ | p l IH ]; simpl; intros d; [ reflexivity | ].
  rewrite strip_section_eq. apply IH.
Qed.

Lemma strip_eq vc :
  _strip_existing_eip712 vc
  = pop_key "proof"
      (fold_left (fun d p => mutate_at d p (pop_key "sProof")) SECTION_PATHS vc).
Proof.
  unfold _strip_existing_eip712. rewrite strip_fold_eq.
  destruct (fold_left _ SECTION_PATHS vc) as [ | | | | | m ]; try reflexivity.
  unfold dict_has. destruct (dict_get "proof" m) eqn:G; [ reflexivity | ].
  simpl. rewrite dict_pop_absent by exact G. reflexivity.
Qed.

Lemma _strip_eip712_eq vc : _strip_eip712 vc = _strip_existing_eip712 vc.
Proof. reflexivity. Qed.

Lemma strip_fold_absorb l p u d :
  In p l ->
  (forall q, In q l -> q <> p -> diverge (path_parts q) (path_parts p) = true) ->
  (forall x, pop_key "sProof" (u x) = pop_key "sProof" x) ->
  fold_left (fun d p => mutate_at d p (pop_key "sProof")) l (mutate_at d p u)
  = fold_left (fun d p => mutate_at d p (pop_key "sProof")) l d.
Proof.
  intros Hin Hdiv Hu. revert d.
  induction l as [ | q l IH ]; simpl; intros d; [ contradiction | ].
  destruct (string_dec q p) as [-> | Hne].
  - rewrite mutate_at_twice.
    rewrite (mutate_at_at d p _ (pop_key "sProof")) by apply Hu. reflexivity.
  - destruct Hin as [-> | Hin]; [ contradiction | ].
    rewrite mutate_at_comm by (apply Hdiv; [ left; reflexivity | exact Hne ]).
    apply IH; [ exact Hin | ].
    intros q' Hq'. apply Hdiv. right. exact Hq'.
Qed.

Lemma strip_mutate_section vc p u :
  In p SECTION_PATHS ->
  (forall x, pop_key "sProof" (u x) = pop_key "sProof" x) ->
  _strip_existing_eip712 (mutate_at vc p u) = _strip_existing_eip712 vc.
Proof.
  intros Hp Hu. rewrite !strip_eq. f_equal.
  apply strip_fold_absorb; [ exact Hp | | exact Hu ].
  intros q Hq Hne. apply section_paths_diverge; assumption.
Qed.

Lemma strip_fold_root l F d :
  (forall q, In q l -> In q SECTION_PATHS) ->
  fold_left (fun d p => mutate_at d p (pop_key "sProof")) l
    (mutate_parts ["proof"] F d)
  = mutate_parts ["proof"] F
      (fold_left (fun d p => mutate_at d p (pop_key "sProof")) l d).
Proof.
  revert d. induction l as [ | q l IH ]; intros d Hl; [ reflexivity | ].
  cbn [fold_left].
  destruct (section_path_parts q (Hl q (or_introl eq_refl))) as [s Hs].
  assert (E : mutate_at (mutate_parts ["proof"] F d) q (pop_key "sProof")
              = mutate_parts ["proof"] F (mutate_at d q (pop_key "sProof"))).
  { unfold mutate_at. rewrite Hs. apply mutate_parts_comm. reflexivity. }
  rewrite E. apply IH. intros q' Hq'. apply Hl. right. exact Hq'.
Qed.

Lemma strip_mutate_root vc F :
  _strip_existing_eip712 (mutate_parts ["proof"] F vc)
  = _strip_existing_eip712 vc.
Proof.
  rewrite !strip_eq. rewrite strip_fold_root by (intros q Hq; exact Hq).
  destruct (fold_left _ SECTION_PATHS vc) as [ | | | | | m ]; try reflexivity.
  simpl. rewrite dict_pop_update_same. reflexivity.
Qed.

Lemma get_strip_fold l p d :
  NoDup l -> (forall q, In q l -> In q SECTION_PATHS) -> In p SECTION_PATHS ->
  _get_by_path
    (fold_left (fun d p => mutate_at d p (pop_key "sProof")) l d) p
  = if in_dec string_dec p l then pop_key "sProof" (_get_by_path d p)
    else _get_by_path d p.
Proof.
  intros Hnd Hl Hp. revert d.
  induction l as [ | q l IH ]; simpl; intros d; [ reflexivity | ].
  inversion Hnd as [ | ? ? Hq Hnd' ]; subst.
  rewrite IH by (try assumption; intros q' Hq'; apply Hl; right; exact Hq').
  destruct (string_dec q p) as [-> | Hne].
  - destruct (in_dec string_dec p l) as [Hin | _]; [ contradiction | ].
    apply get_mutate_same. left. reflexivity.
  - assert (Hd : diverge (path_parts p) (path_parts q) = true).
    { apply section_paths_diverge; [ exact Hp | apply Hl; left; reflexivity | ].
      intros E. apply Hne. symmetry. exact E. }
    rewrite get_mutate_other by exact Hd.
    destruct (in_dec string_dec p l); reflexivity.
Qed.

Lemma get_strip vc p :
  In p SECTION_PATHS ->
  _get_by_path (_strip_existing_eip712 vc) p
  = pop_key "sProof" (_get_by_path vc p).
Proof.
  intros Hp. rewrite strip_eq, get_pop_root by exact Hp.
  rewrite get_strip_fold;
    [ | apply SECTION_PATHS_NoDup | intros q Hq; exact Hq | exact Hp ].
  destruct (in_dec string_dec p SECTION_PATHS); [ reflexivity | contradiction ].
Qed.

Lemma is_dict_pop_key k v : is_dict (pop_key k v) = is_dict v.
Proof. destruct v; reflexivity. Qed.

Lemma present_strip vc p :
  In p SECTION_PATHS -> present (_strip_existing_eip712 vc) p = present vc p.
Proof.
  intros Hp. unfold present. rewrite get_strip by exact Hp.
  apply is_dict_pop_key.
Qed.

Lemma is_dict_strip vc : is_dict (_strip_existing_eip712 vc) = is_dict vc.
Proof.
  rewrite strip_eq, is_dict_pop_key.
  assert (H : forall l d, (forall q, In q l -> In q SECTION_PATHS) ->
            is_dict (fold_left (fun d p => mutate_at d p (pop_key "sProof")) l d)
            = is_dict d).
  { induction l as [ | q l IH ]; intros d Hl; [ reflexivity | ].
    cbn [fold_left].
    rewrite IH by (intros q' Hq'; apply Hl; right; exact Hq').
    apply is_dict_mutate_section. apply Hl. left. reflexivity. }
  apply H. intros q Hq. exact Hq.
Qed.

(** ** The issuer's updates *)

Lemma update_section_Returns m h sig :
  _update_section_proof (JObj m) h sig = Returns (signed_section h sig (JObj m)).
Proof.
  unfold signed_section, _update_section_proof. simpl.
  destruct (dict_get "sProof" m) as [ [ | | | | | proof ] | ]; reflexivity.
Qed.

Lemma signed_section_pop h sig x :
  pop_key "sProof" (signed_section h sig x) = pop_key "sProof" x.
Proof.
  unfold signed_section, _update_section_proof.
  destruct x as [ | | | | | m ]; try reflexivity. simpl.
  destruct (dict_get "sProof" m) as [ [ | | | | | proof ] | ]; try reflexivity.
  simpl. rewrite dict_pop_update_same. reflexivity.
Qed.

Lemma is_dict_signed_section h sig x :
  is_dict (signed_section h sig x) = is_dict x.
Proof.
  unfold signed_section, _update_section_proof.
  destruct x as [ | | | | | m ]; try reflexivity. simpl.
  destruct (dict_get "sProof" m) as [ [ | | | | | proof ] | ]; reflexivity.
Qed.

Lemma section_proof_signed h sig x :
  section_proof (signed_section h sig x)
  = seal_section h sig (section_proof x).
Proof.
  unfold signed_section, _update_section_proof, section_proof.
  destruct x as [ | | | | | m ]; try reflexivity. simpl.
  destruct (dict_get "sProof" m) as [ [ | | | | | proof ] | ] eqn:G; simpl;
    rewrite ?G; try reflexivity.
  rewrite dict_get_update_same, G. reflexivity.
Qed.

Lemma signed_section_field h sig x k :
  k <> "sProof" -> field k (signed_section h sig x) = field k x.
Proof.
  intros Hk. unfold signed_section, _update_section_proof.
  destruct x as [ | | | | | m ]; try reflexivity. simpl.
  destruct (dict_get "sProof" m) as [ [ | | | | | proof ] | ]; try reflexivity.
  simpl. rewrite dict_get_update_other by exact Hk. reflexivity.
Qed.

Lemma update_top_Returns m sig :
  _update_top_proof (JObj m) sig = Returns (signed_document sig (JObj m)).
Proof.
  unfold signed_document, _update_top_proof. simpl.
  destruct (dict_get "proof" m) as [ [ | | | | | proof ] | ]; reflexivity.
Qed.

Lemma update_top_Raises d sig :
  is_dict d = false -> _update_top_proof d sig = Raises AttributeError.
Proof. destruct d; simpl; intros H; try reflexivity; discriminate. Qed.

Lemma signed_document_eq sig d :
  signed_document sig d
  = mutate_parts ["proof"]
      (fun v => match v with
                | JObj proof => JObj (sealed_document_proof sig proof)
                | _ => v
                end) d.
Proof.
  unfold signed_document, _update_top_proof.
  destruct d as [ | | | | | m ]; try reflexivity. simpl.
  destruct (dict_get "proof" m) as [ [ | | | | | proof ] | ] eqn:G; simpl;
    try (f_equal; symmetry; apply dict_update_id; intros v Hv;
         rewrite G in Hv; try discriminate; injection Hv as <-; reflexivity).
  f_equal. apply dict_update_at. intros v Hv. rewrite G in Hv.
  injection Hv as <-. reflexivity.
Qed.

Lemma document_proof_signed sig d :
  document_proof (signed_document sig d)
  = seal_document sig (document_proof d).
Proof.
  unfold signed_document, _update_top_proof, document_proof.
  destruct d as [ | | | | | m ]; try reflexivity. simpl.
  destruct (dict_get "proof" m) as [ [ | | | | | proof ] | ] eqn:G; simpl;
    rewrite ?G; try reflexivity.
  rewrite dict_get_update_same, G. reflexivity.
Qed.

Lemma strip_signed_document sig d :
  _strip_existing_eip712 (signed_document sig d) = _strip_existing_eip712 d.
Proof. rewrite signed_document_eq. apply strip_mutate_root. Qed.

Lemma get_signed_document sig d p :
  In p SECTION_PATHS ->
  _get_by_path (signed_document sig d) p = _get_by_path d p.
Proof.
  intros Hp. rewrite signed_document_eq.
  destruct (section_path_parts p Hp) as [s Hs].
  unfold _get_by_path. rewrite Hs. apply walk_mutate_diverge. reflexivity.
Qed.

Section Issuance.

Context {R : Runtime}.

Lemma keccak256_json_eq data :
  keccak256_json data
  = if hashable data then Returns (keccak256_hex data)
    else Raises UnicodeEncodeError.
Proof.
  unfold keccak256_json, encode_utf8, hashable, keccak256_hex.
  destruct (has_surrogate (to_canonical_json data)); reflexivity.
Qed.

Lemma keccak256_json_Returns data h :
  keccak256_json data = Returns h <->
  hashable data = true /\ h = keccak256_hex data.
Proof.
  rewrite keccak256_json_eq. destruct (hashable data); split.
  - intros H. injection H as <-. split; reflexivity.
  - intros [_ ->]. reflexivity.
  - discriminate.
  - intros [H _]. discriminate.
Qed.

Lemma issue_section_eq domain clean d meta p priv :
  issue_section domain clean (d, meta) (p, priv)
  = if present d p then
      if hashable (section_content clean p) then
        match sign_typed_data priv
                (build_section_typed_data domain p (section_hash_of clean p))
        with
        | Returns (sig, _) =>
            Returns (mutate_at d p
                       (signed_section (section_hash_of clean p) sig),
                     meta ++ [section_record p (section_hash_of clean p)])
        | Raises e => Raises e
        end
      else Raises UnicodeEncodeError
    else Returns (d, meta).
Proof.
  unfold issue_section, present.
  destruct (_get_by_path d p) as [ | | | | | m ] eqn:E; try reflexivity.
  cbn [is_dict negb]. rewrite keccak256_json_eq.
  fold (section_content clean p).
  destruct (hashable (section_content clean p)); [ | reflexivity ].
  cbn [bind]. fold (section_hash_of clean p).
  destruct (sign_typed_data priv _) as [ [sig signer] | e ]; [ | reflexivity ].
  cbn [bind]. rewrite update_section_Returns. cbn [bind].
  f_equal. f_equal. apply mutate_at_at. rewrite E. reflexivity.
Qed.

End Issuance.

Section IssuanceLoop.

Context {R : Runtime}.

Lemma issue_eq vc keys_cfg verifying_contract :
  issue vc keys_cfg verifying_contract
  = (domain <- config_domain keys_cfg verifying_contract ;;
     priv_identity <- config_key keys_cfg "identity" ;;
     priv_compliance <- config_key keys_cfg "compliance" ;;
     priv_custody <- config_key keys_cfg "custody" ;;
     priv_document <- config_key keys_cfg "document" ;;
     issue_with domain priv_identity priv_compliance priv_custody
       priv_document vc).
Proof.
  unfold issue, config_domain, config_key, issue_with.
  destruct (py_get keys_cfg "domain" (JObj [])) as [domain_cfg | e];
    [ | reflexivity ]. cbn [bind].
  destruct (py_get domain_cfg "name" _) as [name_v | e]; [ | reflexivity ].
  cbn [bind].
  destruct (py_get domain_cfg "version" _) as [version_v | e];
    [ | reflexivity ]. cbn [bind].
  destruct (py_get domain_cfg "chainId" _) as [chainId_v | e];
    [ | reflexivity ]. cbn [bind].
  destruct (py_int chainId_v) as [chainId_i | e]; [ | reflexivity ].
  cbn [bind].
  destruct (py_get keys_cfg "keys" (JObj [])) as [keys | e];
    [ | reflexivity ]. cbn [bind].
  destruct (py_get keys "identity" JNull) as [k1 | e]; [ | reflexivity ].
  cbn [bind].
  destruct (py_get keys "compliance" JNull) as [k2 | e]; [ | reflexivity ].
  cbn [bind].
  destruct (py_get keys "custody" JNull) as [k3 | e]; [ | reflexivity ].
  cbn [bind].
  destruct (py_get keys "document" JNull) as [k4 | e]; reflexivity.
Qed.

Lemma present_mutate_other d p q f :
  In p SECTION_PATHS -> In q SECTION_PATHS -> q <> p ->
  present (mutate_at d p f) q = present d q.
Proof.
  intros Hp Hq Hne. unfold present.
  rewrite get_mutate_other by (apply section_paths_diverge; assumption).
  reflexivity.
Qed.

Lemma section_items_paths k1 k2 k3 :
  map fst (section_items k1 k2 k3) = SECTION_PATHS.
Proof. reflexivity. Qed.

(** What the section loop of [issue] leaves behind. *)
Lemma issue_sections_inv domain clean items :
  forall d meta d' meta',
    for_each (issue_section domain clean) items (d, meta)
    = Returns (d', meta') ->
    (forall p, In p (map fst items) -> In p SECTION_PATHS) ->
    NoDup (map fst items) ->
    _strip_existing_eip712 d' = _strip_existing_eip712 d
    /\ (forall k default, k <> "credentialSubject" ->
        py_get d' k default = py_get d k default)
    /\ is_dict d' = is_dict d
    /\ (forall p, In p SECTION_PATHS ->
        ~ In p (map fst items) \/ present d p = false ->
        _get_by_path d' p = _get_by_path d p)
    /\ (forall p priv, In (p, priv) items -> present d p = true ->
        exists sig signer,
          sign_typed_data priv
            (build_section_typed_data domain p (section_hash_of clean p))
          = Returns (sig, signer)
          /\ _get_by_path d' p
             = signed_section (section_hash_of clean p) sig (_get_by_path d p))
    /\ meta' = meta ++ map (fun p => section_record p (section_hash_of clean p))
                         (filter (present d) (map fst items)).
Proof.
  induction items as [ | [p priv] items IH ]; intros d meta d' meta' Hrun Hin Hnd.
  - cbn in Hrun. injection Hrun as <- <-. cbn.
    rewrite app_nil_r. repeat split; try reflexivity.
    intros p priv [].
  - cbn [for_each] in Hrun. rewrite issue_section_eq in Hrun.
    cbn [map fst] in Hin, Hnd |- *.
    assert (Hp : In p SECTION_PATHS) by (apply Hin; left; reflexivity).
    assert (Hin' : forall q, In q (map fst items) -> In q SECTION_PATHS)
      by (intros q Hq; apply Hin; right; exact Hq).
    inversion Hnd as [ | ? ? Hnotin Hnd' ]; subst.
    destruct (present d p) eqn:Hpres.
    + destruct (hashable (section_content clean p)); [ | discriminate ].
      destruct (sign_typed_data priv _) as [ [sig signer] | e ] eqn:Hsign;
        [ | discriminate ].
      cbn [bind] in Hrun.
      destruct (IH _ _ _ _ Hrun Hin' Hnd')
        as (Hstrip & Hget & Hdict & Hother & Hsigned & Hmeta).
      assert (Hfil : filter (present (mutate_at d p
                       (signed_section (section_hash_of clean p) sig)))
                       (map fst items)
                     = filter (present d) (map fst items)).
      { apply filter_ext_in. intros q Hq. apply present_mutate_other;
          [ exact Hp | apply Hin', Hq | ].
        intros ->. contradiction. }
      repeat split.
      * rewrite Hstrip. apply strip_mutate_section; [ exact Hp | ].
        intros x. apply signed_section_pop.
      * intros k default Hk. rewrite Hget by exact Hk.
        apply py_get_mutate_section; assumption.
      * rewrite Hdict. apply is_dict_mutate_section, Hp.
      * intros q Hq Hcase.
        assert (Hqp : q <> p).
        { destruct Hcase as [Hn | Hn].
          - intros ->. apply Hn. left. reflexivity.
          - intros ->. rewrite Hpres in Hn. discriminate. }
        rewrite Hother; [ | exact Hq | ].
        -- apply get_mutate_other, section_paths_diverge; assumption.
        -- destruct Hcase as [Hn | Hn].
           ++ left. intros Hq'. apply Hn. right. exact Hq'.
           ++ right. rewrite present_mutate_other by assumption. exact Hn.
      * intros q priv' [Heq | Hq] Hpq.
        -- injection Heq as <- <-. exists sig, signer. split; [ exact Hsign | ].
           rewrite Hother; [ | exact Hp | left; exact Hnotin ].
           apply get_mutate_same. right. unfold present in Hpres.
           intros E. rewrite E in Hpres. discriminate.
        -- assert (Hq' : In q (map fst items))
             by (apply in_map_iff; exists (q, priv'); split; [ reflexivity | exact Hq ]).
           assert (Hqp : q <> p) by (intros ->; contradiction).
           destruct (Hsigned q priv' Hq) as (sig' & signer' & Hs' & Hg').
           { rewrite present_mutate_other; [ exact Hpq | exact Hp | apply Hin', Hq' | exact Hqp ]. }
           exists sig', signer'. split; [ exact Hs' | ]. rewrite Hg'.
           rewrite get_mutate_other
             by (apply section_paths_diverge; [ apply Hin', Hq' | exact Hp | exact Hqp ]).
           reflexivity.
      * rewrite Hmeta. cbn [filter]. rewrite Hpres, Hfil. cbn [map].
        rewrite <- app_assoc. reflexivity.
    + destruct (IH _ _ _ _ Hrun Hin' Hnd')
        as (Hstrip & Hget & Hdict & Hother & Hsigned & Hmeta).
      repeat split; try assumption.
      * intros q Hq Hcase. apply Hother; [ exact Hq | ].
        destruct Hcase as [Hn | Hn]; [ left | right; exact Hn ].
        intros Hq'. apply Hn. right. exact Hq'.
      * intros q priv' [Heq | Hq] Hpq.
        -- injection Heq as <- <-. rewrite Hpres in Hpq. discriminate.
        -- apply Hsigned; assumption.
      * rewrite Hmeta. cbn [filter]. rewrite Hpres. reflexivity.
Qed.

(** The records, and whether the loop raises, depend on the working
    copy through its proof-free content alone. *)
Lemma issue_sections_rel domain clean items :
  forall d1 d2 meta,
    _strip_existing_eip712 d1 = _strip_existing_eip712 d2 ->
    (forall p, In p (map fst items) -> In p SECTION_PATHS) ->
    match for_each (issue_section domain clean) items (d1, meta),
          for_each (issue_section domain clean) items (d2, meta) with
    | Returns (d1', meta1), Returns (d2', meta2) =>
        meta1 = meta2
        /\ _strip_existing_eip712 d1' = _strip_existing_eip712 d2'
    | Raises e1, Raises e2 => e1 = e2
    | _, _ => False
    end.
Proof.
  induction items as [ | [p priv] items IH ]; intros d1 d2 meta Hs Hin.
  - cbn. split; [ reflexivity | exact Hs ].
  - cbn [for_each]. rewrite !issue_section_eq.
    cbn [map fst] in Hin.
    assert (Hp : In p SECTION_PATHS) by (apply Hin; left; reflexivity).
    assert (Hin' : forall q, In q (map fst items) -> In q SECTION_PATHS)
      by (intros q Hq; apply Hin; right; exact Hq).
    assert (Hpres : present d1 p = present d2 p).
    { rewrite <- (present_strip d1), <- (present_strip d2) by exact Hp.
      rewrite Hs. reflexivity. }
    rewrite Hpres. destruct (present d2 p).
    + destruct (hashable (section_content clean p)); [ | reflexivity ].
      destruct (sign_typed_data priv _) as [ [sig signer] | e ];
        [ | reflexivity ].
      cbn [bind]. apply IH; [ | exact Hin' ].
      rewrite !strip_mutate_section;
        try exact Hp; try (intros x; apply signed_section_pop). exact Hs.
    + cbn [bind]. apply IH; assumption.
Qed.

(** When the section loop returns, the content of every section that
    is present was hashed. *)
Lemma issue_sections_hashable domain clean items :
  forall d meta d' meta',
    for_each (issue_section domain clean) items (d, meta)
    = Returns (d', meta') ->
    (forall p, In p (map fst items) -> In p SECTION_PATHS) ->
    NoDup (map fst items) ->
    forall p priv, In (p, priv) items -> present d p = true ->
      hashable (section_content clean p) = true.
Proof.
  induction items as [ | [p priv] items IH ];
    intros d meta d' meta' Hrun Hin Hnd q priv' Hq Hpq; [ destruct Hq | ].
  cbn [for_each] in Hrun. rewrite issue_section_eq in Hrun.
  cbn [map fst] in Hin, Hnd.
  assert (Hp : In p SECTION_PATHS) by (apply Hin; left; reflexivity).
  assert (Hin' : forall q, In q (map fst items) -> In q SECTION_PATHS)
    by (intros q0 Hq0; apply Hin; right; exact Hq0).
  inversion Hnd as [ | ? ? Hnotin Hnd' ]; subst.
  destruct Hq as [Heq | Hq].
  - injection Heq as <- <-. rewrite Hpq in Hrun.
    destruct (hashable (section_content clean p)); [ reflexivity | discriminate ].
  - assert (Hq' : In q (map fst items))
      by (apply in_map_iff; exists (q, priv'); split;
          [ reflexivity | exact Hq ]).
    assert (Hqp : q <> p) by (intros ->; contradiction).
    destruct (present d p) eqn:Hpres.
    + destruct (hashable (section_content clean p)); [ | discriminate ].
      destruct (sign_typed_data priv _) as [ [sig signer] | e ];
        [ | discriminate ].
      cbn [bind] in Hrun.
      apply (IH _ _ _ _ Hrun Hin' Hnd' q priv' Hq).
      rewrite present_mutate_other;
        [ exact Hpq | exact Hp | apply Hin', Hq' | exact Hqp ].
    + cbn [bind] in Hrun. apply (IH _ _ _ _ Hrun Hin' Hnd' q priv' Hq Hpq).
Qed.

End IssuanceLoop.

Section IssuanceResult.

Context {R : Runtime}.

(** Everything that a successful [issue] determines. *)
Lemma issue_Returns_inv vc keys_cfg verifying_contract issued meta :
  issue vc keys_cfg verifying_contract = Returns (issued, meta) ->
  exists domain k1 k2 k3 k4 d3 sig_doc signer_doc,
    config_domain keys_cfg verifying_contract = Returns domain
    /\ config_key keys_cfg "identity" = Returns k1
    /\ config_key keys_cfg "compliance" = Returns k2
    /\ config_key keys_cfg "custody" = Returns k3
    /\ config_key keys_cfg "document" = Returns k4
    /\ is_dict vc = true
    /\ _strip_existing_eip712 d3 = _strip_existing_eip712 vc
    /\ document_proof d3 = document_proof vc
    /\ (forall p, In p SECTION_PATHS -> present vc p = false ->
        _get_by_path d3 p = _get_by_path vc p)
    /\ (forall p priv, In (p, priv) (section_items k1 k2 k3) ->
        present vc p = true ->
        exists sig signer,
          sign_typed_data priv
            (build_section_typed_data domain p
               (section_hash_of (_strip_existing_eip712 vc) p))
          = Returns (sig, signer)
          /\ _get_by_path d3 p
             = signed_section
                 (section_hash_of (_strip_existing_eip712 vc) p) sig
                 (_get_by_path vc p))
    /\ sign_typed_data k4
         (build_document_typed_data domain
            (keccak256_hex (_strip_existing_eip712 vc)))
       = Returns (sig_doc, signer_doc)
    /\ issued = signed_document sig_doc d3
    /\ meta = map (fun p => section_record p
                     (section_hash_of (_strip_existing_eip712 vc) p))
                (filter (present vc) SECTION_PATHS)
              ++ [document_record
                    (keccak256_hex (_strip_existing_eip712 vc))].
Proof.
  rewrite issue_eq. intros H.
  apply bind_Returns in H as (domain & Hdom & H).
  apply bind_Returns in H as (k1 & Hk1 & H).
  apply bind_Returns in H as (k2 & Hk2 & H).
  apply bind_Returns in H as (k3 & Hk3 & H).
  apply bind_Returns in H as (k4 & Hk4 & H).
  unfold issue_with in H.
  apply bind_Returns in H as ([d3 meta3] & Hloop & H).
  cbn beta iota zeta in H.
  apply bind_Returns in H as (h & Hh & H).
  apply keccak256_json_Returns in Hh as [_ ->].
  apply bind_Returns in H as ([sig_doc signer_doc] & Hsign & H).
  cbn beta iota zeta in H.
  apply bind_Returns in H as (issued0 & Htop & H).
  injection H as <- <-.
  destruct (issue_sections_inv _ _ _ _ _ _ _ Hloop)
    as (Hstrip & Hget & Hdict & Hother & Hsigned & Hmeta).
  { intros p Hp. exact Hp. }
  { apply SECTION_PATHS_NoDup. }
  assert (Hvc : is_dict vc = true).
  { rewrite <- Hdict. destruct d3; try discriminate. reflexivity. }
  rewrite Hstrip in Hsign.
  exists domain, k1, k2, k3, k4, d3, sig_doc, signer_doc.
  repeat split; try assumption.
  - unfold document_proof. rewrite Hget by discriminate. reflexivity.
  - intros p Hp Hpres. apply Hother; [ exact Hp | right; exact Hpres ].
  - destruct d3 as [ | | | | | m ]; try discriminate.
    rewrite update_top_Returns in Htop. injection Htop as <-. reflexivity.
  - rewrite Hmeta, Hstrip. reflexivity.
Qed.

(** When [issue] returns, everything that it hashes could be hashed:
    the proof-free document and the content of every section that is
    present. *)
Lemma issue_Returns_hashable vc keys_cfg verifying_contract issued meta :
  issue vc keys_cfg verifying_contract = Returns (issued, meta) ->
  hashable (_strip_existing_eip712 vc) = true
  /\ forall p, In p SECTION_PATHS -> present vc p = true ->
       hashable (section_content (_strip_existing_eip712 vc) p) = true.
Proof.
  rewrite issue_eq. intros H.
  apply bind_Returns in H as (domain & Hdom & H).
  apply bind_Returns in H as (k1 & Hk1 & H).
  apply bind_Returns in H as (k2 & Hk2 & H).
  apply bind_Returns in H as (k3 & Hk3 & H).
  apply bind_Returns in H as (k4 & Hk4 & H).
  unfold issue_with in H.
  apply bind_Returns in H as ([d3 meta3] & Hloop & H).
  cbn beta iota zeta in H.
  apply bind_Returns in H as (h & Hh & _).
  apply keccak256_json_Returns in Hh as [Hhash _].
  destruct (issue_sections_inv _ _ _ _ _ _ _ Hloop (fun p Hp => Hp)
              SECTION_PATHS_NoDup) as (Hstrip & _).
  rewrite Hstrip in Hhash. split; [ exact Hhash | ].
  intros p Hp Hpres.
  assert (Hitem : exists priv, In (p, priv) (section_items k1 k2 k3))
    by (destruct Hp as [<- | [<- | [<- | []]]]; eexists; simpl; eauto).
  destruct Hitem as [priv Hin].
  apply (issue_sections_hashable _ _ _ _ _ _ _ Hloop (fun q Hq => Hq)
           SECTION_PATHS_NoDup p priv Hin Hpres).
Qed.

Lemma issue_records_rel vc1 vc2 keys_cfg verifying_contract :
  _strip_existing_eip712 vc1 = _strip_existing_eip712 vc2 ->
  records_of (issue vc1 keys_cfg verifying_contract)
  = records_of (issue vc2 keys_cfg verifying_contract).
Proof.
  intros Hs. rewrite !issue_eq.
  destruct (config_domain keys_cfg verifying_contract) as [domain | e];
    [ | reflexivity ]. cbn [bind].
  destruct (config_key keys_cfg "identity") as [k1 | e]; [ | reflexivity ].
  cbn [bind].
  destruct (config_key keys_cfg "compliance") as [k2 | e]; [ | reflexivity ].
  cbn [bind].
  destruct (config_key keys_cfg "custody") as [k3 | e]; [ | reflexivity ].
  cbn [bind].
  destruct (config_key keys_cfg "document") as [k4 | e]; [ | reflexivity ].
  cbn [bind]. unfold issue_with. rewrite Hs.
  pose proof (issue_sections_rel domain (_strip_existing_eip712 vc2)
                (section_items k1 k2 k3) vc1 vc2 [] Hs
                (fun p Hp => Hp)) as Hrel.
  destruct (for_each _ _ (vc1, [])) as [ [d1 meta1] | e1 ];
    destruct (for_each _ _ (vc2, [])) as [ [d2 meta2] | e2 ];
    try contradiction.
  - destruct Hrel as [-> Hs']. cbn [bind]. cbn beta iota zeta.
    rewrite Hs'.
    destruct (keccak256_json (_strip_existing_eip712 d2)) as [h | e];
      [ | reflexivity ]. cbn [bind].
    destruct (sign_typed_data k4 _) as [ [sig signer] | e ]; [ | reflexivity ].
    cbn [bind]. cbn beta iota zeta.
    assert (Hd : is_dict d1 = is_dict d2).
    { rewrite <- (is_dict_strip d1), <- (is_dict_strip d2), Hs'. reflexivity. }
    destruct d1 as [ | | | | | m1 ]; destruct d2 as [ | | | | | m2 ];
      try discriminate; try reflexivity.
    rewrite !update_top_Returns. reflexivity.
  - subst e2. reflexivity.
Qed.

Lemma strip_issued vc keys_cfg verifying_contract issued meta :
  issue vc keys_cfg verifying_contract = Returns (issued, meta) ->
  _strip_existing_eip712 issued = _strip_existing_eip712 vc.
Proof.
  intros H. apply issue_Returns_inv in H
    as (domain & k1 & k2 & k3 & k4 & d3 & sig_doc & signer_doc & H).
  destruct H as (_ & _ & _ & _ & _ & _ & Hs & _ & _ & _ & _ & -> & _).
  rewrite strip_signed_document. exact Hs.
Qed.

End IssuanceResult.

(** ** The fake signer is a runtime *)

Lemma cut_at_bar_app k m :
  Fake.has_bar k = false ->
  Fake.cut_at_bar (k ++ String "|" m) = Some (k, m).
Proof.
  induction k as [ | c k IH ]; simpl; intros H; [ reflexivity | ].
  apply orb_false_iff in H as [Hc Hk]. rewrite Hc, (IH Hk). reflexivity.
Qed.

Lemma Fake_from_key k acct :
  Fake.from_key k = Some acct ->
  Fake.has_bar (account_key acct) = false
  /\ account_address acct = Fake.address (account_key acct).
Proof.
  destruct k as [ | | | s | | ]; simpl; try discriminate.
  destruct (s =? EmptyString); simpl; [ discriminate | ].
  destruct (Fake.has_bar s) eqn:Hb; [ discriminate | ].
  intros H. injection H as <-. simpl. split; [ exact Hb | reflexivity ].
Qed.

Lemma Fake_laws : RuntimeLaws Fake.runtime.
Proof.
  split.
  - intros k acct m Hk. apply Fake_from_key in Hk as [Hb Ha].
    simpl. unfold Fake.recover. rewrite cut_at_bar_app by exact Hb.
    rewrite String.eqb_refl, Ha. reflexivity.
  - reflexivity.
  - reflexivity.
Qed.

Lemma Fake_binding : Binding Fake.runtime.
Proof.
  intros k acct m m' Hk. apply Fake_from_key in Hk as [Hb Ha].
  simpl. unfold Fake.recover. rewrite cut_at_bar_app by exact Hb.
  destruct (String.eqb_spec m m') as [-> | Hne]; [ reflexivity | ].
  rewrite Ha. unfold Fake.address. simpl. discriminate.
Qed.

(** ** Issuance: the claims *)

Section IssuanceClaims.

Context {R : Runtime}.

(** C9.  [issue] signs the Document message with the key configured
    for the document role whatever the root of the credential looks
    like.  Once the configuration is read, the sections are done and
    the proof-free document is hashed, the outcome of [issue] is the
    outcome of that signature: an exception of [sign_typed_data] is
    the exception of [issue] (a [SigningError] when the key is refused
    by [Account.from_key], as a missing key is), with or without a
    root proof object and even when the credential is no dict; when
    the key signs, [issue] returns for every credential that is a
    dict, the proof records ending with the entry for ["/"] that
    carries the hash, and nothing being written where there is no root
    proof object.  Whatever the credential, a refused or missing
    document key makes [issue] raise, and whenever [issue] returns the
    Document message over the hash of the proof-free document has been
    signed with the document key and the records end with the entry
    for ["/"]. *)
Theorem issue_always_signs_document
  (laws : RuntimeLaws R) (vc keys_cfg verifying_contract : json) :
  (forall domain k1 k2 k3 k4 d3 meta3,
      config_domain keys_cfg verifying_contract = Returns domain ->
      config_key keys_cfg "identity" = Returns k1 ->
      config_key keys_cfg "compliance" = Returns k2 ->
      config_key keys_cfg "custody" = Returns k3 ->
      config_key keys_cfg "document" = Returns k4 ->
      for_each (issue_section domain (_strip_existing_eip712 vc))
        (section_items k1 k2 k3) (vc, []) = Returns (d3, meta3) ->
      keccak256_json (_strip_existing_eip712 vc)
      = Returns (keccak256_hex (_strip_existing_eip712 vc)) ->
      (forall e,
          sign_typed_data k4
            (build_document_typed_data domain
               (keccak256_hex (_strip_existing_eip712 vc))) = Raises e ->
          issue vc keys_cfg verifying_contract = Raises e)
      /\ (Account_from_key k4 = None ->
          issue vc keys_cfg verifying_contract = Raises SigningError)
      /\ (k4 = JNull ->
          issue vc keys_cfg verifying_contract = Raises SigningError)
      /\ (forall sig signer,
          sign_typed_data k4
            (build_document_typed_data domain
               (keccak256_hex (_strip_existing_eip712 vc)))
          = Returns (sig, signer) ->
          (is_dict vc = true ->
           issue vc keys_cfg verifying_contract
           = Returns (signed_document sig d3,
                      meta3 ++
                      [JObj [("path", JStr "/");
                             ("documentHash",
                              JStr (keccak256_hex
                                      (_strip_existing_eip712 vc)))]]))
          /\ (is_dict (document_proof vc) = false ->
              signed_document sig d3 = d3)
          /\ (is_dict vc = false ->
              issue vc keys_cfg verifying_contract = Raises AttributeError)))
  /\ (forall priv,
      config_key keys_cfg "document" = Returns priv ->
      Account_from_key priv = None ->
      exists e, issue vc keys_cfg verifying_contract = Raises e)
  /\ (config_key keys_cfg "document" = Returns JNull ->
      exists e, issue vc keys_cfg verifying_contract = Raises e)
  /\ (forall issued meta,
      issue vc keys_cfg verifying_contract = Returns (issued, meta) ->
      exists priv domain sig signer meta0,
        config_key keys_cfg "document" = Returns priv
        /\ config_domain keys_cfg verifying_contract = Returns domain
        /\ sign_typed_data priv
             (build_document_typed_data domain
                (keccak256_hex (_strip_existing_eip712 vc)))
           = Returns (sig, signer)
        /\ meta = meta0 ++
                  [JObj [("path", JStr "/");
                         ("documentHash",
                          JStr (keccak256_hex (_strip_existing_eip712 vc)))]]).
Proof.
  assert (Hbad : forall priv,
             config_key keys_cfg "document" = Returns priv ->
             Account_from_key priv = None ->
             exists e, issue vc keys_cfg verifying_contract = Raises e).
  { intros priv Hk Hnone. rewrite issue_eq.
    destruct (config_domain keys_cfg verifying_contract) as [domain | e];
      [ | eexists; reflexivity ]. cbn [bind].
    destruct (config_key keys_cfg "identity") as [k1 | e];
      [ | eexists; reflexivity ]. cbn [bind].
    destruct (config_key keys_cfg "compliance") as [k2 | e];
      [ | eexists; reflexivity ]. cbn [bind].
    destruct (config_key keys_cfg "custody") as [k3 | e];
      [ | eexists; reflexivity ]. cbn [bind].
    rewrite Hk. cbn [bind]. unfold issue_with.
    destruct (for_each _ _ _) as [ [d3 meta3] | e ];
      [ | eexists; reflexivity ]. cbn [bind]. cbn beta iota zeta.
    destruct (keccak256_json _) as [h | e]; [ | eexists; reflexivity ].
    cbn [bind].
    unfold sign_typed_data. rewrite Hnone. eexists. reflexivity. }
  split; [ | split; [ exact Hbad | split ] ].
  - intros domain k1 k2 k3 k4 d3 meta3 Hdom Hk1 Hk2 Hk3 Hk4 Hloop Hhash.
    destruct (issue_sections_inv _ _ _ _ _ _ _ Hloop (fun p Hp => Hp)
                SECTION_PATHS_NoDup) as (Hstrip & Hget & Hdict & _).
    assert (Hstep : issue vc keys_cfg verifying_contract
                    = ('(sig_doc, signer_doc) <-
                         sign_typed_data k4
                           (build_document_typed_data domain
                              (keccak256_hex (_strip_existing_eip712 vc))) ;;
                       issued <- _update_top_proof d3 sig_doc ;;
                       Returns (issued,
                                meta3 ++
                                [document_record
                                   (keccak256_hex
                                      (_strip_existing_eip712 vc))]))).
    { rewrite issue_eq, Hdom, Hk1, Hk2, Hk3, Hk4. cbn [bind].
      unfold issue_with. rewrite Hloop. cbn [bind]. cbn beta iota zeta.
      rewrite Hstrip, Hhash. reflexivity. }
    assert (Hnone : Account_from_key k4 = None ->
                    issue vc keys_cfg verifying_contract = Raises SigningError).
    { intros Hk. rewrite Hstep. unfold sign_typed_data. rewrite Hk.
      reflexivity. }
    split; [ | split; [ exact Hnone | split ] ].
    + intros e He. rewrite Hstep, He. reflexivity.
    + intros ->. apply Hnone, (from_key_None R laws).
    + intros sig signer Hs. rewrite Hstep, Hs. cbn [bind]. cbn beta iota zeta.
      split; [ | split ].
      * intros Hvc. rewrite <- Hdict in Hvc.
        destruct d3 as [ | | | | | m ]; try discriminate.
        rewrite update_top_Returns. reflexivity.
      * intros Hnp.
        assert (Hnp3 : is_dict (document_proof d3) = false).
        { unfold document_proof in *. rewrite Hget by discriminate.
          exact Hnp. }
        unfold signed_document, _update_top_proof, document_proof in *.
        destruct d3 as [ | | | | | m ]; try reflexivity.
        cbn [py_get bind] in *.
        destruct (match dict_get "proof" m with Some x => x | None => JNull end);
          try reflexivity. discriminate.
      * intros Hvc. rewrite <- Hdict in Hvc.
        rewrite update_top_Raises by exact Hvc. reflexivity.
  - intros Hk. apply (Hbad JNull Hk). apply (from_key_None R laws).
  - intros issued meta H. apply issue_Returns_inv in H
      as (domain & k1 & k2 & k3 & k4 & d3 & sig_doc & signer_doc & H).
    destruct H as (Hdom & _ & _ & _ & Hk4 & _ & _ & _ & _ & _ & Hsign & _ & Hmeta).
    exists k4, domain, sig_doc, signer_doc. eexists.
    repeat split; try eassumption.
Qed.

(** C6.  Issuing an issued credential again gives the proof records
    of the first issuance: the same [sectionHash] for every section
    and the same [documentHash]. *)
Theorem reissue_same_hashes (vc keys_cfg verifying_contract issued : json)
  (meta : list json) :
  issue vc keys_cfg verifying_contract = Returns (issued, meta) ->
  exists issued',
    issue issued keys_cfg verifying_contract = Returns (issued', meta).
Proof.
  intros H.
  pose proof (strip_issued _ _ _ _ _ H) as Hs.
  pose proof (issue_records_rel issued vc keys_cfg verifying_contract Hs) as Hr.
  rewrite H in Hr. cbn [records_of] in Hr.
  destruct (issue issued keys_cfg verifying_contract) as [ [issued' meta'] | e ];
    cbn [records_of] in Hr; [ | discriminate ].
  injection Hr as ->. exists issued'. reflexivity.
Qed.

End IssuanceClaims.

(** ** Proof objects before and after issuance *)

Lemma keys_of_seal_section h sig a : keys_of (seal_section h sig a) = keys_of a.
Proof.
  destruct a as [ | | | | | proof ]; try reflexivity. simpl.
  unfold sealed_section_proof, set_if_present.
  rewrite !dict_update_keys. reflexivity.
Qed.

Lemma field_seal_section h sig a k :
  k <> "type" -> k <> "sectionHash" -> k <> "proofValue" ->
  field k (seal_section h sig a) = field k a.
Proof.
  intros H1 H2 H3. destruct a as [ | | | | | proof ]; try reflexivity. simpl.
  unfold sealed_section_proof, set_if_present.
  rewrite !dict_get_update_other by assumption. reflexivity.
Qed.

Lemma keys_of_seal_document sig a : keys_of (seal_document sig a) = keys_of a.
Proof.
  destruct a as [ | | | | | proof ]; try reflexivity. simpl.
  unfold sealed_document_proof, set_if_present.
  rewrite !dict_update_keys. reflexivity.
Qed.

Lemma field_seal_document sig a k :
  k <> "type" -> k <> "proofValue" ->
  field k (seal_document sig a) = field k a.
Proof.
  intros H1 H2. destruct a as [ | | | | | proof ]; try reflexivity. simpl.
  unfold sealed_document_proof, set_if_present.
  rewrite !dict_get_update_other by assumption. reflexivity.
Qed.

Lemma section_items_In k1 k2 k3 p :
  In p SECTION_PATHS -> exists priv, In (p, priv) (section_items k1 k2 k3).
Proof.
  intros [<- | [<- | [<- | []]]]; eexists; simpl; eauto.
Qed.




Section SchemaClaims.

Context {R : Runtime}.

Lemma issued_section_proof vc keys_cfg verifying_contract issued meta p :
  issue vc keys_cfg verifying_contract = Returns (issued, meta) ->
  In p SECTION_PATHS ->
  exists h sig,
    section_proof (_get_by_path issued p)
    = seal_section h sig (section_proof (_get_by_path vc p)).
Proof.
  intros H Hp. apply issue_Returns_inv in H
    as (domain & k1 & k2 & k3 & k4 & d3 & sig_doc & signer_doc & H).
  destruct H as (_ & _ & _ & _ & _ & _ & _ & _ & Habsent & Hsigned & _ & -> & _).
  rewrite get_signed_document by exact Hp.
  destruct (present vc p) eqn:Hpres.
  - destruct (section_items_In k1 k2 k3 p Hp) as [priv Hin].
    destruct (Hsigned p priv Hin Hpres) as (sig & signer & _ & ->).
    exists (section_hash_of (_strip_existing_eip712 vc) p), sig.
    rewrite section_proof_signed. reflexivity.
  - rewrite Habsent by assumption. exists EmptyString, EmptyString.
    unfold present in Hpres. unfold section_proof.
    destruct (_get_by_path vc p); try reflexivity. discriminate.
Qed.

Lemma issued_document_proof vc keys_cfg verifying_contract issued meta :
  issue vc keys_cfg verifying_contract = Returns (issued, meta) ->
  exists priv domain sig signer,
    config_key keys_cfg "document" = Returns priv
    /\ config_domain keys_cfg verifying_contract = Returns domain
    /\ sign_typed_data priv
         (build_document_typed_data domain
            (keccak256_hex (_strip_existing_eip712 vc)))
       = Returns (sig, signer)
    /\ document_proof issued = seal_document sig (document_proof vc).
Proof.
  intros H. apply issue_Returns_inv in H
    as (domain & k1 & k2 & k3 & k4 & d3 & sig_doc & signer_doc & H).
  destruct H as (Hdom & _ & _ & _ & Hk4 & _ & _ & Hproof & _ & _ & Hsign & -> & _).
  exists k4, domain, sig_doc, signer_doc. repeat split; try assumption.
  rewrite document_proof_signed, Hproof. reflexivity.
Qed.

(** C5.  Issuance adds no key to a proof object: in the issued
    credential the [sProof] of every section and the root [proof] have
    the keys of the input's, in the same order; a value that is no
    object stays what it was; and a key other than [type],
    [sectionHash] and [proofValue] ([type] and [proofValue] at the
    root) keeps its value.  Outside the proof objects the credential
    is unchanged. *)
Theorem issue_preserves_proof_schema
  (vc keys_cfg verifying_contract issued : json) (meta : list json) :
  issue vc keys_cfg verifying_contract = Returns (issued, meta) ->
  (forall p, In p SECTION_PATHS ->
     let a := section_proof (_get_by_path vc p) in
     let b := section_proof (_get_by_path issued p) in
     keys_of b = keys_of a
     /\ (is_dict a = false -> b = a)
     /\ (forall k, k <> "type" -> k <> "sectionHash" -> k <> "proofValue" ->
         field k b = field k a))
  /\ (let a := document_proof vc in
      let b := document_proof issued in
      keys_of b = keys_of a
      /\ (is_dict a = false -> b = a)
      /\ (forall k, k <> "type" -> k <> "proofValue" ->
          field k b = field k a))
  /\ _strip_existing_eip712 issued = _strip_existing_eip712 vc.
Proof.
  intros H. split; [ | split ].
  - intros p Hp a b.
    destruct (issued_section_proof _ _ _ _ _ p H Hp) as (h & sig & Hb).
    subst a b. rewrite Hb. split; [ apply keys_of_seal_section | split ].
    + destruct (section_proof (_get_by_path vc p)); try reflexivity.
      discriminate.
    + intros k H1 H2 H3. apply field_seal_section; assumption.
  - intros a b.
    destruct (issued_document_proof _ _ _ _ _ H)
      as (priv & domain & sig & signer & _ & _ & _ & Hb).
    subst a b. rewrite Hb. split; [ apply keys_of_seal_document | split ].
    + destruct (document_proof vc); try reflexivity. discriminate.
    + intros k H1 H2. apply field_seal_document; assumption.
  - apply (strip_issued _ _ _ _ _ H).
Qed.


End SchemaClaims.

(** ** Verification, step by step *)

Section Verification.

Context {R : Runtime}.

Lemma usable_expected_get e k :
  usable_expected e = true ->
  py_get (py_or e (JObj [])) k JNull = Returns (field k (py_or e (JObj []))).
Proof.
  unfold usable_expected. destruct (py_or e (JObj [])); try discriminate.
  reflexivity.
Qed.

Lemma role_for_section_path p :
  In p SECTION_PATHS ->
  exists r, _role_for_path p = JStr r /\ truthy (JStr r) = true
            /\ In r ["identity"; "compliance"; "custody"].
Proof.
  intros [<- | [<- | [<- | []]]]; eexists; vm_compute; intuition.
Qed.

(** The loop body on a section that is absent. *)
Lemma verify_section_absent vc clean e results p :
  present vc p = false ->
  verify_section vc clean e results p = Returns results.
Proof.
  unfold verify_section, present. intros ->. reflexivity.
Qed.

(** The loop body on a section without a proof object. *)
Lemma verify_section_missing vc clean e results p :
  present vc p = true ->
  is_dict (section_proof (_get_by_path vc p)) = false ->
  verify_section vc clean e results p
  = Returns (results ++ [missing_entry p "missing sProof"]).
Proof.
  unfold verify_section, present, section_proof. intros Hpres H.
  rewrite Hpres. cbn [negb].
  destruct (_get_by_path vc p) as [ | | | | | m ]; try discriminate.
  cbn [py_get bind] in *. rewrite H. reflexivity.
Qed.

(** The loop body on a section with a proof object. *)
Lemma verify_section_proof_gen vc e results p proof :
  In p SECTION_PATHS ->
  present vc p = true ->
  section_proof (_get_by_path vc p) = JObj proof ->
  verify_section vc (_strip_eip712 vc) e results p
  = (recovered <- recover_section vc p (JObj proof) ;;
     expected_from_keys <-
       py_get (py_or e (JObj [])) (py_str (_role_for_path p)) JNull ;;
     Returns (results ++
              [section_entry p (section_hash_of (_strip_eip712 vc) p)
                 recovered (JObj proof) e])).
Proof.
  intros Hp Hpres Hproof.
  destruct (role_for_section_path p Hp) as (r & Hr & Hrt & _).
  unfold verify_section, present, section_proof, recover_section in *.
  rewrite Hpres. cbn [negb].
  destruct (_get_by_path vc p) as [ | | | | | m ]; try discriminate.
  cbn [py_get bind] in *. rewrite Hproof. cbn [is_dict negb].
  fold (section_content (_strip_eip712 vc) p).
  rewrite keccak256_json_eq.
  destruct (hashable (section_content (_strip_eip712 vc) p));
    [ | reflexivity ]. cbn [bind].
  fold (section_hash_of (_strip_eip712 vc) p).
  destruct (proof_domain (JObj proof)) as [domain | err]; [ | reflexivity ].
  cbn [bind]. cbn [py_get bind].
  change (match dict_get "proofValue" proof with
          | Some x => x
          | None => JStr EmptyString
          end) with (proof_value (JObj proof)).
  destruct (recover_typed_data_signer _ _) as [recovered | err];
    [ | reflexivity ].
  cbn [bind]. unfold section_entry, expected_signer_of, addr_ok_of.
  rewrite Hr, Hrt.
  destruct (py_or e (JObj [])) as [ | | | | | em ]; try reflexivity.
Qed.

Lemma verify_section_proof vc e results p proof :
  In p SECTION_PATHS ->
  present vc p = true ->
  section_proof (_get_by_path vc p) = JObj proof ->
  usable_expected e = true ->
  verify_section vc (_strip_eip712 vc) e results p
  = (recovered <- recover_section vc p (JObj proof) ;;
     Returns (results ++
              [section_entry p (section_hash_of (_strip_eip712 vc) p)
                 recovered (JObj proof) e])).
Proof.
  intros Hp Hpres Hproof He.
  rewrite (verify_section_proof_gen vc e results p proof) by assumption.
  rewrite usable_expected_get by exact He. reflexivity.
Qed.

(** The body of the loop only appends. *)
Lemma verify_section_app vc clean e results p :
  verify_section vc clean e results p
  = (r <- verify_section vc clean e [] p ;; Returns (results ++ r)).
Proof.
  unfold verify_section.
  destruct (negb (is_dict (_get_by_path vc p)));
    [ cbn; rewrite app_nil_r; reflexivity | ].
  destruct (py_get (_get_by_path vc p) "sProof" JNull) as [proof | err];
    [ | reflexivity ]. cbn [bind].
  destruct (negb (is_dict proof)); [ reflexivity | ].
  destruct (keccak256_json _) as [hc | err]; [ | reflexivity ]. cbn [bind].
  destruct (proof_domain proof) as [domain | err]; [ | reflexivity ].
  cbn [bind].
  destruct (py_get proof "proofValue" _) as [sig | err]; [ | reflexivity ].
  cbn [bind].
  destruct (recover_typed_data_signer _ _) as [rec | err]; [ | reflexivity ].
  cbn [bind].
  destruct (py_get proof "sectionHash" JNull) as [h | err]; [ | reflexivity ].
  cbn [bind].
  destruct (if truthy (_role_for_path p) then _ else _) as [x | err];
    [ | reflexivity ]. cbn [bind].
  destruct (py_get proof "signer" JNull) as [s | err]; [ | reflexivity ].
  cbn [bind].
  destruct (py_get proof "type" JNull) as [t | err]; reflexivity.
Qed.

(** The section loop: the results are those of the sections, in the
    order of the paths. *)
Lemma for_each_verify vc clean e l :
  forall results rs,
    for_each (verify_section vc clean e) l results = Returns rs <->
    exists parts,
      Forall2 (fun p r => verify_section vc clean e [] p = Returns r) l parts
      /\ rs = results ++ List.concat parts.
Proof.
  induction l as [ | p l IH ]; intros results rs; cbn [for_each].
  - split.
    + intros H. injection H as <-. exists []. split; [ constructor | ].
      cbn. rewrite app_nil_r. reflexivity.
    + intros (parts & HF & ->). inversion HF; subst. cbn.
      rewrite app_nil_r. reflexivity.
  - rewrite verify_section_app. split.
    + intros H. apply bind_Returns in H as (rs1 & H1 & H).
      apply bind_Returns in H1 as (r & Hr & H1). injection H1 as <-.
      apply IH in H as (parts & HF & ->).
      exists (r :: parts). split; [ constructor; assumption | ].
      cbn. rewrite app_assoc. reflexivity.
    + intros (parts & HF & ->). inversion HF as [ | ? r ? parts' Hr HF' ]; subst.
      rewrite Hr. cbn [bind]. apply IH. exists parts'.
      split; [ exact HF' | ]. cbn. rewrite app_assoc. reflexivity.
Qed.

(** The document step of [verify]. *)
Lemma verify_eq vc e :
  verify vc e
  = (results <-
       for_each (verify_section vc (_strip_eip712 vc) e) SECTION_PATHS [] ;;
     proof_doc <- py_get vc "proof" JNull ;;
     if negb (is_dict proof_doc)
     then Returns (results ++ [missing_entry "/" "missing proof"])
     else
       recovered <- recover_document vc proof_doc ;;
       expected_doc <- py_get (py_or e (JObj [])) "document" JNull ;;
       Returns (results ++ [document_entry recovered proof_doc e])).
Proof.
  unfold verify.
  destruct (for_each _ SECTION_PATHS []) as [results | err]; [ | reflexivity ].
  cbn [bind].
  destruct (py_get vc "proof" JNull) as [proof_doc | err]; [ | reflexivity ].
  cbn [bind].
  destruct proof_doc as [ | | | | | proof ]; try reflexivity.
  cbn [is_dict negb]. unfold recover_document.
  destruct (keccak256_json (_strip_eip712 vc)) as [hc | err];
    [ | reflexivity ]. cbn [bind].
  destruct (proof_domain (JObj proof)) as [domain | err]; [ | reflexivity ].
  cbn [bind]. cbn [py_get bind].
  change (match dict_get "proofValue" proof with
          | Some x => x
          | None => JStr EmptyString
          end) with (proof_value (JObj proof)).
  destruct (recover_typed_data_signer _ _) as [recovered | err];
    [ | reflexivity ].
  cbn [bind].
  destruct (py_or e (JObj [])) as [ | | | | | em ] eqn:He; try reflexivity.
  cbn [py_get bind]. unfold document_entry, expected_signer_of.
  rewrite He. cbn [truthy py_str field]. reflexivity.
Qed.

End Verification.

Lemma Forall2_In_l {A B : Type} (P : A -> B -> Prop) l l' a :
  Forall2 P l l' -> In a l -> exists b, In b l' /\ P a b.
Proof.
  induction 1 as [ | x y l l' Hxy _ IH ]; intros Hin; [ contradiction | ].
  destruct Hin as [-> | Hin].
  - exists y. split; [ left; reflexivity | exact Hxy ].
  - destruct (IH Hin) as (b & Hb & Pb). exists b. split; [ right | ]; assumption.
Qed.

Lemma eq_str_true s v : eq_str s v = true <-> v = JStr s.
Proof.
  destruct v as [ | | | s' | | ]; simpl; split; intros H; try discriminate.
  - apply String.eqb_eq in H. subst. reflexivity.
  - injection H as ->. apply String.eqb_refl.
Qed.

Section VerificationClaims.

Context {R : Runtime}.

(** Every result of the loop body is about its own path. *)
Lemma verify_section_shape vc clean e p r :
  verify_section vc clean e [] p = Returns r ->
  r = [] \/
  exists x, r = [x] /\ field "path" x = JStr p /\ is_result x = true.
Proof.
  unfold verify_section.
  destruct (negb (is_dict (_get_by_path vc p)));
    [ intros H; injection H as <-; left; reflexivity | ].
  destruct (py_get (_get_by_path vc p) "sProof" JNull) as [proof | err];
    [ | discriminate ]. cbn [bind].
  destruct (negb (is_dict proof)).
  { intros H. injection H as <-. right. eexists. split; [ reflexivity | ].
    split; reflexivity. }
  destruct (keccak256_json _) as [hc | err]; [ | discriminate ]. cbn [bind].
  destruct (proof_domain proof) as [domain | err]; [ | discriminate ].
  cbn [bind].
  destruct (py_get proof "proofValue" _) as [sig | err]; [ | discriminate ].
  cbn [bind].
  destruct (recover_typed_data_signer _ _) as [rec | err]; [ | discriminate ].
  cbn [bind].
  destruct (py_get proof "sectionHash" JNull) as [h | err]; [ | discriminate ].
  cbn [bind].
  destruct (if truthy (_role_for_path p) then _ else _) as [x | err];
    [ | discriminate ]. cbn [bind].
  destruct (py_get proof "signer" JNull) as [s | err]; [ | discriminate ].
  cbn [bind].
  destruct (py_get proof "type" JNull) as [t | err]; [ | discriminate ].
  cbn [bind]. intros H. injection H as <-. right. eexists.
  split; [ reflexivity | ]. split; reflexivity.
Qed.

(** The result for a section is among the results of [verify]. *)
Lemma verify_section_In vc e rs p r :
  In p SECTION_PATHS ->
  verify vc e = Returns rs ->
  verify_section vc (_strip_eip712 vc) e [] p = Returns r ->
  incl r rs.
Proof.
  intros Hp Hv Hr. rewrite verify_eq in Hv.
  apply bind_Returns in Hv as (results & Hloop & Hv).
  apply for_each_verify in Hloop as (parts & HF & ->).
  destruct (Forall2_In_l _ _ _ p HF Hp) as (r' & Hin & Hr').
  rewrite Hr in Hr'. injection Hr' as <-.
  assert (Hincl : incl r ([] ++ List.concat parts)).
  { intros x Hx. cbn. apply in_concat. exists r. split; assumption. }
  apply bind_Returns in Hv as (proof_doc & _ & Hv).
  destruct (negb (is_dict proof_doc)).
  - injection Hv as <-. intros x Hx. apply in_or_app. left. apply Hincl, Hx.
  - apply bind_Returns in Hv as (rec & _ & Hv).
    apply bind_Returns in Hv as (x & _ & Hv). injection Hv as <-.
    intros y Hy. apply in_or_app. left. apply Hincl, Hy.
Qed.

(** C8, as the code has it.  A section that is an object without a
    proof object gets the entry with [ok] false and the reason
    ["missing sProof"], and the loop goes on: the body returns, and
    the entry is among the results whenever [verify] returns.  When
    the root has no proof object, the results are those of the
    sections followed by the one failing entry for ["/"], with the
    reason ["missing proof"]; nothing is recovered or compared for
    the document. *)
Theorem missing_proof_results (vc e : json) :
  (forall p results,
      present vc p = true ->
      is_dict (section_proof (_get_by_path vc p)) = false ->
      verify_section vc (_strip_eip712 vc) e results p
      = Returns (results ++
                 [JObj [("path", JStr p); ("ok", JBool false);
                        ("reason", JStr "missing sProof")]]))
  /\ (forall p rs,
      In p SECTION_PATHS ->
      present vc p = true ->
      is_dict (section_proof (_get_by_path vc p)) = false ->
      verify vc e = Returns rs ->
      In (JObj [("path", JStr p); ("ok", JBool false);
                ("reason", JStr "missing sProof")]) rs)
  /\ (forall results,
      is_dict vc = true ->
      is_dict (document_proof vc) = false ->
      for_each (verify_section vc (_strip_eip712 vc) e) SECTION_PATHS []
      = Returns results ->
      verify vc e
      = Returns (results ++
                 [JObj [("path", JStr "/"); ("ok", JBool false);
                        ("reason", JStr "missing proof")]])).
Proof.
  split; [ | split ].
  - intros p results Hpres Hproof.
    apply verify_section_missing; assumption.
  - intros p rs Hp Hpres Hproof Hv.
    apply (verify_section_In vc e rs p _ Hp Hv
             (verify_section_missing vc _ e [] p Hpres Hproof)).
    left. reflexivity.
  - intros results Hvc Hproof Hloop. rewrite verify_eq, Hloop. cbn [bind].
    unfold document_proof in Hproof.
    destruct vc as [ | | | | | m ]; try discriminate.
    cbn [py_get bind] in *. rewrite Hproof. reflexivity.
Qed.

(** C10.  The result for the document has no hash flag.  When the root
    proof object has no truthy [signer] and the expected addresses
    have no entry for ["document"], the sections having been checked
    and a signer recovered from the stored [proofValue], [verify]
    returns the section results followed by a document entry whose
    [ok] is the outcome of comparing the proof's [type] with
    ["Eip712Signature2023"] and nothing else: the recomputed hash and
    the recovered signer are compared with nothing. *)
Theorem document_result_ok_iff_type
  (vc e : json) (proof : dict) (results : list json) (recovered : string) :
  document_proof vc = JObj proof ->
  truthy (field "signer" (JObj proof)) = false ->
  usable_expected e = true ->
  field "document" (py_or e (JObj [])) = JNull ->
  for_each (verify_section vc (_strip_eip712 vc) e) SECTION_PATHS []
  = Returns results ->
  recover_document vc (JObj proof) = Returns recovered ->
  verify vc e
  = Returns (results ++
             [JObj [("path", JStr "/");
                    ("ok", JBool (eq_str "Eip712Signature2023"
                                    (field "type" (JObj proof))));
                    ("recovered", JStr recovered);
                    ("expected", JNull)]])
  /\ (eq_str "Eip712Signature2023" (field "type" (JObj proof)) = true
      <-> field "type" (JObj proof) = JStr "Eip712Signature2023").
Proof.
  intros Hproof Hsigner He Hdoc Hloop Hrec.
  split; [ | apply eq_str_true ].
  rewrite verify_eq, Hloop. cbn [bind].
  unfold document_proof in Hproof.
  destruct vc as [ | | | | | m ]; try discriminate.
  cbn [py_get bind] in *. rewrite Hproof. cbn [is_dict negb].
  rewrite Hrec. cbn [bind].
  rewrite usable_expected_get by exact He. cbn [bind].
  unfold document_entry, expected_signer_of.
  cbn [truthy py_str]. rewrite Hdoc.
  unfold py_or. rewrite Hsigner. reflexivity.
Qed.

End VerificationClaims.

Section VerificationTotal.

Context {R : Runtime}.

Lemma section_hash_of_strip vc p :
  In p SECTION_PATHS -> present vc p = true ->
  section_hash_of (_strip_eip712 vc) p
  = keccak256_hex (pop_key "sProof" (_get_by_path vc p)).
Proof.
  intros Hp Hpres. unfold section_hash_of.
  rewrite _strip_eip712_eq, get_strip by exact Hp.
  unfold present in Hpres.
  destruct (_get_by_path vc p) as [ | | | | | m ]; try discriminate.
  simpl. unfold py_or. destruct (dict_pop "sProof" m); reflexivity.
Qed.

(** What [verify] returns: the results of the sections, then one
    entry for the document. *)
Lemma verify_Returns_inv vc e rs :
  verify vc e = Returns rs ->
  exists parts x,
    Forall2 (fun p r =>
               verify_section vc (_strip_eip712 vc) e [] p = Returns r)
      SECTION_PATHS parts
    /\ rs = List.concat parts ++ [x]
    /\ field "path" x = JStr "/" /\ is_result x = true.
Proof.
  rewrite verify_eq. intros H.
  apply bind_Returns in H as (results & Hloop & H).
  apply for_each_verify in Hloop as (parts & HF & ->). cbn [app] in H.
  apply bind_Returns in H as (proof_doc & _ & H).
  destruct (negb (is_dict proof_doc)).
  - injection H as <-. exists parts. eexists.
    split; [ exact HF | ]. split; [ reflexivity | ]. split; reflexivity.
  - apply bind_Returns in H as (rec & _ & H).
    apply bind_Returns in H as (x & _ & H). injection H as <-.
    exists parts. eexists.
    split; [ exact HF | ]. split; [ reflexivity | ]. split; reflexivity.
Qed.

Lemma verify_section_total vc e p :
  In p SECTION_PATHS ->
  usable_expected e = true ->
  (forall proof,
      present vc p = true ->
      section_proof (_get_by_path vc p) = JObj proof ->
      exists a, recover_section vc p (JObj proof) = Returns a) ->
  exists r,
    verify_section vc (_strip_eip712 vc) e [] p = Returns r
    /\ Forall (fun x => is_result x = true) r
    /\ map (field "path") r = if present vc p then [JStr p] else [].
Proof.
  intros Hp He Hrec. destruct (present vc p) eqn:Hpres.
  - destruct (section_proof (_get_by_path vc p)) as [ | | | | | proof ] eqn:Hproof.
    6: { destruct (Hrec proof eq_refl eq_refl) as [a Ha].
         rewrite (verify_section_proof vc e [] p proof) by assumption.
         rewrite Ha. cbn [bind]. eexists. split; [ reflexivity | ].
         split; [ repeat constructor | reflexivity ]. }
    all: rewrite verify_section_missing
           by (try assumption; rewrite Hproof; reflexivity);
         eexists; (split; [ reflexivity | ]);
         (split; [ repeat constructor | reflexivity ]).
  - rewrite verify_section_absent by exact Hpres.
    exists []. split; [ reflexivity | ]. split; [ constructor | reflexivity ].
Qed.

Lemma verify_sections_total vc e l :
  (forall p, In p l -> In p SECTION_PATHS) ->
  usable_expected e = true ->
  (forall p proof,
      In p SECTION_PATHS ->
      present vc p = true ->
      section_proof (_get_by_path vc p) = JObj proof ->
      exists a, recover_section vc p (JObj proof) = Returns a) ->
  exists parts,
    Forall2 (fun p r =>
               verify_section vc (_strip_eip712 vc) e [] p = Returns r) l parts
    /\ Forall (fun x => is_result x = true) (List.concat parts)
    /\ map (field "path") (List.concat parts)
       = map JStr (filter (present vc) l).
Proof.
  intros Hl He Hrec. induction l as [ | p l IH ].
  - exists []. split; [ constructor | ]. split; [ constructor | reflexivity ].
  - destruct IH as (parts & HF & Hres & Hpaths).
    { intros q Hq. apply Hl. right. exact Hq. }
    destruct (verify_section_total vc e p) as (r & Hr & Hrr & Hrp).
    { apply Hl. left. reflexivity. }
    { exact He. }
    { intros proof. apply Hrec. apply Hl. left. reflexivity. }
    exists (r :: parts). split; [ constructor; assumption | ].
    cbn [List.concat filter]. split.
    + apply Forall_app. split; assumption.
    + rewrite map_app, Hrp, Hpaths. destruct (present vc p); reflexivity.
Qed.

(** Where [verify] does return.  [verify] has no handler: it returns
    its list of per-target results when nothing it calls raises, that
    is, for a document that is an object, with expected addresses that
    are a dict or nothing, when a signer can be recovered from every
    proof object that is present (its content can be hashed, its
    domain can be rebuilt and its [proofValue] is a signature).  No
    condition is put on hashes, signers or types, nor on the presence
    of [sectionHash], [type] or [signer]: those never raise. *)
Theorem verify_returns_when_recoverable (vc e : json) :
  is_dict vc = true ->
  usable_expected e = true ->
  (forall p proof,
      In p SECTION_PATHS ->
      present vc p = true ->
      section_proof (_get_by_path vc p) = JObj proof ->
      exists a, recover_section vc p (JObj proof) = Returns a) ->
  (forall proof,
      document_proof vc = JObj proof ->
      exists a, recover_document vc (JObj proof) = Returns a) ->
  exists results,
    verify vc e = Returns results
    /\ Forall (fun r => is_result r = true) results
    /\ map (field "path") results
       = map JStr (filter (present vc) SECTION_PATHS) ++ [JStr "/"].
Proof.
  intros Hvc He Hsec Hdoc.
  destruct (verify_sections_total vc e SECTION_PATHS (fun p Hp => Hp) He Hsec)
    as (parts & HF & Hres & Hpaths).
  assert (Hloop : for_each (verify_section vc (_strip_eip712 vc) e)
                    SECTION_PATHS [] = Returns (List.concat parts)).
  { apply for_each_verify. exists parts. split; [ exact HF | reflexivity ]. }
  rewrite verify_eq, Hloop. cbn [bind].
  destruct vc as [ | | | | | m ]; try discriminate.
  cbn [py_get bind].
  destruct (match dict_get "proof" m with Some x => x | None => JNull end)
    as [ | | | | | proof ] eqn:Hproof.
  6: { destruct (Hdoc proof) as [a Ha].
       { unfold document_proof. cbn [py_get]. exact Hproof. }
       cbn [is_dict negb]. rewrite Ha. cbn [bind].
       rewrite usable_expected_get by exact He. cbn [bind].
       eexists. split; [ reflexivity | ]. split.
       - apply Forall_app. split; [ exact Hres | repeat constructor ].
       - rewrite map_app, Hpaths. reflexivity. }
  all: cbn [is_dict negb]; eexists; (split; [ reflexivity | ]); split;
    [ apply Forall_app; split; [ exact Hres | repeat constructor ]
    | rewrite map_app, Hpaths; reflexivity ].
Qed.

End VerificationTotal.

(** C2 fails of the code: the document is an object, its root proof
    object has a [type] and no [proofValue], and [verify] raises
    instead of returning results. *)
Lemma verify_raises_without_proofValue :
  is_dict (JObj [("proof", JObj [("type", JStr "Eip712Signature2023")])]) = true
  /\ verify (R := Fake.runtime)
       (JObj [("proof", JObj [("type", JStr "Eip712Signature2023")])]) JNull
     = Raises RecoveryError.
Proof. split; vm_compute; reflexivity. Qed.

(** C8 as stated fails: the reason recorded for a section without a
    proof object is ["missing sProof"]; no entry with the reason
    ["missing proof"] is emitted for the section. *)
Lemma missing_sProof_reason :
  exists rs,
    verify (R := Fake.runtime)
      (JObj [("credentialSubject", JObj [("identity", JObj [("a", JNum 1)])])])
      JNull
    = Returns rs
    /\ ~ In (JObj [("path", JStr "/credentialSubject/identity");
                   ("ok", JBool false);
                   ("reason", JStr "missing proof")]) rs.
Proof.
  eexists. split; [ vm_compute; reflexivity | ].
  simpl. intros [H | [H | []]]; discriminate.
Qed.

Section Tamper.

Context {R : Runtime}.

(** The result of a section depends on the document through the
    section alone. *)
Lemma verify_section_local vc1 vc2 e results p :
  In p SECTION_PATHS ->
  _get_by_path vc1 p = _get_by_path vc2 p ->
  verify_section vc1 (_strip_eip712 vc1) e results p
  = verify_section vc2 (_strip_eip712 vc2) e results p.
Proof.
  intros Hp H. unfold verify_section.
  rewrite !_strip_eip712_eq, !get_strip by exact Hp.
  rewrite H. reflexivity.
Qed.

Lemma filter_has_path_own p r :
  (forall x, In x r -> field "path" x = JStr p) ->
  filter (has_path p) r = r.
Proof.
  intros H. induction r as [ | x r IH ]; [ reflexivity | ].
  cbn [filter]. unfold has_path at 1.
  rewrite (H x (or_introl eq_refl)). cbn [eq_str].
  rewrite String.eqb_refl. f_equal. apply IH.
  intros y Hy. apply H. right. exact Hy.
Qed.

Lemma filter_has_path_other p q r :
  p <> q ->
  (forall x, In x r -> field "path" x = JStr q) ->
  filter (has_path p) r = [].
Proof.
  intros Hne H. induction r as [ | x r IH ]; [ reflexivity | ].
  cbn [filter]. unfold has_path at 1.
  rewrite (H x (or_introl eq_refl)). cbn [eq_str].
  destruct (String.eqb_spec p q); [ contradiction | ].
  apply IH. intros y Hy. apply H. right. exact Hy.
Qed.

Lemma verify_section_paths vc clean e p r :
  verify_section vc clean e [] p = Returns r ->
  forall x, In x r -> field "path" x = JStr p.
Proof.
  intros H x Hx. apply verify_section_shape in H as [-> | (y & -> & Hy & _)].
  - contradiction.
  - destruct Hx as [<- | []]. exact Hy.
Qed.

Lemma filter_parts vc clean e p l parts :
  Forall2 (fun q r => verify_section vc clean e [] q = Returns r) l parts ->
  (~ In p l -> filter (has_path p) (List.concat parts) = [])
  /\ (In p l -> NoDup l ->
      forall r, verify_section vc clean e [] p = Returns r ->
      filter (has_path p) (List.concat parts) = r).
Proof.
  induction 1 as [ | q r0 l parts Hq HF [IH1 IH2] ].
  - split; [ reflexivity | intros [] ].
  - cbn [List.concat]. rewrite filter_app. split.
    + intros Hn.
      rewrite (filter_has_path_other p q r0);
        [ | intros ->; apply Hn; left; reflexivity
          | apply (verify_section_paths _ _ _ _ _ Hq) ].
      apply IH1. intros Hin. apply Hn. right. exact Hin.
    + intros Hin Hnd r Hr. inversion Hnd as [ | ? ? Hnotin Hnd' ]; subst.
      destruct (string_dec q p) as [-> | Hne].
      * rewrite Hq in Hr. injection Hr as <-.
        rewrite filter_has_path_own
          by apply (verify_section_paths _ _ _ _ _ Hq).
        rewrite IH1 by exact Hnotin. apply app_nil_r.
      * destruct Hin as [-> | Hin]; [ contradiction | ].
        rewrite (filter_has_path_other p q r0);
          [ | intros ->; apply Hne; reflexivity
            | apply (verify_section_paths _ _ _ _ _ Hq) ].
        apply IH2; assumption.
Qed.

Lemma verify_filter vc e rs p r :
  In p SECTION_PATHS ->
  verify vc e = Returns rs ->
  verify_section vc (_strip_eip712 vc) e [] p = Returns r ->
  filter (has_path p) rs = r.
Proof.
  intros Hp Hv Hr.
  apply verify_Returns_inv in Hv as (parts & x & HF & -> & Hx & _).
  rewrite filter_app. cbn [filter]. unfold has_path at 2.
  rewrite Hx. cbn [eq_str].
  destruct (String.eqb_spec p "/") as [-> | _].
  { exfalso. apply (section_path_not_root "/" Hp). reflexivity. }
  rewrite app_nil_r.
  apply (proj2 (filter_parts _ _ _ p _ _ HF) Hp SECTION_PATHS_NoDup r Hr).
Qed.

Lemma verify_section_Returns vc e rs p :
  In p SECTION_PATHS ->
  verify vc e = Returns rs ->
  exists r, verify_section vc (_strip_eip712 vc) e [] p = Returns r.
Proof.
  intros Hp Hv.
  apply verify_Returns_inv in Hv as (parts & x & HF & _).
  destruct (Forall2_In_l _ _ _ p HF Hp) as (r & _ & Hr).
  exists r. exact Hr.
Qed.

End Tamper.

Section VerificationRaises.

Context {R : Runtime}.

Lemma recover_empty_signature (laws : RuntimeLaws R) typed :
  exists err,
    recover_typed_data_signer typed (JStr EmptyString) = Raises err
    /\ (forall enc, encode_typed_data typed = Some enc ->
        err = RecoveryError).
Proof.
  unfold recover_typed_data_signer.
  destruct (encode_typed_data typed) as [enc | ].
  - cbn [of_option bind]. rewrite (recover_empty R laws).
    eexists. split; [ reflexivity | ]. reflexivity.
  - eexists. split; [ reflexivity | ]. discriminate.
Qed.

(** C2.  [verify] does raise for a condition of the credential: it
    has no handler, and a proof object without [proofValue] (or with
    the empty string there) hands the empty string to the recovery of
    the signer, which the library refuses.  For the root proof, once
    the sections are done, the document is hashed, the domain rebuilt
    and the message encoded, [verify] raises the error of the
    recovery; and whatever else happens, [verify] returns no result
    list when the root proof, or the proof of a section that is
    present, has no signature. *)
Theorem verify_raises_on_empty_signature
  (laws : RuntimeLaws R) (vc e : json) :
  (forall proof results h domain enc,
      document_proof vc = JObj proof ->
      proof_value (JObj proof) = JStr EmptyString ->
      for_each (verify_section vc (_strip_eip712 vc) e) SECTION_PATHS []
      = Returns results ->
      keccak256_json (_strip_eip712 vc) = Returns h ->
      proof_domain (JObj proof) = Returns domain ->
      encode_typed_data (build_document_typed_data domain h) = Some enc ->
      verify vc e = Raises RecoveryError)
  /\ (forall proof,
      document_proof vc = JObj proof ->
      proof_value (JObj proof) = JStr EmptyString ->
      exists err, verify vc e = Raises err)
  /\ (forall p proof,
      In p SECTION_PATHS ->
      present vc p = true ->
      section_proof (_get_by_path vc p) = JObj proof ->
      proof_value (JObj proof) = JStr EmptyString ->
      exists err, verify vc e = Raises err)
  /\ (forall proof,
      dict_get "proofValue" proof = None ->
      proof_value (JObj proof) = JStr EmptyString).
Proof.
  split; [ | split; [ | split ] ].
  - intros proof results h domain enc Hproof Hv Hloop Hh Hd Henc.
    rewrite verify_eq, Hloop. cbn [bind].
    unfold document_proof in Hproof.
    destruct vc as [ | | | | | m ]; try discriminate.
    cbn [py_get bind] in *. rewrite Hproof. cbn [is_dict negb].
    unfold recover_document. rewrite Hh. cbn [bind]. rewrite Hd. cbn [bind].
    rewrite Hv. unfold recover_typed_data_signer. rewrite Henc.
    cbn [of_option bind]. rewrite (recover_empty R laws). reflexivity.
  - intros proof Hproof Hv. rewrite verify_eq.
    destruct (for_each _ SECTION_PATHS []) as [results | err];
      [ | eexists; reflexivity ]. cbn [bind].
    unfold document_proof in Hproof.
    destruct vc as [ | | | | | m ]; try discriminate.
    cbn [py_get bind] in *. rewrite Hproof. cbn [is_dict negb].
    unfold recover_document.
    destruct (keccak256_json _) as [h | err]; [ | eexists; reflexivity ].
    cbn [bind].
    destruct (proof_domain (JObj proof)) as [domain | err];
      [ | eexists; reflexivity ]. cbn [bind]. rewrite Hv.
    destruct (recover_empty_signature laws
                (build_document_typed_data domain h)) as (err & -> & _).
    eexists. reflexivity.
  - intros p proof Hp Hpres Hproof Hv.
    destruct (verify vc e) as [rs | err] eqn:Hrun; [ | eexists; reflexivity ].
    exfalso.
    destruct (verify_section_Returns vc e rs p Hp Hrun) as [r Hr].
    rewrite (verify_section_proof_gen vc e [] p proof Hp Hpres Hproof) in Hr.
    apply bind_Returns in Hr as (a & Ha & _).
    unfold recover_section in Ha.
    apply bind_Returns in Ha as (h & _ & Ha).
    apply bind_Returns in Ha as (domain & _ & Ha). rewrite Hv in Ha.
    destruct (recover_empty_signature laws
                (build_section_typed_data domain p h)) as (err & Herr & _).
    rewrite Herr in Ha. discriminate.
  - intros proof Hnone. unfold proof_value. rewrite Hnone. reflexivity.
Qed.

End VerificationRaises.

(** ** The round trip *)

Lemma dict_get_set_present k v m :
  dict_has k m = true -> dict_get k (set_if_present k v m) = Some v.
Proof.
  unfold dict_has, set_if_present. rewrite dict_get_update_same.
  destruct (dict_get k m); [ reflexivity | discriminate ].
Qed.

Lemma dict_has_set k k' v m :
  dict_has k (set_if_present k' v m) = dict_has k m.
Proof.
  unfold dict_has, set_if_present.
  destruct (String.eqb_spec k k') as [-> | Hne].
  - rewrite dict_get_update_same. destruct (dict_get k' m); reflexivity.
  - rewrite dict_get_update_other by exact Hne. reflexivity.
Qed.

Lemma sealed_section_get h sig proof :
  dict_has "type" proof = true ->
  dict_has "sectionHash" proof = true ->
  dict_has "proofValue" proof = true ->
  dict_get "type" (sealed_section_proof h sig proof)
  = Some (JStr "Eip712Signature2023")
  /\ dict_get "sectionHash" (sealed_section_proof h sig proof) = Some (JStr h)
  /\ dict_get "proofValue" (sealed_section_proof h sig proof) = Some (JStr sig).
Proof.
  intros Ht Hh Hv. unfold sealed_section_proof. repeat split.
  - unfold set_if_present at 1 2.
    rewrite !dict_get_update_other by discriminate.
    apply dict_get_set_present, Ht.
  - unfold set_if_present at 1.
    rewrite dict_get_update_other by discriminate.
    apply dict_get_set_present. rewrite dict_has_set. exact Hh.
  - apply dict_get_set_present. rewrite !dict_has_set. exact Hv.
Qed.

Lemma sealed_section_get_other h sig proof k :
  k <> "type" -> k <> "sectionHash" -> k <> "proofValue" ->
  dict_get k (sealed_section_proof h sig proof) = dict_get k proof.
Proof.
  intros H1 H2 H3. unfold sealed_section_proof, set_if_present.
  rewrite !dict_get_update_other by assumption. reflexivity.
Qed.

Lemma sealed_document_get sig proof :
  dict_has "type" proof = true ->
  dict_has "proofValue" proof = true ->
  dict_get "type" (sealed_document_proof sig proof)
  = Some (JStr "Eip712Signature2023")
  /\ dict_get "proofValue" (sealed_document_proof sig proof) = Some (JStr sig).
Proof.
  intros Ht Hv. unfold sealed_document_proof. split.
  - unfold set_if_present at 1.
    rewrite dict_get_update_other by discriminate.
    apply dict_get_set_present, Ht.
  - apply dict_get_set_present. rewrite dict_has_set. exact Hv.
Qed.

Lemma sealed_document_get_other sig proof k :
  k <> "type" -> k <> "proofValue" ->
  dict_get k (sealed_document_proof sig proof) = dict_get k proof.
Proof.
  intros H1 H2. unfold sealed_document_proof, set_if_present.
  rewrite !dict_get_update_other by assumption. reflexivity.
Qed.

Section RoundTrip.

Context {R : Runtime}.

Lemma proof_domain_ext p1 p2 :
  dict_get "domain" p1 = dict_get "domain" p2 ->
  proof_domain (JObj p1) = proof_domain (JObj p2).
Proof. intros H. unfold proof_domain. cbn [py_get]. rewrite H. reflexivity. Qed.

Lemma py_or_falsy a b : truthy a = false -> py_or a b = b.
Proof. unfold py_or. intros ->. reflexivity. Qed.

Lemma same_address_refl a : same_address a (JStr a) = true.
Proof. unfold same_address. cbn [py_str]. apply String.eqb_refl. Qed.

Lemma sign_then_recover (laws : RuntimeLaws R) priv typed sig signer :
  sign_typed_data priv typed = Returns (sig, signer) ->
  recover_typed_data_signer typed (JStr sig) = Returns signer
  /\ private_key_to_address priv = Returns signer.
Proof.
  unfold sign_typed_data, recover_typed_data_signer, private_key_to_address.
  destruct (Account_from_key priv) as [acct | ] eqn:Hk; [ | discriminate ].
  cbn [of_option bind].
  destruct (encode_typed_data typed) as [enc | ]; [ | discriminate ].
  cbn [of_option bind]. intros H. injection H as <- <-.
  rewrite (recover_sign R laws priv acct enc Hk). split; reflexivity.
Qed.

Lemma recover_section_eq vc p proof :
  hashable (section_content (_strip_eip712 vc) p) = true ->
  recover_section vc p proof
  = (domain <- proof_domain proof ;;
     recover_typed_data_signer
       (build_section_typed_data domain p
          (section_hash_of (_strip_eip712 vc) p))
       (proof_value proof)).
Proof.
  intros H. unfold recover_section. rewrite keccak256_json_eq, H.
  reflexivity.
Qed.

Lemma recover_document_eq vc proof :
  hashable (_strip_eip712 vc) = true ->
  recover_document vc proof
  = (domain <- proof_domain proof ;;
     recover_typed_data_signer
       (build_document_typed_data domain (keccak256_hex (_strip_eip712 vc)))
       (proof_value proof)).
Proof.
  intros H. unfold recover_document. rewrite keccak256_json_eq, H.
  reflexivity.
Qed.

Lemma section_items_role keys_cfg k1 k2 k3 p priv :
  config_key keys_cfg "identity" = Returns k1 ->
  config_key keys_cfg "compliance" = Returns k2 ->
  config_key keys_cfg "custody" = Returns k3 ->
  In (p, priv) (section_items k1 k2 k3) ->
  exists role,
    _role_for_path p = JStr role
    /\ truthy (JStr role) = true
    /\ In role ROLES
    /\ config_key keys_cfg role = Returns priv.
Proof.
  intros H1 H2 H3 [H | [H | [H | []]]]; injection H as <- <-; eexists;
    (split; [ vm_compute; reflexivity | ]);
    (split; [ reflexivity | ]);
    (split; [ simpl; tauto | assumption ]).
Qed.

Lemma verify_sections_ok vc e l :
  (forall p, In p l -> In p SECTION_PATHS) ->
  (forall p, In p SECTION_PATHS -> present vc p = true ->
     exists x,
       verify_section vc (_strip_eip712 vc) e [] p = Returns [x]
       /\ field "path" x = JStr p /\ field "ok" x = JBool true) ->
  exists parts,
    Forall2 (fun p r =>
               verify_section vc (_strip_eip712 vc) e [] p = Returns r) l parts
    /\ map (field "path") (List.concat parts)
       = map JStr (filter (present vc) l)
    /\ Forall (fun r => field "ok" r = JBool true) (List.concat parts).
Proof.
  intros Hl Hsec. induction l as [ | p l IH ].
  - exists []. split; [ constructor | ]. split; [ reflexivity | constructor ].
  - destruct IH as (parts & HF & Hpaths & Hok).
    { intros q Hq. apply Hl. right. exact Hq. }
    assert (Hp : In p SECTION_PATHS) by (apply Hl; left; reflexivity).
    cbn [filter]. destruct (present vc p) eqn:Hpres.
    + destruct (Hsec p Hp Hpres) as (x & Hx & Hxp & Hxo).
      exists ([x] :: parts). split; [ constructor; assumption | ].
      cbn [List.concat app map]. rewrite Hxp, Hpaths.
      split; [ reflexivity | constructor; assumption ].
    + exists ([] :: parts). split.
      * constructor; [ apply verify_section_absent, Hpres | exact HF ].
      * cbn [List.concat app]. split; assumption.
Qed.

(** C1, as the code has it.  Verifying an issued credential gives one
    result for every section that is present and one for the document,
    all with [ok] true, when every proof template has the fields the
    issuer fills, names no signer of its own, and the domain that the
    verifier rebuilds from it (the one it embeds under [domain], else
    the defaults [RWA-VC], [1], [1] and the zero address) is the
    domain the issuer was configured with, the expected addresses
    being those of the configured keys. *)
Theorem roundtrip_verifies (laws : RuntimeLaws R)
  (vc keys_cfg verifying_contract e issued : json) (meta : list json)
  (domain : Eip712Domain) :
  issue vc keys_cfg verifying_contract = Returns (issued, meta) ->
  config_domain keys_cfg verifying_contract = Returns domain ->
  (forall p, In p SECTION_PATHS -> present vc p = true ->
     section_template_ok domain (section_proof (_get_by_path vc p))) ->
  document_template_ok domain (document_proof vc) ->
  expected_matches keys_cfg e ->
  exists results,
    verify issued e = Returns results
    /\ map (field "path") results
       = map JStr (filter (present vc) SECTION_PATHS) ++ [JStr "/"]
    /\ Forall (fun r => field "ok" r = JBool true) results.
Proof.
  intros Hissue Hdomain Hsec Hdoc [He Haddr].
  pose proof (strip_issued _ _ _ _ _ Hissue) as Hstrip.
  pose proof (issue_Returns_hashable _ _ _ _ _ Hissue) as [Hhd Hhs].
  apply issue_Returns_inv in Hissue
    as (domain' & k1 & k2 & k3 & k4 & d3 & sig_doc & signer_doc & H).
  destruct H as (Hdom' & Hk1 & Hk2 & Hk3 & Hk4 & Hvc & _ & Hproof3 & Habsent
                 & Hsigned & Hsign_doc & Hissued & _).
  rewrite Hdomain in Hdom'. injection Hdom' as <-.
  assert (Hget : forall p, In p SECTION_PATHS ->
                   _get_by_path issued p = _get_by_path d3 p).
  { intros p Hp. rewrite Hissued. apply get_signed_document, Hp. }
  assert (Hpresent : forall p, In p SECTION_PATHS ->
                       present issued p = present vc p).
  { intros p Hp. rewrite <- (present_strip issued), <- (present_strip vc)
      by exact Hp. rewrite Hstrip. reflexivity. }
  (* the sections *)
  destruct (verify_sections_ok issued e SECTION_PATHS (fun p Hp => Hp))
    as (parts & HF & Hpaths & Hok).
  { intros p Hp Hpres. rewrite Hpresent in Hpres by exact Hp.
    destruct (section_items_In k1 k2 k3 p Hp) as [priv Hin].
    destruct (Hsigned p priv Hin Hpres) as (sig & signer & Hsign & Hg).
    destruct (Hsec p Hp Hpres)
      as (proof & Hproof & Ht & Hh & Hv & Hsigner & Hpd).
    destruct (section_items_role keys_cfg k1 k2 k3 p priv Hk1 Hk2 Hk3 Hin)
      as (role & Hrole & Hrt & Hrin & Hkey).
    destruct (sign_then_recover laws _ _ _ _ Hsign) as [Hrec Hpk].
    set (h := section_hash_of (_strip_existing_eip712 vc) p) in *.
    destruct (sealed_section_get h sig proof Ht Hh Hv) as (Gt & Gh & Gv).
    assert (Hsp : section_proof (_get_by_path issued p)
                  = JObj (sealed_section_proof h sig proof)).
    { rewrite Hget, Hg, section_proof_signed, Hproof by exact Hp.
      reflexivity. }
    assert (Hh' : section_hash_of (_strip_eip712 issued) p = h).
    { unfold h. rewrite _strip_eip712_eq, Hstrip. reflexivity. }
    assert (Hpi : present issued p = true)
      by (rewrite Hpresent by exact Hp; exact Hpres).
    rewrite (verify_section_proof issued e [] p
               (sealed_section_proof h sig proof) Hp Hpi Hsp He).
    rewrite recover_section_eq
      by (rewrite _strip_eip712_eq, Hstrip; apply Hhs; assumption).
    rewrite (proof_domain_ext _ proof)
      by (apply sealed_section_get_other; discriminate).
    rewrite <- Hproof, Hpd. cbn [bind]. rewrite Hh'.
    unfold proof_value. rewrite Gv, Hrec. cbn [bind app].
    eexists. split; [ reflexivity | ]. split; [ reflexivity | ].
    unfold section_entry, expected_signer_of, addr_ok_of.
    cbn [field dict_get String.eqb Ascii.eqb Bool.eqb]. cbn [field].
    rewrite Gh, Gt. cbn [eq_str]. rewrite !String.eqb_refl.
    rewrite Hrole, Hrt. cbn [py_str].
    rewrite (Haddr role priv signer Hrin Hkey Hpk).
    rewrite sealed_section_get_other by discriminate.
    rewrite Hproof in Hsigner. cbn [field] in Hsigner.
    rewrite !(py_or_falsy _ _ Hsigner).
    destruct (truthy (JStr signer)); cbn [negb];
      rewrite ?same_address_refl; reflexivity. }
  (* the document *)
  destruct Hdoc as (proof & Hproof & Ht & Hv & Hsigner & Hpd).
  destruct (sign_then_recover laws _ _ _ _ Hsign_doc) as [Hrec Hpk].
  destruct (sealed_document_get sig_doc proof Ht Hv) as (Gt & Gv).
  assert (Hdp : document_proof issued
                = JObj (sealed_document_proof sig_doc proof)).
  { rewrite Hissued, document_proof_signed, Hproof3, Hproof. reflexivity. }
  assert (Hloop : for_each (verify_section issued (_strip_eip712 issued) e)
                    SECTION_PATHS [] = Returns (List.concat parts)).
  { apply for_each_verify. exists parts. split; [ exact HF | reflexivity ]. }
  rewrite verify_eq, Hloop. cbn [bind].
  assert (Hid : is_dict issued = true).
  { rewrite <- is_dict_strip, Hstrip, is_dict_strip. exact Hvc. }
  unfold document_proof in Hdp.
  destruct issued as [ | | | | | mi ]; try discriminate.
  cbn [py_get bind] in *. rewrite Hdp. cbn [is_dict negb].
  rewrite recover_document_eq
    by (rewrite _strip_eip712_eq, Hstrip; exact Hhd).
  rewrite (proof_domain_ext _ proof)
    by (apply sealed_document_get_other; discriminate).
  rewrite <- Hproof, Hpd. cbn [bind].
  rewrite _strip_eip712_eq, Hstrip.
  unfold proof_value. rewrite Gv, Hrec. cbn [bind].
  rewrite usable_expected_get by exact He. cbn [bind].
  eexists. split; [ reflexivity | ]. split.
  - rewrite map_app, Hpaths.
    rewrite (filter_ext_in _ _ _ Hpresent). reflexivity.
  - apply Forall_app. split; [ exact Hok | ]. constructor; [ | constructor ].
    unfold document_entry, expected_signer_of.
    change (truthy (JStr "document")) with true. cbn iota. cbn [py_str].
    rewrite (Haddr "document" k4 signer_doc
               (or_intror (or_intror (or_intror (or_introl eq_refl)))) Hk4 Hpk).
    cbn [field dict_get String.eqb Ascii.eqb Bool.eqb]. cbn [field].
    rewrite Gt. cbn [eq_str]. rewrite String.eqb_refl.
    rewrite sealed_document_get_other by discriminate.
    rewrite Hproof in Hsigner. cbn [field] in Hsigner.
    rewrite !(py_or_falsy _ _ Hsigner).
    destruct (truthy (JStr signer_doc)); rewrite ?same_address_refl;
      reflexivity.
Qed.

End RoundTrip.

(** ** Canonical JSON *)

Lemma leb_trans (a b c : string) :
  (a <=? b)%string = true -> (b <=? c)%string = true ->
  (a <=? c)%string = true.
Proof.
  unfold String.leb. intros Hab Hbc.
  destruct (String.compare a b) eqn:Eab; try discriminate;
    destruct (String.compare b c) eqn:Ebc; try discriminate.
  - apply String.compare_eq_iff in Eab. subst. rewrite Ebc. reflexivity.
  - apply String.compare_eq_iff in Eab. subst. rewrite Ebc. reflexivity.
  - apply String.compare_eq_iff in Ebc. subst. rewrite Eab. reflexivity.
  - apply String_as_OT.cmp_lt in Eab, Ebc.
    pose proof (String_as_OT.lt_trans _ _ _ Eab Ebc) as Hac.
    apply String_as_OT.cmp_lt in Hac. unfold String_as_OT.cmp in Hac.
    rewrite Hac. reflexivity.
Qed.

Section Sorting.

Context {A : Type}.

Lemma insert_item_perm (x : string * A) l :
  Permutation (insert_item x l) (x :: l).
Proof.
  induction l as [ | y l IH ]; simpl; [ reflexivity | ].
  destruct (fst x <=? fst y)%string; [ reflexivity | ].
  rewrite IH. apply perm_swap.
Qed.

Lemma sort_items_perm (l : list (string * A)) : Permutation (sort_items l) l.
Proof.
  induction l as [ | x l IH ]; simpl; [ reflexivity | ].
  rewrite insert_item_perm, IH. reflexivity.
Qed.

Lemma insert_item_sorted (x : string * A) l :
  StronglySorted key_le l -> StronglySorted key_le (insert_item x l).
Proof.
  induction 1 as [ | y l Hl IH Hy ]; simpl.
  - repeat constructor.
  - destruct (fst x <=? fst y)%string eqn:E.
    + constructor; [ constructor; assumption | ].
      constructor; [ exact E | ].
      eapply Forall_impl; [ | exact Hy ].
      intros z Hz. unfold key_le in *. eapply leb_trans; eassumption.
    + constructor; [ exact IH | ].
      assert (Hyx : key_le y x).
      { unfold key_le. destruct (String.leb_total (fst x) (fst y)) as [H | H];
          [ rewrite H in E; discriminate | exact H ]. }
      eapply Permutation_Forall; [ symmetry; apply insert_item_perm | ].
      constructor; assumption.
Qed.

Lemma sort_items_sorted (l : list (string * A)) :
  StronglySorted key_le (sort_items l).
Proof.
  induction l as [ | x l IH ]; simpl; [ constructor | ].
  apply insert_item_sorted, IH.
Qed.

Lemma same_key_same_item (l : list (string * A)) a b :
  NoDup (map fst l) -> In a l -> In b l -> fst a = fst b -> a = b.
Proof.
  induction l as [ | x l IH ]; simpl; intros Hnd Ha Hb Hk; [ contradiction | ].
  inversion Hnd as [ | ? ? Hx Hnd' ]; subst.
  destruct Ha as [-> | Ha]; destruct Hb as [-> | Hb].
  - reflexivity.
  - exfalso. apply Hx. rewrite Hk. apply in_map, Hb.
  - exfalso. apply Hx. rewrite <- Hk. apply in_map, Ha.
  - apply IH; assumption.
Qed.

(** A list with distinct keys has one sorted arrangement. *)
Lemma sorted_unique (l1 l2 : list (string * A)) :
  StronglySorted key_le l1 -> StronglySorted key_le l2 ->
  Permutation l1 l2 -> NoDup (map fst l1) -> l1 = l2.
Proof.
  revert l2. induction l1 as [ | a l1 IH ]; intros l2 H1 H2 Hp Hnd.
  - apply Permutation_nil in Hp. subst. reflexivity.
  - destruct l2 as [ | b l2 ].
    { symmetry in Hp. apply Permutation_nil in Hp. discriminate. }
    apply StronglySorted_inv in H1 as [H1 Ha].
    apply StronglySorted_inv in H2 as [H2 Hb].
    assert (Hab : a = b).
    { assert (Ha2 : In a (b :: l2))
        by (eapply Permutation_in; [ exact Hp | left; reflexivity ]).
      assert (Hb1 : In b (a :: l1))
        by (eapply Permutation_in; [ symmetry; exact Hp | left; reflexivity ]).
      destruct Ha2 as [-> | Ha2]; [ reflexivity | ].
      destruct Hb1 as [-> | Hb1]; [ reflexivity | ].
      rewrite Forall_forall in Ha, Hb.
      apply (same_key_same_item (a :: l1));
        [ exact Hnd | left; reflexivity | right; exact Hb1 | ].
      apply String.leb_antisym; [ apply (Ha b Hb1) | apply (Hb a Ha2) ]. }
    subst b. f_equal. apply IH; try assumption.
    + eapply Permutation_cons_inv. exact Hp.
    + inversion Hnd; assumption.
Qed.

Lemma sort_items_perm_eq (l1 l2 : list (string * A)) :
  Permutation l1 l2 -> NoDup (map fst l1) -> sort_items l1 = sort_items l2.
Proof.
  intros Hp Hnd. apply sorted_unique.
  - apply sort_items_sorted.
  - apply sort_items_sorted.
  - rewrite !sort_items_perm. exact Hp.
  - eapply Permutation_NoDup; [ | exact Hnd ].
    apply Permutation_map. symmetry. apply sort_items_perm.
Qed.

End Sorting.

(** Rendering the values and ordering the items commute: the text of
    a dict is the text of its items in the order of their keys. *)
Lemma insert_item_map {A B : Type} (f : A -> B) (x : string * A) l :
  insert_item (fst x, f (snd x)) (map (fun kv => (fst kv, f (snd kv))) l)
  = map (fun kv => (fst kv, f (snd kv))) (insert_item x l).
Proof.
  induction l as [ | y l IH ]; simpl; [ reflexivity | ].
  destruct (fst x <=? fst y)%string; simpl; [ reflexivity | ].
  f_equal. exact IH.
Qed.

Lemma to_canonical_json_items (m : dict) :
  sort_items (rendered_items m) = rendered_items (sort_items m).
Proof.
  unfold rendered_items. induction m as [ | x m IH ]; simpl; [ reflexivity | ].
  rewrite IH. apply insert_item_map.
Qed.

Lemma to_canonical_json_obj (m : dict) :
  to_canonical_json (JObj m)
  = ("{" ++ String.concat ","
              (map item_text (rendered_items (sort_items m))) ++ "}")%string.
Proof.
  cbn [to_canonical_json]. fold (rendered_items m).
  rewrite to_canonical_json_items. reflexivity.
Qed.

Lemma nodup_keys_NoDup ks : nodup_keys ks = true -> NoDup ks.
Proof.
  induction ks as [ | k ks IH ]; simpl; intros H; [ constructor | ].
  apply andb_true_iff in H as [Hk Hks]. constructor; [ | apply IH, Hks ].
  intros Hin. apply negb_true_iff in Hk.
  assert (existsb (String.eqb k) ks = true).
  { apply existsb_exists. exists k. split; [ exact Hin | apply String.eqb_refl ]. }
  congruence.
Qed.

Lemma dict_get_In k m v : dict_get k m = Some v -> In (k, v) m.
Proof.
  induction m as [ | [k' x] m IH ]; simpl; [ discriminate | ].
  destruct (String.eqb_spec k k') as [-> | Hne].
  - intros H. injection H as ->. left. reflexivity.
  - intros H. right. apply IH, H.
Qed.

Lemma rendered_items_keys m : map fst (rendered_items m) = map fst m.
Proof.
  unfold rendered_items. rewrite map_map. reflexivity.
Qed.

Lemma NoDup_keys_NoDup {A : Type} (l : list (string * A)) :
  NoDup (map fst l) -> NoDup l.
Proof.
  induction l as [ | x l IH ]; simpl; intros H; [ constructor | ].
  inversion H as [ | ? ? Hx Hnd ]; subst. constructor; [ | apply IH, Hnd ].
  intros Hin. apply Hx. apply in_map, Hin.
Qed.

(** Equal documents have the same canonical text. *)
Lemma to_canonical_json_py_eq d1 :
  forall d2,
    well_formed d1 = true -> well_formed d2 = true ->
    py_eq d1 d2 = true ->
    to_canonical_json d1 = to_canonical_json d2.
Proof.
  induction d1 as [ | b | z | s | l IH | m IH ] using json_ind;
    intros d2 Hw1 Hw2 Heq; destruct d2 as [ | b2 | z2 | s2 | l2 | m2 ];
    try discriminate.
  - reflexivity.
  - simpl in Heq. apply eqb_prop in Heq. subst. reflexivity.
  - simpl in Heq. apply Z.eqb_eq in Heq. subst. reflexivity.
  - simpl in Heq. apply String.eqb_eq in Heq. subst. reflexivity.
  - cbn [to_canonical_json]. do 3 f_equal.
    cbn [well_formed] in Hw1, Hw2. cbn [py_eq] in Heq.
    revert l2 Hw1 Hw2 Heq.
    induction IH as [ | x l Hx _ IHl ]; intros [ | y l2 ] Hw1 Hw2 Heq;
      try discriminate; [ reflexivity | ].
    cbn [forallb] in Hw1, Hw2.
    apply andb_true_iff in Hw1 as [Hwx Hwl].
    apply andb_true_iff in Hw2 as [Hwy Hwl2].
    apply andb_true_iff in Heq as [Hxy Hl].
    cbn [map]. f_equal; [ apply Hx; assumption | apply IHl; assumption ].
  - cbn [to_canonical_json]. do 4 f_equal.
    fold (rendered_items m). fold (rendered_items m2).
    cbn [well_formed] in Hw1, Hw2.
    apply andb_true_iff in Hw1 as [Hk1 Hv1].
    apply andb_true_iff in Hw2 as [Hk2 Hv2].
    apply nodup_keys_NoDup in Hk1, Hk2.
    rewrite forallb_forall in Hv2.
    cbn [py_eq] in Heq. apply andb_true_iff in Heq as [Hlen Hgo].
    apply Nat.eqb_eq in Hlen.
    apply sort_items_perm_eq;
      [ | rewrite rendered_items_keys; exact Hk1 ].
    apply NoDup_Permutation_bis.
    + apply NoDup_keys_NoDup. rewrite rendered_items_keys. exact Hk1.
    + unfold rendered_items. rewrite !length_map, Hlen. apply le_n.
    + clear Hk1 Hlen. unfold rendered_items.
      induction IH as [ | [k v] m Hx _ IHm ]; [ intros x [] | ].
      cbn [forallb] in Hv1. apply andb_true_iff in Hv1 as [Hwv Hwm].
      cbn [snd] in Hx, Hwv.
      destruct (dict_get k m2) as [v' | ] eqn:G; [ | discriminate ].
      apply andb_true_iff in Hgo as [Hvv Hgo].
      apply dict_get_In in G.
      intros x [<- | Hx']; [ | apply (IHm Hwm Hgo x Hx') ].
      cbn [fst snd].
      rewrite (Hx v' Hwv (Hv2 (k, v') G) Hvv).
      apply (in_map (fun kv => (fst kv, to_canonical_json (snd kv)))
               m2 (k, v') G).
Qed.

Lemma has_whitespace_app a b :
  has_whitespace (a ++ b) = has_whitespace a || has_whitespace b.
Proof.
  induction a as [ | c a IH ]; simpl; [ reflexivity | ].
  rewrite IH, orb_assoc. reflexivity.
Qed.

Lemma has_whitespace_concat sep l :
  has_whitespace sep = false ->
  Forall (fun s => has_whitespace s = false) l ->
  has_whitespace (String.concat sep l) = false.
Proof.
  intros Hsep. induction 1 as [ | s l Hs Hl IH ]; [ reflexivity | ].
  destruct l as [ | s' l ]; [ exact Hs | ].
  change (String.concat sep (s :: s' :: l))
    with (s ++ sep ++ String.concat sep (s' :: l))%string.
  rewrite !has_whitespace_app, Hs, Hsep, IH. reflexivity.
Qed.

Lemma escape_char_whitespace c :
  (nat_of_ascii c =? 32)%nat = false ->
  has_whitespace (escape_char c) = false.
Proof.
  destruct c as [[] [] [] [] [] [] [] []]; vm_compute; intros H;
    try reflexivity; discriminate.
Qed.

Lemma escape_whitespace s :
  has_space s = false -> has_whitespace (escape s) = false.
Proof.
  induction s as [ | c s IH ]; simpl; intros H; [ reflexivity | ].
  apply orb_false_iff in H as [Hc Hs].
  rewrite has_whitespace_app, (escape_char_whitespace c Hc), (IH Hs).
  reflexivity.
Qed.

Lemma encode_basestring_whitespace s :
  has_space s = false -> has_whitespace (encode_basestring s) = false.
Proof.
  intros H. unfold encode_basestring. cbn [has_whitespace].
  rewrite has_whitespace_app, (escape_whitespace s H). reflexivity.
Qed.

Lemma string_of_uint_whitespace d :
  has_whitespace (NilEmpty.string_of_uint d) = false.
Proof. induction d; simpl; auto. Qed.

Lemma repr_int_whitespace z : has_whitespace (repr_int z) = false.
Proof.
  unfold repr_int, NilZero.string_of_int, NilZero.string_of_uint.
  destruct (Z.to_int z) as [d | d]; destruct d; simpl;
    auto using string_of_uint_whitespace.
Qed.

Lemma to_canonical_json_whitespace d :
  space_free d = true -> has_whitespace (to_canonical_json d) = false.
Proof.
  induction d as [ | b | z | s | l IH | m IH ] using json_ind; intros Hs.
  - reflexivity.
  - destruct b; reflexivity.
  - apply repr_int_whitespace.
  - apply encode_basestring_whitespace. simpl in Hs.
    apply negb_true_iff in Hs. exact Hs.
  - cbn [to_canonical_json space_free] in *.
    change (has_whitespace
              ("[" ++ String.concat "," (map to_canonical_json l) ++ "]")
            = false).
    rewrite !has_whitespace_app, has_whitespace_concat; [ reflexivity .. | ].
    rewrite forallb_forall in Hs. rewrite Forall_forall in IH |- *.
    intros x Hx. apply in_map_iff in Hx as (v & <- & Hv).
    apply IH; [ exact Hv | apply Hs, Hv ].
  - cbn [to_canonical_json space_free] in *.
    fold (rendered_items m).
    change (has_whitespace
              ("{" ++ String.concat ","
                        (map item_text (sort_items (rendered_items m)))
               ++ "}") = false).
    rewrite !has_whitespace_app, has_whitespace_concat; [ reflexivity .. | ].
    rewrite forallb_forall in Hs. rewrite Forall_forall in IH |- *.
    intros x Hx. apply in_map_iff in Hx as (kt & <- & Hkt).
    apply (Permutation_in _ (sort_items_perm _)) in Hkt.
    apply in_map_iff in Hkt as ([k v] & <- & Hkv).
    specialize (Hs _ Hkv). apply andb_true_iff in Hs as [Hk Hv].
    apply negb_true_iff in Hk. cbn [fst snd] in *.
    unfold item_text. cbn [fst snd].
    rewrite !has_whitespace_app, (encode_basestring_whitespace k Hk).
    pose proof (IH _ Hkv Hv) as Hvw. cbn [snd] in Hvw.
    rewrite Hvw. reflexivity.
Qed.

(** C7.  Two values that are equal up to the insertion order of the
    keys, at every depth, have the same canonical text.  In that text
    the items of every dict come in the order of their keys, and there
    is no white space but the spaces that stand inside the strings of
    the value. *)
Theorem canonical_json_deterministic :
  (forall d1 d2,
      well_formed d1 = true -> well_formed d2 = true ->
      py_eq d1 d2 = true ->
      to_canonical_json d1 = to_canonical_json d2)
  /\ (forall m,
      to_canonical_json (JObj m)
      = ("{" ++ String.concat ","
                  (map item_text (rendered_items (sort_items m))) ++ "}")%string
      /\ StronglySorted key_le (sort_items m)
      /\ Permutation (sort_items m) m)
  /\ (forall d,
      space_free d = true -> has_whitespace (to_canonical_json d) = false).
Proof.
  split; [ | split ].
  - intros d1 d2 H1 H2 H. apply to_canonical_json_py_eq; assumption.
  - intros m. split; [ | split ].
    + apply to_canonical_json_obj.
    + apply sort_items_sorted.
    + apply sort_items_perm.
  - apply to_canonical_json_whitespace.
Qed.

(** ** Canonical JSON can be read back *)

Lemma append_assoc (a b c : string) : ((a ++ b) ++ c = a ++ (b ++ c))%string.
Proof. induction a as [ | x a IH ]; simpl; [ reflexivity | f_equal; exact IH ]. Qed.

Lemma append_cancel_l (a b c : string) : (a ++ b = a ++ c)%string -> b = c.
Proof.
  induction a as [ | x a IH ]; simpl; intros H; [ exact H | ].
  injection H as H. apply IH, H.
Qed.

Lemma delimited_not_numeric r :
  delimited r = true ->
  match r with EmptyString => True | String c _ => numeric c = false end.
Proof.
  destruct r as [ | c r ]; [ trivial | ].
  destruct c as [[] [] [] [] [] [] [] []]; vm_compute; intros H;
    try reflexivity; discriminate.
Qed.

Lemma span_numeric_app d r :
  all_numeric d = true -> delimited r = true ->
  span_numeric (d ++ r) = (d, r).
Proof.
  intros Hd Hr. induction d as [ | c d IH ]; simpl.
  - apply delimited_not_numeric in Hr. destruct r as [ | c r ];
      [ reflexivity | ]. simpl. rewrite Hr. reflexivity.
  - simpl in Hd. apply andb_true_iff in Hd as [Hc Hd].
    rewrite Hc, (IH Hd). reflexivity.
Qed.

Lemma string_of_uint_numeric d :
  all_numeric (NilEmpty.string_of_uint d) = true.
Proof. induction d; simpl; auto. Qed.

Lemma repr_int_numeric z : all_numeric (repr_int z) = true.
Proof.
  unfold repr_int, NilZero.string_of_int, NilZero.string_of_uint.
  destruct (Z.to_int z) as [d | d]; destruct d; simpl;
    auto using string_of_uint_numeric.
Qed.

Lemma repr_int_head z :
  exists c t, repr_int z = String c t /\ numeric c = true.
Proof.
  pose proof (repr_int_numeric z) as H. revert H.
  unfold repr_int, NilZero.string_of_int, NilZero.string_of_uint.
  destruct (Z.to_int z) as [d | d]; destruct d; simpl; intros H;
    eexists; eexists; (split; [ reflexivity | reflexivity ]).
Qed.

Lemma repr_int_parse z :
  option_map Z.of_int (NilZero.int_of_string (repr_int z)) = Some z.
Proof.
  unfold repr_int. rewrite <- (DecimalZ.of_to z) at 2.
  generalize (Z.to_int z). intros i.
  destruct i as [d | d];
    destruct d as [ | d | d | d | d | d | d | d | d | d | d ];
    try reflexivity;
    rewrite NilZero.isi by discriminate; reflexivity.
Qed.

Lemma repr_int_inj z1 z2 : repr_int z1 = repr_int z2 -> z1 = z2.
Proof.
  intros H. pose proof (repr_int_parse z1) as H1.
  rewrite H, repr_int_parse in H1. injection H1 as ->. reflexivity.
Qed.

Lemma repr_int_read z1 z2 r1 r2 :
  delimited r1 = true -> delimited r2 = true ->
  (repr_int z1 ++ r1 = repr_int z2 ++ r2)%string ->
  z1 = z2 /\ r1 = r2.
Proof.
  intros H1 H2 H. apply (f_equal span_numeric) in H.
  rewrite !span_numeric_app in H by (try assumption; apply repr_int_numeric).
  injection H as Hz Hr. split; [ apply repr_int_inj, Hz | exact Hr ].
Qed.

(** An escaped character can be read back. *)
Lemma unescape_head_escape c x :
  unescape_head (escape_char c ++ x) = Some (c, x).
Proof. destruct c as [[] [] [] [] [] [] [] []]; reflexivity. Qed.

Lemma escape_char_not_quote c x y :
  (escape_char c ++ x)%string <> String dquote y.
Proof.
  destruct c as [[] [] [] [] [] [] [] []]; vm_compute; discriminate.
Qed.

Lemma escape_read s1 :
  forall s2 r1 r2,
    (escape s1 ++ String dquote r1 = escape s2 ++ String dquote r2)%string ->
    s1 = s2 /\ r1 = r2.
Proof.
  induction s1 as [ | c1 s1 IH ]; intros [ | c2 s2 ] r1 r2 H.
  - simpl in H. injection H as ->. split; reflexivity.
  - simpl in H. rewrite append_assoc in H. symmetry in H.
    exfalso. exact (escape_char_not_quote _ _ _ H).
  - simpl in H. rewrite append_assoc in H.
    exfalso. exact (escape_char_not_quote _ _ _ H).
  - simpl in H. rewrite !append_assoc in H.
    pose proof (f_equal unescape_head H) as Hu.
    rewrite !unescape_head_escape in Hu. injection Hu as -> Hrest.
    destruct (IH _ _ _ Hrest) as [-> ->]. split; reflexivity.
Qed.

Lemma encode_basestring_read s1 s2 r1 r2 :
  (encode_basestring s1 ++ r1 = encode_basestring s2 ++ r2)%string ->
  s1 = s2 /\ r1 = r2.
Proof.
  unfold encode_basestring. simpl. rewrite !append_assoc. simpl.
  intros H. injection H as H. apply (escape_read _ _ _ _ H).
Qed.

Lemma to_canonical_json_head d r :
  head_kind (to_canonical_json d ++ r) = kind_of d.
Proof.
  destruct d as [ | [] | z | s | l | m ]; try reflexivity.
  simpl. destruct (repr_int_head z) as (c & t & -> & Hc). simpl.
  unfold kind_of_char. revert Hc.
  destruct c as [[] [] [] [] [] [] [] []]; vm_compute; intros Hc;
    try reflexivity; discriminate.
Qed.

Lemma concat_cons x l : String.concat "," (x :: l) = (x ++ sep_tail l)%string.
Proof.
  revert x. induction l as [ | y l IH ]; intros x.
  - simpl. induction x as [ | c x IHx ]; simpl; [ reflexivity | ].
    f_equal. exact IHx.
  - change (String.concat "," (x :: y :: l))
      with (x ++ "," ++ String.concat "," (y :: l))%string.
    rewrite IH. reflexivity.
Qed.

Lemma delimited_sep_tail_bracket l r :
  delimited (sep_tail l ++ String "]" r) = true.
Proof. destruct l; reflexivity. Qed.

Lemma delimited_sep_tail_brace l r :
  delimited (sep_tail l ++ String "}" r) = true.
Proof. destruct l; reflexivity. Qed.

Lemma py_eq_arr l1 l2 :
  Forall2 (fun x y => py_eq x y = true) l1 l2 ->
  py_eq (JArr l1) (JArr l2) = true.
Proof.
  cbn [py_eq]. induction 1 as [ | x y l1 l2 Hxy _ IH ]; [ reflexivity | ].
  rewrite Hxy. exact IH.
Qed.

Lemma In_dict_get k v m :
  NoDup (map fst m) -> In (k, v) m -> dict_get k m = Some v.
Proof.
  induction m as [ | [k' x] m IH ]; simpl; intros Hnd Hin; [ contradiction | ].
  inversion Hnd as [ | ? ? Hk Hnd' ]; subst.
  destruct Hin as [E | Hin].
  - injection E as -> ->. rewrite String.eqb_refl. reflexivity.
  - destruct (String.eqb_spec k k') as [-> | _]; [ | apply IH; assumption ].
    exfalso. apply Hk. apply (in_map fst m (k', v) Hin).
Qed.

Lemma py_eq_obj m1 m2 :
  List.length m1 = List.length m2 ->
  (forall k v, In (k, v) m1 ->
     exists v', dict_get k m2 = Some v' /\ py_eq v v' = true) ->
  py_eq (JObj m1) (JObj m2) = true.
Proof.
  intros Hlen H. cbn [py_eq]. rewrite Hlen, Nat.eqb_refl. cbn [andb].
  induction m1 as [ | [k v] m1 IH ] in H |- *; [ reflexivity | ].
  destruct (H k v (or_introl eq_refl)) as (v' & -> & ->). cbn [andb].
  apply IH. intros k0 v0 Hin. apply H. right. exact Hin.
Qed.

Lemma item_text_rendered s :
  map item_text (rendered_items s) = map item_of s.
Proof. unfold rendered_items. rewrite map_map. reflexivity. Qed.

Lemma String_tail c1 c2 a b : String c1 a = String c2 b -> a = b.
Proof. intros H. injection H as _ H. exact H. Qed.

Lemma sep_tail_cons x l r :
  (sep_tail (x :: l) ++ r)%string = String "," (x ++ (sep_tail l ++ r)).
Proof. simpl. rewrite append_assoc. reflexivity. Qed.

Lemma bracketed_app (opening closing : ascii) l r :
  (String opening (String.concat "," l ++ String closing EmptyString) ++ r)%string
  = String opening
      (match l with
       | [] => String closing r
       | x :: t => x ++ (sep_tail t ++ String closing r)
       end).
Proof.
  destruct l as [ | x t ]; [ reflexivity | ].
  rewrite concat_cons. simpl. rewrite !append_assoc. reflexivity.
Qed.

Lemma to_canonical_json_arr_app l r :
  (to_canonical_json (JArr l) ++ r)%string
  = String "["
      (match map to_canonical_json l with
       | [] => String "]" r
       | x :: t => x ++ (sep_tail t ++ String "]" r)
       end).
Proof. apply (bracketed_app "[" "]"). Qed.

Lemma to_canonical_json_obj_app m r :
  (to_canonical_json (JObj m) ++ r)%string
  = String "{"
      (match map item_of (sort_items m) with
       | [] => String "}" r
       | x :: t => x ++ (sep_tail t ++ String "}" r)
       end).
Proof.
  rewrite to_canonical_json_obj, item_text_rendered.
  apply (bracketed_app "{" "}").
Qed.

Lemma item_of_read k1 v1 k2 v2 x1 x2 :
  (item_of (k1, v1) ++ x1 = item_of (k2, v2) ++ x2)%string ->
  k1 = k2 /\ (to_canonical_json v1 ++ x1 = to_canonical_json v2 ++ x2)%string.
Proof.
  unfold item_of. cbn [fst snd]. rewrite !append_assoc. intros H.
  apply encode_basestring_read in H as [-> H].
  simpl in H. injection H as H. split; [ reflexivity | exact H ].
Qed.

Lemma item_of_not_brace kv x r : (item_of kv ++ x)%string <> String "}" r.
Proof. unfold item_of, encode_basestring. simpl. discriminate. Qed.

(** Reading the elements of an array, and the items of a dict, one
    after the other. *)
Lemma elements_read l1 :
  Forall (fun a =>
            forall b r1 r2,
              well_formed b = true ->
              delimited r1 = true -> delimited r2 = true ->
              (to_canonical_json a ++ r1 = to_canonical_json b ++ r2)%string ->
              py_eq a b = true /\ r1 = r2) l1 ->
  forall l2 r1 r2,
    forallb well_formed l2 = true ->
    (sep_tail (map to_canonical_json l1) ++ String "]" r1
     = sep_tail (map to_canonical_json l2) ++ String "]" r2)%string ->
    Forall2 (fun x y => py_eq x y = true) l1 l2 /\ r1 = r2.
Proof.
  induction 1 as [ | x l1 Hx _ IH ]; intros [ | y l2 ] r1 r2 Hw H.
  - simpl in H. injection H as ->. split; [ constructor | reflexivity ].
  - discriminate.
  - discriminate.
  - cbn [forallb] in Hw. apply andb_true_iff in Hw as [Hwy Hwl].
    cbn [map] in H. rewrite !sep_tail_cons in H. apply String_tail in H.
    destruct (Hx y _ _ Hwy (delimited_sep_tail_bracket _ _)
                (delimited_sep_tail_bracket _ _) H) as [Hxy Hrest].
    destruct (IH _ _ _ Hwl Hrest) as [HF ->].
    split; [ constructor; assumption | reflexivity ].
Qed.

Lemma items_read s1 :
  Forall (fun kv =>
            forall b r1 r2,
              well_formed b = true ->
              delimited r1 = true -> delimited r2 = true ->
              (to_canonical_json (snd kv) ++ r1
               = to_canonical_json b ++ r2)%string ->
              py_eq (snd kv) b = true /\ r1 = r2) s1 ->
  forall s2 r1 r2,
    forallb (fun kv => well_formed (snd kv)) s2 = true ->
    (sep_tail (map item_of s1) ++ String "}" r1
     = sep_tail (map item_of s2) ++ String "}" r2)%string ->
    Forall2 (fun x y => fst x = fst y /\ py_eq (snd x) (snd y) = true) s1 s2
    /\ r1 = r2.
Proof.
  induction 1 as [ | [k1 v1] s1 Hx _ IH ]; intros [ | [k2 v2] s2 ] r1 r2 Hw H.
  - simpl in H. injection H as ->. split; [ constructor | reflexivity ].
  - discriminate.
  - discriminate.
  - cbn [forallb snd] in Hw. apply andb_true_iff in Hw as [Hwy Hwl].
    cbn [map] in H. rewrite !sep_tail_cons in H. apply String_tail in H.
    apply item_of_read in H as [-> H]. cbn [snd] in Hx.
    destruct (Hx v2 _ _ Hwy (delimited_sep_tail_brace _ _)
                (delimited_sep_tail_brace _ _) H) as [Hxy Hrest].
    destruct (IH _ _ _ Hwl Hrest) as [HF ->].
    split; [ constructor; [ split; [ reflexivity | exact Hxy ] | exact HF ]
           | reflexivity ].
Qed.

Lemma well_formed_sorted m :
  forallb (fun kv => well_formed (snd kv)) m = true ->
  forallb (fun kv => well_formed (snd kv)) (sort_items m) = true.
Proof.
  rewrite !forallb_forall. intros H x Hx. apply H.
  apply (Permutation_in _ (sort_items_perm m) Hx).
Qed.

(** A value can be read back from its canonical text, up to the order
    in which the keys were inserted: the text followed by what may
    follow a value determines the value and what follows. *)
Lemma to_canonical_json_read a :
  forall b r1 r2,
    well_formed b = true ->
    delimited r1 = true -> delimited r2 = true ->
    (to_canonical_json a ++ r1 = to_canonical_json b ++ r2)%string ->
    py_eq a b = true /\ r1 = r2.
Proof.
  induction a as [ | b1 | z1 | s1 | l1 IH | m1 IH ] using json_ind;
    intros b r1 r2 Hw Hr1 Hr2 H;
    pose proof (f_equal head_kind H) as Hk;
    rewrite !to_canonical_json_head in Hk;
    destruct b as [ | b2 | z2 | s2 | l2 | m2 ]; try discriminate; clear Hk.
  - simpl in H. injection H as ->. split; reflexivity.
  - destruct b1, b2; simpl in H; try discriminate; injection H as ->;
      split; reflexivity.
  - apply repr_int_read in H as [-> ->]; try assumption.
    split; [ apply Z.eqb_refl | reflexivity ].
  - apply encode_basestring_read in H as [-> ->].
    split; [ apply String.eqb_refl | reflexivity ].
  - rewrite !to_canonical_json_arr_app in H. apply String_tail in H.
    cbn [well_formed] in Hw.
    destruct l1 as [ | x l1 ]; destruct l2 as [ | y l2 ]; cbn [map] in H.
    + injection H as ->. split; reflexivity.
    + exfalso. apply (f_equal head_kind) in H.
      rewrite to_canonical_json_head in H. destruct y; discriminate.
    + exfalso. apply (f_equal head_kind) in H.
      rewrite to_canonical_json_head in H. destruct x; discriminate.
    + apply Forall_cons_iff in IH as [Hx IHl].
      cbn [forallb] in Hw. apply andb_true_iff in Hw as [Hwy Hwl].
      destruct (Hx y _ _ Hwy (delimited_sep_tail_bracket _ _)
                  (delimited_sep_tail_bracket _ _) H) as [Hxy Hrest].
      destruct (elements_read l1 IHl l2 r1 r2 Hwl Hrest) as [HF ->].
      split; [ apply py_eq_arr; constructor; assumption | reflexivity ].
  - cbn [well_formed] in Hw. apply andb_true_iff in Hw as [Hk2 Hv2].
    apply nodup_keys_NoDup in Hk2.
    rewrite !to_canonical_json_obj_app in H. apply String_tail in H.
    assert (IHs : Forall (fun kv =>
              forall b r1 r2,
                well_formed b = true ->
                delimited r1 = true -> delimited r2 = true ->
                (to_canonical_json (snd kv) ++ r1
                 = to_canonical_json b ++ r2)%string ->
                py_eq (snd kv) b = true /\ r1 = r2) (sort_items m1)).
    { eapply Permutation_Forall; [ symmetry; apply sort_items_perm | exact IH ]. }
    pose proof (well_formed_sorted m2 Hv2) as Hws.
    assert (Hread :
              Forall2 (fun x y => fst x = fst y /\ py_eq (snd x) (snd y) = true)
                (sort_items m1) (sort_items m2) /\ r1 = r2).
    { destruct (sort_items m1) as [ | [k1 v1] s1 ];
        destruct (sort_items m2) as [ | [k2 v2] s2 ]; cbn [map] in H.
      - injection H as ->. split; [ constructor | reflexivity ].
      - exfalso. symmetry in H. exact (item_of_not_brace _ _ _ H).
      - exfalso. exact (item_of_not_brace _ _ _ H).
      - apply Forall_cons_iff in IHs as [Hx IHl].
        cbn [forallb snd] in Hws. apply andb_true_iff in Hws as [Hwy Hwl].
        apply item_of_read in H as [-> H]. cbn [snd] in Hx.
        destruct (Hx v2 _ _ Hwy (delimited_sep_tail_brace _ _)
                    (delimited_sep_tail_brace _ _) H) as [Hxy Hrest].
        destruct (items_read s1 IHl s2 r1 r2 Hwl Hrest) as [HF ->].
        split; [ constructor; [ split; [ reflexivity | exact Hxy ] | exact HF ]
               | reflexivity ]. }
    destruct Hread as [HF ->]. split; [ | reflexivity ].
    apply py_eq_obj.
    + rewrite <- (Permutation_length (sort_items_perm m1)),
        <- (Permutation_length (sort_items_perm m2)).
      apply (Forall2_length HF).
    + intros k v Hin.
      apply (Permutation_in _ (Permutation_sym (sort_items_perm m1))) in Hin.
      destruct (Forall2_In_l _ _ _ _ HF Hin) as ([k' v'] & Hin' & Hkk & Hvv).
      cbn [fst snd] in Hkk, Hvv. subst k'.
      apply (Permutation_in _ (sort_items_perm m2)) in Hin'.
      exists v'. split; [ apply In_dict_get; assumption | exact Hvv ].
Qed.

(** Canonicalization loses nothing: values with the same canonical
    text are equal up to the insertion order of their keys. *)
Lemma to_canonical_json_inj a b :
  well_formed b = true ->
  to_canonical_json a = to_canonical_json b ->
  py_eq a b = true.
Proof.
  intros Hw H.
  apply (to_canonical_json_read a b EmptyString EmptyString Hw eq_refl eq_refl).
  rewrite H. reflexivity.
Qed.

Section TamperClaim.

Context {R : Runtime}.

(** C4.  Tamper detection: when the content of a section (the section
    without its [sProof]) is no longer the content whose hash the
    proof stores, whatever was changed in it, and Keccak does not make
    the two canonical texts collide, the result of [verify] for that
    section has [hash_ok] false, and so [ok] false.  Locality: the
    loop body gives the same outcome on two documents that have the
    same object at the section's path, and the results of [verify]
    for that path are the same in both. *)
Theorem tamper_detection_and_locality :
  (forall vc e rs p proof signed,
      In p SECTION_PATHS ->
      verify vc e = Returns rs ->
      present vc p = true ->
      section_proof (_get_by_path vc p) = JObj proof ->
      field "sectionHash" (JObj proof) = JStr (keccak256_hex signed) ->
      well_formed signed = true ->
      py_eq (pop_key "sProof" (_get_by_path vc p)) signed = false ->
      (keccak_hex (to_canonical_json (pop_key "sProof" (_get_by_path vc p)))
       = keccak_hex (to_canonical_json signed) ->
       to_canonical_json (pop_key "sProof" (_get_by_path vc p))
       = to_canonical_json signed) ->
      exists r,
        filter (has_path p) rs = [r]
        /\ field "hash_ok" r = JBool false
        /\ field "ok" r = JBool false)
  /\ (forall vc1 vc2 e results p,
      In p SECTION_PATHS ->
      _get_by_path vc1 p = _get_by_path vc2 p ->
      verify_section vc1 (_strip_eip712 vc1) e results p
      = verify_section vc2 (_strip_eip712 vc2) e results p)
  /\ (forall vc1 vc2 e rs1 rs2 p,
      In p SECTION_PATHS ->
      _get_by_path vc1 p = _get_by_path vc2 p ->
      verify vc1 e = Returns rs1 ->
      verify vc2 e = Returns rs2 ->
      filter (has_path p) rs1 = filter (has_path p) rs2).
Proof.
  split; [ | split ].
  - intros vc e rs p proof signed Hp Hv Hpres Hproof Hstored Hw Hne Hcol.
    assert (Htext : to_canonical_json (pop_key "sProof" (_get_by_path vc p))
                    <> to_canonical_json signed).
    { intros E. apply (to_canonical_json_inj _ _ Hw) in E. congruence. }
    assert (Hdiff : keccak256_hex (pop_key "sProof" (_get_by_path vc p))
                    <> keccak256_hex signed).
    { unfold keccak256_hex. intros E. apply Htext, Hcol, E. }
    destruct (verify_section_Returns vc e rs p Hp Hv) as [r Hr].
    rewrite (verify_filter vc e rs p r Hp Hv Hr).
    rewrite (verify_section_proof_gen vc e [] p proof) in Hr by assumption.
    apply bind_Returns in Hr as (rec & _ & Hr).
    apply bind_Returns in Hr as (x & _ & Hr). injection Hr as <-.
    eexists. split; [ reflexivity | ].
    rewrite section_hash_of_strip by assumption.
    unfold section_entry. rewrite Hstored. cbn [eq_str field dict_get].
    cbn.
    destruct (String.eqb_spec
                (keccak256_hex (pop_key "sProof" (_get_by_path vc p)))
                (keccak256_hex signed)) as [E | _]; [ contradiction | ].
    split; reflexivity.
  - intros vc1 vc2 e results p. apply verify_section_local.
  - intros vc1 vc2 e rs1 rs2 p Hp Heq Hv1 Hv2.
    destruct (verify_section_Returns vc1 e rs1 p Hp Hv1) as [r Hr].
    rewrite (verify_filter vc1 e rs1 p r Hp Hv1 Hr).
    rewrite (verify_section_local vc1 vc2 e [] p Hp Heq) in Hr.
    rewrite (verify_filter vc2 e rs2 p r Hp Hv2 Hr). reflexivity.
Qed.

End TamperClaim.

(* ================================================================= *)
(** * The claims on concrete documents *)

(** C1 as stated fails on the scenario of the specification: with the
    domain named ["T"], templates of three fields and the expected
    addresses derived from the four keys, [issue] returns, and
    [verify] gives three results of which none has [ok] true.  The
    issuer signed under the domain ["T"]; the verifier rebuilds the
    default domain, the proofs embedding none. *)
Lemma scenario_roundtrip_fails :
  (forall role, In role ROLES ->
     exists priv a,
       config_key (Scenario.config "T") role = Returns priv
       /\ private_key_to_address (R := Fake.runtime) priv = Returns a
       /\ field role Scenario.expectedSigners = JStr a)
  /\ exists issued meta results,
      issue (R := Fake.runtime) Scenario.document (Scenario.config "T")
        (JStr zero_address) = Returns (issued, meta)
      /\ verify (R := Fake.runtime) issued Scenario.expectedSigners
         = Returns results
      /\ map (field "path") results
         = [JStr "/credentialSubject/identity";
            JStr "/credentialSubject/custody"; JStr "/"]
      /\ Forall (fun r => field "ok" r = JBool false) results.
Proof.
  split.
  - intros role [<- | [<- | [<- | [<- | []]]]]; eexists; eexists;
      repeat split; vm_compute; reflexivity.
  - destruct (issue (R := Fake.runtime) Scenario.document
                (Scenario.config "T") (JStr zero_address))
      as [ [issued meta] | err ] eqn:H; vm_compute in H; [ | discriminate ].
    injection H as <- <-. eexists. eexists. eexists.
    split; [ reflexivity | ].
    split; [ vm_compute; reflexivity | ].
    split; [ reflexivity | ].
    repeat constructor.
Qed.

Lemma roundtrip_verifies_witness :
  exists issued meta results,
    issue (R := Fake.runtime) Scenario.document (Scenario.config "RWA-VC")
      (JStr zero_address) = Returns (issued, meta)
    /\ verify (R := Fake.runtime) issued Scenario.expectedSigners
       = Returns results
    /\ map (field "path") results
       = [JStr "/credentialSubject/identity";
          JStr "/credentialSubject/custody"; JStr "/"]
    /\ Forall (fun r => field "ok" r = JBool true) results.
Proof.
  destruct (issue (R := Fake.runtime) Scenario.document
              (Scenario.config "RWA-VC") (JStr zero_address))
    as [ [issued meta] | err ] eqn:H; [ | vm_compute in H; discriminate ].
  destruct (roundtrip_verifies (R := Fake.runtime) Fake_laws
              Scenario.document (Scenario.config "RWA-VC") (JStr zero_address)
              Scenario.expectedSigners issued meta
              {| name := JStr "RWA-VC"; version := "1"; chainId := 1;
                 verifyingContract := JStr zero_address |} H)
    as (results & Hv & Hp & Hok).
  - reflexivity.
  - intros p [<- | [<- | [<- | []]]] Hpres;
      try (vm_compute in Hpres; discriminate);
      eexists; repeat split; vm_compute; reflexivity.
  - eexists. repeat split; vm_compute; reflexivity.
  - split; [ reflexivity | ].
    intros role priv a [<- | [<- | [<- | [<- | []]]]] Hk Ha;
      vm_compute in Hk; injection Hk as <-;
      vm_compute in Ha; injection Ha as <-; reflexivity.
  - exists issued, meta, results. repeat split; assumption.
Defined.

Lemma verify_returns_when_recoverable_witness :
  exists results,
    verify (R := Fake.runtime) Samples.unsigned JNull = Returns results
    /\ Forall (fun r => is_result r = true) results
    /\ map (field "path") results
       = [JStr "/credentialSubject/identity"; JStr "/"].
Proof.
  apply (verify_returns_when_recoverable (R := Fake.runtime)
           Samples.unsigned JNull).
  - reflexivity.
  - reflexivity.
  - intros p proof [<- | [<- | [<- | []]]] Hpres Hproof;
      try (vm_compute in Hpres; discriminate).
    vm_compute in Hproof. injection Hproof as <-.
    eexists. vm_compute. reflexivity.
  - intros proof Hproof. vm_compute in Hproof. injection Hproof as <-.
    eexists. vm_compute. reflexivity.
Defined.


Lemma tamper_detection_and_locality_witness :
  exists rs r,
    verify (R := Fake.runtime) Samples.tampered JNull = Returns rs
    /\ filter (has_path "/credentialSubject/identity") rs = [r]
    /\ field "hash_ok" r = JBool false
    /\ field "ok" r = JBool false.
Proof.
  destruct (verify (R := Fake.runtime) Samples.tampered JNull)
    as [ rs | err ] eqn:H; [ | vm_compute in H; discriminate ].
  destruct (proj1 (tamper_detection_and_locality (R := Fake.runtime))
              Samples.tampered JNull rs "/credentialSubject/identity"
              [("type", JStr "Eip712Signature2023");
               ("sectionHash",
                JStr (keccak256_hex (R := Fake.runtime)
                        Samples.signed_content));
               ("proofValue", Samples.stray_signature)]
              Samples.signed_content)
    as (r & Hr & Hh & Hok).
  - simpl. tauto.
  - exact H.
  - reflexivity.
  - reflexivity.
  - reflexivity.
  - reflexivity.
  - reflexivity.
  - intros E. vm_compute in E. discriminate.
  - exists rs, r. repeat split; assumption.
Defined.

Lemma issue_preserves_proof_schema_witness :
  exists issued meta,
    issue (R := Fake.runtime) Scenario.document (Scenario.config "T")
      (JStr zero_address) = Returns (issued, meta)
    /\ keys_of (section_proof
                  (_get_by_path issued "/credentialSubject/identity"))
       = ["type"; "sectionHash"; "proofValue"]
    /\ keys_of (document_proof issued) = ["type"; "sectionHash"; "proofValue"]
    /\ field "sectionHash" (document_proof issued) = JStr EmptyString.
Proof.
  destruct (issue (R := Fake.runtime) Scenario.document
              (Scenario.config "T") (JStr zero_address))
    as [ [issued meta] | err ] eqn:H; [ | vm_compute in H; discriminate ].
  destruct (issue_preserves_proof_schema (R := Fake.runtime)
              Scenario.document (Scenario.config "T") (JStr zero_address)
              issued meta H)
    as (Hsec & (Hdk & _ & Hdf) & _).
  destruct (Hsec "/credentialSubject/identity") as (Hsk & _).
  { simpl. tauto. }
  exists issued, meta. split; [ reflexivity | ].
  split; [ exact Hsk | ]. split; [ exact Hdk | ].
  apply (Hdf "sectionHash"); discriminate.
Defined.

Lemma reissue_same_hashes_witness :
  exists issued meta issued',
    issue (R := Fake.runtime) Scenario.document (Scenario.config "T")
      (JStr zero_address) = Returns (issued, meta)
    /\ issue (R := Fake.runtime) issued (Scenario.config "T")
         (JStr zero_address) = Returns (issued', meta).
Proof.
  destruct (issue (R := Fake.runtime) Scenario.document
              (Scenario.config "T") (JStr zero_address))
    as [ [issued meta] | err ] eqn:H; [ | vm_compute in H; discriminate ].
  destruct (reissue_same_hashes (R := Fake.runtime) Scenario.document
              (Scenario.config "T") (JStr zero_address) issued meta H)
    as (issued' & Hre).
  exists issued, meta, issued'. split; [ reflexivity | exact Hre ].
Defined.

Lemma canonical_json_deterministic_witness :
  well_formed Samples.ordered = true
  /\ well_formed Samples.reordered = true
  /\ py_eq Samples.ordered Samples.reordered = true
  /\ to_canonical_json Samples.ordered = to_canonical_json Samples.reordered
  /\ has_whitespace (to_canonical_json Samples.ordered) = false.
Proof.
  split; [ reflexivity | ]. split; [ reflexivity | ].
  split; [ reflexivity | ]. split.
  - apply (proj1 canonical_json_deterministic); reflexivity.
  - apply (proj2 (proj2 canonical_json_deterministic)). reflexivity.
Defined.

Lemma missing_proof_results_witness :
  verify (R := Fake.runtime) Samples.bare JNull
  = Returns [JObj [("path", JStr "/credentialSubject/identity");
                   ("ok", JBool false); ("reason", JStr "missing sProof")];
             JObj [("path", JStr "/"); ("ok", JBool false);
                   ("reason", JStr "missing proof")]].
Proof.
  apply (proj2 (proj2 (missing_proof_results (R := Fake.runtime)
                         Samples.bare JNull))
           [JObj [("path", JStr "/credentialSubject/identity");
                  ("ok", JBool false); ("reason", JStr "missing sProof")]]).
  - reflexivity.
  - reflexivity.
  - unfold SECTION_PATHS. cbn [for_each].
    rewrite (proj1 (missing_proof_results (R := Fake.runtime)
                      Samples.bare JNull)
               "/credentialSubject/identity" []) by reflexivity.
    vm_compute. reflexivity.
Defined.

Lemma issue_always_signs_document_witness :
  (exists d3 meta3,
      for_each
        (issue_section (R := Fake.runtime) IssueSamples.domain_T
           (_strip_existing_eip712 Scenario.document))
        (section_items (JStr "key-identity") (JStr "key-compliance")
           (JStr "key-custody"))
        (Scenario.document, []) = Returns (d3, meta3))
  /\ config_key IssueSamples.section_keys_only "document" = Returns JNull
  /\ issue (R := Fake.runtime) Scenario.document IssueSamples.section_keys_only
       (JStr zero_address) = Raises SigningError
  /\ exists d3 meta3,
      issue (R := Fake.runtime) Samples.bare (Scenario.config "T")
        (JStr zero_address)
      = Returns (d3,
                 meta3 ++
                 [JObj [("path", JStr "/");
                        ("documentHash",
                         JStr (keccak256_hex (R := Fake.runtime)
                                 (_strip_existing_eip712 Samples.bare)))]])
      /\ document_proof d3 = JNull.
Proof.
  split; [ eexists; eexists; vm_compute; reflexivity | ].
  split; [ reflexivity | ].
  split.
  - destruct (for_each
                (issue_section (R := Fake.runtime) IssueSamples.domain_T
                   (_strip_existing_eip712 Scenario.document))
                (section_items (JStr "key-identity") (JStr "key-compliance")
                   (JStr "key-custody"))
                (Scenario.document, []))
      as [ [d3 meta3] | err ] eqn:Hloop; [ | vm_compute in Hloop; discriminate ].
    apply (proj1 (proj2 (proj1 (issue_always_signs_document
                                  (R := Fake.runtime) Fake_laws
                                  Scenario.document
                                  IssueSamples.section_keys_only
                                  (JStr zero_address))
                           IssueSamples.domain_T
                           (JStr "key-identity") (JStr "key-compliance")
                           (JStr "key-custody") JNull d3 meta3
                           eq_refl eq_refl eq_refl eq_refl eq_refl Hloop
                           eq_refl))).
    reflexivity.
  - destruct (for_each
                (issue_section (R := Fake.runtime) IssueSamples.domain_T
                   (_strip_existing_eip712 Samples.bare))
                (section_items (JStr "key-identity") (JStr "key-compliance")
                   (JStr "key-custody"))
                (Samples.bare, []))
      as [ [d3 meta3] | err ] eqn:Hloop; [ | vm_compute in Hloop; discriminate ].
    destruct (sign_typed_data (R := Fake.runtime) (JStr "key-document")
                (build_document_typed_data IssueSamples.domain_T
                   (keccak256_hex (R := Fake.runtime)
                      (_strip_existing_eip712 Samples.bare))))
      as [ [sig signer] | err ] eqn:Hsign; [ | vm_compute in Hsign; discriminate ].
    destruct (proj2 (proj2 (proj2 (proj1 (issue_always_signs_document
                                            (R := Fake.runtime) Fake_laws
                                            Samples.bare (Scenario.config "T")
                                            (JStr zero_address))
                                     IssueSamples.domain_T
                                     (JStr "key-identity")
                                     (JStr "key-compliance")
                                     (JStr "key-custody")
                                     (JStr "key-document") d3 meta3
                                     eq_refl eq_refl eq_refl eq_refl eq_refl
                                     Hloop eq_refl)))
                sig signer Hsign) as (Hret & Hsame & _).
    exists (signed_document sig d3), meta3. split; [ apply Hret; reflexivity | ].
    rewrite Hsame by reflexivity.
    vm_compute in Hloop. injection Hloop as <- _. reflexivity.
Defined.

Lemma verify_raises_on_empty_signature_witness :
  verify (R := Fake.runtime) IssueSamples.root_without_signature
    (JObj [("document", JStr (Fake.address "key-document"))])
  = Raises RecoveryError
  /\ exists err,
      verify (R := Fake.runtime) IssueSamples.section_without_signature JNull
      = Raises err.
Proof.
  pose proof (verify_raises_on_empty_signature (R := Fake.runtime) Fake_laws
                IssueSamples.root_without_signature
                (JObj [("document", JStr (Fake.address "key-document"))]))
    as (Hroot & _).
  pose proof (verify_raises_on_empty_signature (R := Fake.runtime) Fake_laws
                IssueSamples.section_without_signature JNull)
    as (_ & _ & Hsection & _).
  split.
  - eapply (Hroot [("type", JStr "Eip712Signature2023")] []); reflexivity.
  - apply (Hsection "/credentialSubject/identity"
             [("type", JStr "Eip712Signature2023")]);
      [ simpl; tauto | reflexivity | reflexivity | reflexivity ].
Defined.

Lemma document_result_ok_iff_type_witness :
  verify (R := Fake.runtime) Samples.typed_only JNull
  = Returns [JObj [("path", JStr "/"); ("ok", JBool true);
                   ("recovered", JStr "0xForged"); ("expected", JNull)]].
Proof.
  apply (proj1 (document_result_ok_iff_type (R := Fake.runtime)
                  Samples.typed_only JNull
                  [("type", JStr "Eip712Signature2023");
                   ("proofValue", Samples.stray_signature)]
                  [] "0xForged"
                  eq_refl eq_refl eq_refl eq_refl eq_refl eq_refl)).
Defined.

(* ================================================================= *)
(** * Further properties of the code *)

(** ** Paths *)

Lemma str_split_nonempty sep s : str_split sep s <> [].
Proof.
  destruct s as [ | c s ]; simpl; [ discriminate | ].
  destruct (Ascii.eqb c sep); [ discriminate | ].
  destruct (str_split sep s); discriminate.
Qed.

Lemma str_split_app sep a b :
  str_split sep (a ++ String sep b) = str_split sep a ++ str_split sep b.
Proof.
  induction a as [ | c a IH ]; simpl.
  - rewrite Ascii.eqb_refl. reflexivity.
  - destruct (Ascii.eqb c sep); [ rewrite IH; reflexivity | ].
    rewrite IH. pose proof (str_split_nonempty sep a) as Hne.
    destruct (str_split sep a) as [ | w ws ]; [ contradiction | reflexivity ].
Qed.

Lemma path_parts_app a b :
  path_parts (a ++ String "/" b) = path_parts a ++ path_parts b.
Proof. unfold path_parts. rewrite str_split_app, filter_app. reflexivity. Qed.

Lemma walk_null ps : walk ps JNull = JNull.
Proof. destruct ps; reflexivity. Qed.

Lemma walk_app ps qs d : walk (ps ++ qs) d = walk qs (walk ps d).
Proof.
  revert d. induction ps as [ | p ps IH ]; intros d; [ reflexivity | ].
  simpl. destruct d as [ | | | | | m ]; try (symmetry; apply walk_null).
  destruct (dict_get p m); [ apply IH | symmetry; apply walk_null ].
Qed.

(** X1.  Looking up a path made of two paths joined by a slash is
    looking up the second in what the first leads to, a missing first
    part included; the empty path and the path ["/"] lead to the
    document itself; and in a value that is no dict every path with a
    segment leads to [None]. *)
Theorem get_by_path_composes :
  (forall doc a b,
      _get_by_path doc (a ++ String "/" b) = _get_by_path (_get_by_path doc a) b)
  /\ (forall doc, _get_by_path doc EmptyString = doc)
  /\ (forall doc, _get_by_path doc "/" = doc)
  /\ (forall v p,
      is_dict v = false -> path_parts p <> [] -> _get_by_path v p = JNull).
Proof.
  split; [ | split; [ | split ] ].
  - intros doc a b. unfold _get_by_path. rewrite path_parts_app. apply walk_app.
  - reflexivity.
  - reflexivity.
  - intros v p Hv Hp. unfold _get_by_path.
    destruct (path_parts p) as [ | q qs ]; [ contradiction | ].
    destruct v; try reflexivity. discriminate.
Qed.

Lemma get_by_path_composes_witness :
  _get_by_path Scenario.document "/credentialSubject/identity"
  = _get_by_path (_get_by_path Scenario.document "/credentialSubject")
      "identity"
  /\ _get_by_path (JArr [JNum 1]) "/a" = JNull.
Proof.
  split.
  - apply (proj1 get_by_path_composes Scenario.document
             "/credentialSubject" "identity").
  - apply (proj2 (proj2 (proj2 get_by_path_composes))).
    + reflexivity.
    + discriminate.
Defined.

(** ** Stripping, again *)









(** ** Canonical JSON, again *)

Lemma has_control_app a b :
  has_control (a ++ b) = has_control a || has_control b.
Proof.
  induction a as [ | c a IH ]; simpl; [ reflexivity | ].
  rewrite IH, orb_assoc. reflexivity.
Qed.

Lemma has_control_concat sep l :
  has_control sep = false ->
  Forall (fun s => has_control s = false) l ->
  has_control (String.concat sep l) = false.
Proof.
  intros Hsep. induction 1 as [ | s l Hs Hl IH ]; [ reflexivity | ].
  destruct l as [ | s' l ]; [ exact Hs | ].
  change (String.concat sep (s :: s' :: l))
    with (s ++ sep ++ String.concat sep (s' :: l))%string.
  rewrite !has_control_app, Hs, Hsep, IH. reflexivity.
Qed.

Lemma escape_char_control c : has_control (escape_char c) = false.
Proof. destruct c as [[] [] [] [] [] [] [] []]; vm_compute; reflexivity. Qed.

Lemma escape_control s : has_control (escape s) = false.
Proof.
  induction s as [ | c s IH ]; simpl; [ reflexivity | ].
  rewrite has_control_app, escape_char_control, IH. reflexivity.
Qed.

Lemma encode_basestring_control s : has_control (encode_basestring s) = false.
Proof.
  unfold encode_basestring. cbn [has_control].
  rewrite has_control_app, escape_control. reflexivity.
Qed.

Lemma string_of_uint_control d :
  has_control (NilEmpty.string_of_uint d) = false.
Proof. induction d; simpl; auto. Qed.

Lemma repr_int_control z : has_control (repr_int z) = false.
Proof.
  unfold repr_int, NilZero.string_of_int, NilZero.string_of_uint.
  destruct (Z.to_int z) as [d | d]; destruct d; simpl;
    auto using string_of_uint_control.
Qed.

Lemma to_canonical_json_control d : has_control (to_canonical_json d) = false.
Proof.
  induction d as [ | b | z | s | l IH | m IH ] using json_ind.
  - reflexivity.
  - destruct b; reflexivity.
  - apply repr_int_control.
  - apply encode_basestring_control.
  - cbn [to_canonical_json].
    change (has_control
              ("[" ++ String.concat "," (map to_canonical_json l) ++ "]")
            = false).
    rewrite !has_control_app, has_control_concat; [ reflexivity .. | ].
    rewrite Forall_forall in IH |- *.
    intros x Hx. apply in_map_iff in Hx as (v & <- & Hv). apply IH, Hv.
  - cbn [to_canonical_json]. fold (rendered_items m).
    change (has_control
              ("{" ++ String.concat ","
                        (map item_text (sort_items (rendered_items m)))
               ++ "}") = false).
    rewrite !has_control_app, has_control_concat; [ reflexivity .. | ].
    rewrite Forall_forall in IH |- *.
    intros x Hx. apply in_map_iff in Hx as (kt & <- & Hkt).
    apply (Permutation_in _ (sort_items_perm _)) in Hkt.
    apply in_map_iff in Hkt as ([k v] & <- & Hkv).
    unfold item_text. cbn [fst snd].
    rewrite !has_control_app, encode_basestring_control.
    pose proof (IH _ Hkv) as Hvw. cbn [snd] in Hvw.
    rewrite Hvw. reflexivity.
Qed.

Section CanonicalHash.

Context {R : Runtime}.


End CanonicalHash.


(** X4.  The canonical text is one line of text: it holds no character
    below 0x20 (no line feed, carriage return or tab), whatever the
    strings of the value hold, since every such character of a key or
    a string is written as an escape. *)
Theorem canonical_json_is_one_line (d : json) :
  has_control (to_canonical_json d) = false.
Proof. apply to_canonical_json_control. Qed.

(** ** crypto.py: signing and recovery *)

Section Signing.

Context {R : Runtime}.

(** X5.  Signing and recovery fit together.  [sign_typed_data] returns
    exactly when the key gives an account and the typed data can be
    encoded; the signer it reports is the address that
    [private_key_to_address] derives from the key, and
    [recover_typed_data_signer] on the same typed data and the
    signature returns that address.  A missing key makes signing
    raise, and the empty signature makes recovery raise. *)
Theorem sign_recover_agree (laws : RuntimeLaws R) (priv typed : json) :
  (forall sig signer,
      sign_typed_data priv typed = Returns (sig, signer) ->
      recover_typed_data_signer typed (JStr sig) = Returns signer
      /\ private_key_to_address priv = Returns signer)
  /\ (signable priv typed
      <-> (exists a, private_key_to_address priv = Returns a)
          /\ exists enc, encode_typed_data typed = Some enc)
  /\ (exists e, sign_typed_data JNull typed = Raises e)
  /\ (exists e,
        recover_typed_data_signer typed (JStr EmptyString) = Raises e).
Proof.
  split; [ intros sig signer; apply (sign_then_recover laws) | ].
  split; [ | split ].
  - unfold signable, sign_typed_data, private_key_to_address. split.
    + intros (sig & signer & H).
      destruct (Account_from_key priv) as [acct | ]; [ | discriminate ].
      cbn [of_option bind] in *.
      destruct (encode_typed_data typed) as [enc | ]; [ | discriminate ].
      split; eexists; reflexivity.
    + intros [[a Ha] [enc Henc]].
      destruct (Account_from_key priv) as [acct | ]; [ | discriminate ].
      rewrite Henc. cbn [of_option bind]. eexists. eexists. reflexivity.
  - unfold sign_typed_data. rewrite (from_key_None R laws).
    eexists. reflexivity.
  - unfold recover_typed_data_signer.
    destruct (encode_typed_data typed) as [enc | ];
      [ | eexists; reflexivity ].
    cbn [of_option bind]. rewrite (recover_empty R laws).
    eexists. reflexivity.
Qed.

End Signing.

Lemma sign_recover_agree_witness :
  RuntimeLaws Fake.runtime
  /\ recover_typed_data_signer (R := Fake.runtime) (JStr "m")
       (JStr ("key|" ++ to_canonical_json (JStr "m"))%string)
     = Returns (Fake.address "key").
Proof.
  split; [ exact Fake_laws | ].
  apply (proj1 (sign_recover_agree (R := Fake.runtime) Fake_laws
                  (JStr "key") (JStr "m"))).
  reflexivity.
Defined.

(** ** Issuance, again *)

Lemma signed_section_twice h sig x :
  signed_section h sig (signed_section h sig x) = signed_section h sig x.
Proof.
  unfold signed_section, _update_section_proof.
  destruct x as [ | | | | | m ]; try reflexivity. cbn [py_get bind].
  destruct (dict_get "sProof" m) as [ [ | | | | | proof ] | ] eqn:G;
    cbn [py_get bind]; rewrite ?G; try reflexivity.
  rewrite dict_get_update_same, G. cbn [option_map].
  f_equal. rewrite dict_update_twice. apply dict_update_at. intros v _.
  f_equal. unfold set_if_present.
  rewrite !(dict_update_comm "type") by discriminate.
  rewrite !(dict_update_twice "type").
  rewrite !(dict_update_comm "sectionHash") by discriminate.
  rewrite !(dict_update_twice "sectionHash").
  rewrite !(dict_update_twice "proofValue").
  reflexivity.
Qed.

Lemma signed_document_twice sig d :
  signed_document sig (signed_document sig d) = signed_document sig d.
Proof.
  unfold signed_document, _update_top_proof.
  destruct d as [ | | | | | m ]; try reflexivity. cbn [py_get bind].
  destruct (dict_get "proof" m) as [ [ | | | | | proof ] | ] eqn:G;
    cbn [py_get bind]; rewrite ?G; try reflexivity.
  rewrite dict_get_update_same, G. cbn [option_map].
  f_equal. rewrite dict_update_twice. apply dict_update_at. intros v _.
  f_equal. unfold set_if_present.
  rewrite !(dict_update_comm "type") by discriminate.
  rewrite !(dict_update_twice "type").
  rewrite !(dict_update_twice "proofValue").
  reflexivity.
Qed.

Lemma signed_document_mutate_section sig d p f :
  In p SECTION_PATHS ->
  signed_document sig (mutate_at d p f)
  = mutate_at (signed_document sig d) p f.
Proof.
  intros Hp. rewrite !signed_document_eq.
  destruct (section_path_parts p Hp) as [s Hs].
  unfold mutate_at. rewrite Hs. apply mutate_parts_comm. reflexivity.
Qed.

Lemma section_hash_of_present vc p :
  In p SECTION_PATHS -> present vc p = true ->
  py_or (_get_by_path (_strip_existing_eip712 vc) p) (JObj [])
  = pop_key "sProof" (_get_by_path vc p).
Proof.
  intros Hp Hpres. rewrite get_strip by exact Hp. unfold present in Hpres.
  destruct (_get_by_path vc p) as [ | | | | | m ]; try discriminate.
  cbn [pop_key]. unfold py_or. cbn [truthy].
  destruct (dict_pop "sProof" m); reflexivity.
Qed.

Section IssuanceFurther.

Context {R : Runtime}.

(** The section loop returns when every content it hashes can be
    hashed and every key it uses signs. *)
Lemma issue_sections_total domain clean items :
  forall d meta,
    (forall p, In p (map fst items) -> In p SECTION_PATHS) ->
    NoDup (map fst items) ->
    (forall p priv, In (p, priv) items -> present d p = true ->
       hashable (section_content clean p) = true
       /\ signable priv
            (build_section_typed_data domain p (section_hash_of clean p))) ->
    exists d' meta',
      for_each (issue_section domain clean) items (d, meta)
      = Returns (d', meta').
Proof.
  induction items as [ | [p priv] items IH ]; intros d meta Hin Hnd Hsign.
  - eexists. eexists. reflexivity.
  - cbn [for_each]. rewrite issue_section_eq. cbn [map fst] in Hin, Hnd.
    assert (Hp : In p SECTION_PATHS) by (apply Hin; left; reflexivity).
    assert (Hin' : forall q, In q (map fst items) -> In q SECTION_PATHS)
      by (intros q Hq; apply Hin; right; exact Hq).
    inversion Hnd as [ | ? ? Hnotin Hnd' ]; subst.
    destruct (present d p) eqn:Hpres.
    + destruct (Hsign p priv (or_introl eq_refl) Hpres)
        as (Hhash & sig & signer & Hs).
      rewrite Hhash, Hs. cbn [bind]. apply IH; [ exact Hin' | exact Hnd' | ].
      intros q priv' Hq Hpq.
      assert (Hq' : In q (map fst items))
        by (apply in_map_iff; exists (q, priv'); split;
            [ reflexivity | exact Hq ]).
      apply Hsign; [ right; exact Hq | ].
      rewrite present_mutate_other in Hpq;
        [ exact Hpq | exact Hp | apply Hin', Hq' | ].
      intros ->. contradiction.
    + cbn [bind]. apply IH; [ exact Hin' | exact Hnd' | ].
      intros q priv' Hq Hpq. apply Hsign; [ right; exact Hq | exact Hpq ].
Qed.

(** Run on its own outcome, the section loop changes nothing. *)
Lemma issue_sections_fix domain clean items :
  forall d meta d' meta',
    for_each (issue_section domain clean) items (d, meta)
    = Returns (d', meta') ->
    (forall p, In p (map fst items) -> In p SECTION_PATHS) ->
    NoDup (map fst items) ->
    for_each (issue_section domain clean) items (d', meta)
    = Returns (d', meta').
Proof.
  induction items as [ | [p priv] items IH ]; intros d meta d' meta' Hrun Hin Hnd.
  - cbn in *. injection Hrun as <- <-. reflexivity.
  - destruct (issue_sections_inv _ _ _ _ _ _ _ Hrun Hin Hnd)
      as (Hstrip & _ & _ & _ & Hsigned & _).
    cbn [for_each] in Hrun |- *. rewrite issue_section_eq in Hrun |- *.
    cbn [map fst] in Hin, Hnd.
    assert (Hp : In p SECTION_PATHS) by (apply Hin; left; reflexivity).
    assert (Hin' : forall q, In q (map fst items) -> In q SECTION_PATHS)
      by (intros q Hq; apply Hin; right; exact Hq).
    inversion Hnd as [ | ? ? Hnotin Hnd' ]; subst.
    assert (Hpres' : present d' p = present d p).
    { rewrite <- (present_strip d'), <- (present_strip d) by exact Hp.
      rewrite Hstrip. reflexivity. }
    rewrite Hpres'. destruct (present d p) eqn:Hpres.
    + destruct (Hsigned p priv (or_introl eq_refl) Hpres)
        as (sig & signer & Hs & Hg).
      destruct (hashable (section_content clean p)); [ | discriminate ].
      rewrite Hs in Hrun |- *. cbn [bind] in Hrun |- *.
      rewrite (mutate_at_id d' p).
      * apply (IH _ _ _ _ Hrun Hin' Hnd').
      * rewrite Hg. apply signed_section_twice.
    + cbn [bind] in Hrun |- *. apply (IH _ _ _ _ Hrun Hin' Hnd').
Qed.

(** The section loop does not look at the root proof. *)
Lemma issue_sections_signed_document domain clean sig items :
  forall d meta d' meta',
    for_each (issue_section domain clean) items (d, meta)
    = Returns (d', meta') ->
    (forall p, In p (map fst items) -> In p SECTION_PATHS) ->
    for_each (issue_section domain clean) items (signed_document sig d, meta)
    = Returns (signed_document sig d', meta').
Proof.
  induction items as [ | [p priv] items IH ]; intros d meta d' meta' Hrun Hin.
  - cbn in *. injection Hrun as <- <-. reflexivity.
  - cbn [for_each] in Hrun |- *. rewrite issue_section_eq in Hrun |- *.
    cbn [map fst] in Hin.
    assert (Hp : In p SECTION_PATHS) by (apply Hin; left; reflexivity).
    assert (Hin' : forall q, In q (map fst items) -> In q SECTION_PATHS)
      by (intros q Hq; apply Hin; right; exact Hq).
    assert (Hpres' : present (signed_document sig d) p = present d p).
    { unfold present. rewrite get_signed_document by exact Hp. reflexivity. }
    rewrite Hpres'. destruct (present d p).
    + destruct (hashable (section_content clean p)); [ | discriminate ].
      destruct (sign_typed_data priv _) as [ [sg signer] | e ];
        [ | discriminate ].
      cbn [bind] in Hrun |- *.
      rewrite <- signed_document_mutate_section by exact Hp.
      apply (IH _ _ _ _ Hrun Hin').
    + cbn [bind] in Hrun |- *. apply (IH _ _ _ _ Hrun Hin').
Qed.

(** X6.  [issue] returns exactly when the configuration can be read
    (its [domain] and [keys] are dicts and the chain id is an
    integer), the credential is a dict, everything that is hashed can
    be hashed (the canonical text of the proof-free document, and of
    the content of every section that is present, encodes in UTF-8:
    no string holds a lone surrogate), the key of every section that
    is present signs the Section message of that section, and the key
    configured for the document signs the Document message.  The key
    of a section that is absent is not used: it may be missing or
    malformed.  A text that does not encode makes
    [keccak256_json] raise [UnicodeEncodeError]. *)
Theorem issue_returns_iff (vc keys_cfg verifying_contract : json) :
  ((exists issued meta,
       issue vc keys_cfg verifying_contract = Returns (issued, meta))
   <->
   (exists domain k1 k2 k3 k4,
       config_domain keys_cfg verifying_contract = Returns domain
       /\ config_key keys_cfg "identity" = Returns k1
       /\ config_key keys_cfg "compliance" = Returns k2
       /\ config_key keys_cfg "custody" = Returns k3
       /\ config_key keys_cfg "document" = Returns k4
       /\ is_dict vc = true
       /\ hashable (_strip_existing_eip712 vc) = true
       /\ (forall p priv, In (p, priv) (section_items k1 k2 k3) ->
           present vc p = true ->
           hashable (section_content (_strip_existing_eip712 vc) p) = true
           /\ signable priv
                (build_section_typed_data domain p
                   (section_hash_of (_strip_existing_eip712 vc) p)))
       /\ signable k4
            (build_document_typed_data domain
               (keccak256_hex (_strip_existing_eip712 vc)))))
  /\ (forall data,
      keccak256_json data
      = if hashable data then Returns (keccak256_hex data)
        else Raises UnicodeEncodeError).
Proof.
  split; [ | apply keccak256_json_eq ].
  split.
  - intros (issued & meta & H).
    pose proof (issue_Returns_hashable _ _ _ _ _ H) as [Hhd Hhs].
    apply issue_Returns_inv in H
      as (domain & k1 & k2 & k3 & k4 & d3 & sig_doc & signer_doc & H).
    destruct H as (Hdom & Hk1 & Hk2 & Hk3 & Hk4 & Hvc & _ & _ & _ & Hsigned
                   & Hsign & _).
    exists domain, k1, k2, k3, k4. repeat split; try assumption.
    + apply Hhs; [ | assumption ].
      change SECTION_PATHS with (map fst (section_items k1 k2 k3)).
      apply in_map_iff. exists (p, priv). split; [ reflexivity | assumption ].
    + destruct (Hsigned p priv H H0) as (sig & signer & Hs & _).
      exists sig, signer. exact Hs.
    + exists sig_doc, signer_doc. exact Hsign.
  - intros (domain & k1 & k2 & k3 & k4 & Hdom & Hk1 & Hk2 & Hk3 & Hk4 & Hvc
            & Hhd & Hsec & (sig & signer & Hsign)).
    rewrite issue_eq, Hdom, Hk1, Hk2, Hk3, Hk4. cbn [bind].
    unfold issue_with.
    destruct (issue_sections_total domain (_strip_existing_eip712 vc)
                (section_items k1 k2 k3) vc [] (fun p Hp => Hp)
                SECTION_PATHS_NoDup Hsec) as (d3 & meta3 & Hloop).
    rewrite Hloop. cbn [bind]. cbn beta iota zeta.
    destruct (issue_sections_inv _ _ _ _ _ _ _ Hloop (fun p Hp => Hp)
                SECTION_PATHS_NoDup) as (Hstrip & _ & Hdict & _).
    rewrite Hstrip, keccak256_json_eq, Hhd. cbn [bind]. rewrite Hsign.
    cbn [bind]. cbn beta iota zeta.
    rewrite Hvc in Hdict. destruct d3 as [ | | | | | m ]; try discriminate.
    rewrite update_top_Returns. cbn [bind]. eexists. eexists. reflexivity.
Qed.

(** X7.  An issued credential is a fixed point of issuance: issuing it
    again with the same configuration returns the same credential,
    proof values included, with the same proof records. *)
Theorem reissue_returns_same_credential
  (vc keys_cfg verifying_contract issued : json) (meta : list json) :
  issue vc keys_cfg verifying_contract = Returns (issued, meta) ->
  issue issued keys_cfg verifying_contract = Returns (issued, meta).
Proof.
  intros H. pose proof (strip_issued _ _ _ _ _ H) as Hs.
  rewrite issue_eq in H |- *.
  destruct (config_domain keys_cfg verifying_contract) as [domain | e];
    [ | discriminate ]. cbn [bind] in *.
  destruct (config_key keys_cfg "identity") as [k1 | e]; [ | discriminate ].
  cbn [bind] in *.
  destruct (config_key keys_cfg "compliance") as [k2 | e]; [ | discriminate ].
  cbn [bind] in *.
  destruct (config_key keys_cfg "custody") as [k3 | e]; [ | discriminate ].
  cbn [bind] in *.
  destruct (config_key keys_cfg "document") as [k4 | e]; [ | discriminate ].
  cbn [bind] in *. unfold issue_with in *. rewrite Hs.
  destruct (for_each _ (section_items k1 k2 k3) (vc, []))
    as [ [d3 meta3] | e ] eqn:Hloop; [ | discriminate ].
  cbn [bind] in H. cbn beta iota zeta in H.
  destruct (issue_sections_inv _ _ _ _ _ _ _ Hloop (fun p Hp => Hp)
              SECTION_PATHS_NoDup) as (Hstrip & _ & _).
  rewrite Hstrip in H.
  destruct (keccak256_json (_strip_existing_eip712 vc)) as [h | e] eqn:Hhash;
    [ | discriminate ]. cbn [bind] in H.
  destruct (sign_typed_data k4 _) as [ [sig signer] | e ] eqn:Hsign;
    [ | discriminate ].
  cbn [bind] in H. cbn beta iota zeta in H.
  destruct d3 as [ | | | | | m ]; try discriminate.
  rewrite update_top_Returns in H. cbn [bind] in H.
  injection H as Hissued Hmeta.
  pose proof (issue_sections_fix _ _ _ _ _ _ _ Hloop (fun p Hp => Hp)
                SECTION_PATHS_NoDup) as Hfix.
  apply (issue_sections_signed_document _ _ sig) in Hfix;
    [ | intros p Hp; exact Hp ].
  rewrite Hissued in Hfix. rewrite Hfix. cbn [bind]. cbn beta iota zeta.
  rewrite Hs, Hhash. cbn [bind]. rewrite Hsign. cbn [bind].
  cbn beta iota zeta.
  assert (E : _update_top_proof issued sig = Returns issued).
  { assert (Hd : is_dict issued = true)
      by (rewrite <- Hissued, signed_document_eq; reflexivity).
    destruct issued as [ | | | | | mi ]; try discriminate.
    rewrite update_top_Returns, <- Hissued, signed_document_twice.
    reflexivity. }
  rewrite E. cbn [bind]. rewrite Hmeta. reflexivity.
Qed.

End IssuanceFurther.

Section IssuedSections.

Context {R : Runtime}.

(** X8.  Each section is signed under its own role.  For a section
    that is present, the key that signs is the one configured under
    the role that the verifier derives from the path
    ([_role_for_path]); the message carries the path and the hash of
    the section without its [sProof]; the issued [sProof] is the
    input's with that hash and that signature written into the fields
    that exist, the rest of the section is untouched, and the proof
    records hold the path with that hash.  A section that is absent is
    left as it is and gets no record. *)
Theorem issue_signs_each_section_under_its_role
  (vc keys_cfg verifying_contract issued : json) (meta : list json) :
  issue vc keys_cfg verifying_contract = Returns (issued, meta) ->
  (forall p, In p SECTION_PATHS -> present vc p = true ->
     exists role priv domain sig signer,
       _role_for_path p = JStr role
       /\ config_key keys_cfg role = Returns priv
       /\ config_domain keys_cfg verifying_contract = Returns domain
       /\ sign_typed_data priv
            (build_section_typed_data domain p
               (keccak256_hex (pop_key "sProof" (_get_by_path vc p))))
          = Returns (sig, signer)
       /\ section_proof (_get_by_path issued p)
          = seal_section
              (keccak256_hex (pop_key "sProof" (_get_by_path vc p))) sig
              (section_proof (_get_by_path vc p))
       /\ pop_key "sProof" (_get_by_path issued p)
          = pop_key "sProof" (_get_by_path vc p)
       /\ In (section_record p
                (keccak256_hex (pop_key "sProof" (_get_by_path vc p))))
            meta)
  /\ (forall p, In p SECTION_PATHS -> present vc p = false ->
      _get_by_path issued p = _get_by_path vc p
      /\ forall h, ~ In (section_record p h) meta).
Proof.
  intros H. apply issue_Returns_inv in H
    as (domain & k1 & k2 & k3 & k4 & d3 & sig_doc & signer_doc & H).
  destruct H as (Hdom & Hk1 & Hk2 & Hk3 & Hk4 & Hvc & _ & _ & Habsent
                 & Hsigned & _ & -> & ->).
  split.
  - intros p Hp Hpres.
    destruct (section_items_In k1 k2 k3 p Hp) as [priv Hin].
    destruct (section_items_role keys_cfg k1 k2 k3 p priv Hk1 Hk2 Hk3 Hin)
      as (role & Hrole & _ & _ & Hkey).
    destruct (Hsigned p priv Hin Hpres) as (sig & signer & Hs & Hg).
    unfold section_hash_of in Hs, Hg.
    rewrite section_hash_of_present in Hs, Hg by assumption.
    exists role, priv, domain, sig, signer.
    rewrite get_signed_document by exact Hp. rewrite Hg.
    repeat split; try assumption.
    + apply section_proof_signed.
    + apply signed_section_pop.
    + apply in_or_app. left.
      apply in_map_iff. exists p. split.
      * unfold section_hash_of.
        rewrite section_hash_of_present by assumption. reflexivity.
      * apply filter_In. split; assumption.
  - intros p Hp Hpres. split.
    + rewrite get_signed_document by exact Hp. apply Habsent; assumption.
    + intros h Hin. apply in_app_or in Hin as [Hin | [Hin | []]].
      * apply in_map_iff in Hin as (q & Hq & Hfil).
        injection Hq as -> _. apply filter_In in Hfil as [_ Hq].
        rewrite Hq in Hpres. discriminate.
      * injection Hin as Hroot _.
        apply (section_path_not_root p Hp). symmetry. exact Hroot.
Qed.

End IssuedSections.

Lemma issue_returns_iff_witness :
  (exists issued meta,
      issue (R := Fake.runtime) Samples.bare (Scenario.config "T")
        (JStr zero_address) = Returns (issued, meta))
  /\ keccak256_json (R := Fake.runtime) IssueSamples.with_lone_surrogate
     = Raises UnicodeEncodeError
  /\ issue (R := Fake.runtime) IssueSamples.with_lone_surrogate
       (Scenario.config "T") (JStr zero_address)
     = Raises UnicodeEncodeError.
Proof.
  split; [ | split;
             [ exact (proj2 (issue_returns_iff (R := Fake.runtime) Samples.bare
                               (Scenario.config "T") (JStr zero_address))
                        IssueSamples.with_lone_surrogate)
             | vm_compute; reflexivity ] ].
  apply (proj2 (proj1 (issue_returns_iff (R := Fake.runtime) Samples.bare
                         (Scenario.config "T") (JStr zero_address)))).
  eexists. exists (JStr "key-identity"), (JStr "key-compliance"),
    (JStr "key-custody"), (JStr "key-document").
  repeat split; try reflexivity.
  - destruct H as [H | [H | [H | []]]]; injection H as <- <-;
      try (vm_compute in H0; discriminate). reflexivity.
  - destruct H as [H | [H | [H | []]]]; injection H as <- <-;
      try (vm_compute in H0; discriminate).
    eexists. eexists. vm_compute. reflexivity.
  - eexists. eexists. vm_compute. reflexivity.
Defined.

Lemma reissue_returns_same_credential_witness :
  exists issued meta,
    issue (R := Fake.runtime) Scenario.document (Scenario.config "T")
      (JStr zero_address) = Returns (issued, meta)
    /\ issue (R := Fake.runtime) issued (Scenario.config "T")
         (JStr zero_address) = Returns (issued, meta).
Proof.
  destruct (issue (R := Fake.runtime) Scenario.document
              (Scenario.config "T") (JStr zero_address))
    as [ [issued meta] | err ] eqn:H; [ | vm_compute in H; discriminate ].
  exists issued, meta. split; [ reflexivity | ].
  apply (reissue_returns_same_credential (R := Fake.runtime)
           Scenario.document (Scenario.config "T") (JStr zero_address)
           issued meta H).
Defined.

Lemma issue_signs_each_section_under_its_role_witness :
  exists issued meta,
    issue (R := Fake.runtime) Scenario.document (Scenario.config "T")
      (JStr zero_address) = Returns (issued, meta)
    /\ In (section_record "/credentialSubject/custody"
             (keccak256_hex (R := Fake.runtime) (JObj [("b", JNum 2)])))
         meta
    /\ _get_by_path issued "/credentialSubject/compliance" = JNull.
Proof.
  destruct (issue (R := Fake.runtime) Scenario.document
              (Scenario.config "T") (JStr zero_address))
    as [ [issued meta] | err ] eqn:H; [ | vm_compute in H; discriminate ].
  exists issued, meta. split; [ reflexivity | ].
  destruct (issue_signs_each_section_under_its_role (R := Fake.runtime)
              Scenario.document (Scenario.config "T") (JStr zero_address)
              issued meta H) as [Hpresent Habsent].
  split.
  - destruct (Hpresent "/credentialSubject/custody")
      as (role & priv & domain & sig & signer & _ & _ & _ & _ & _ & _ & Hin);
      [ simpl; tauto | reflexivity | exact Hin ].
  - destruct (Habsent "/credentialSubject/compliance") as [Hg _];
      [ simpl; tauto | reflexivity | ].
    rewrite Hg. reflexivity.
Defined.

(** ** Verification, again *)


Section VerificationFurther.

Context {R : Runtime}.




End VerificationFurther.


(** ** The round trip, again *)

Section RoundTripFurther.

Context {R : Runtime}.

Lemma section_entry_ok p h a proof e :
  field "path" (section_entry p h a proof e) = JStr p
  /\ field "ok" (section_entry p h a proof e)
     = JBool (eq_str h (field "sectionHash" proof)
              && addr_ok_of a (expected_signer_of proof e (_role_for_path p))
              && eq_str "Eip712Signature2023" (field "type" proof)).
Proof. split; reflexivity. Qed.

Lemma document_entry_ok a proof e :
  field "path" (document_entry a proof e) = JStr "/"
  /\ field "ok" (document_entry a proof e)
     = JBool ((if truthy (expected_signer_of proof e (JStr "document"))
               then same_address a
                      (expected_signer_of proof e (JStr "document"))
               else true)
              && eq_str "Eip712Signature2023" (field "type" proof)).
Proof. split; reflexivity. Qed.

Lemma accepts_addr_ok a x : accepts a x -> addr_ok_of a x = true.
Proof.
  unfold accepts, addr_ok_of. intros [H | H].
  - rewrite H. reflexivity.
  - destruct (truthy x); [ exact H | reflexivity ].
Qed.

Lemma accepts_doc_ok a x :
  accepts a x -> (if truthy x then same_address a x else true) = true.
Proof.
  unfold accepts. intros [H | H].
  - rewrite H. reflexivity.
  - destruct (truthy x); [ exact H | reflexivity ].
Qed.

(** The round trip under the weakest condition on the signers that the
    code checks: the expected signer that [verify] settles on, for
    every target, is nobody or the address of the key that signed. *)
Lemma roundtrip_accepts (laws : RuntimeLaws R)
  (vc keys_cfg verifying_contract e issued : json) (meta : list json)
  (domain : Eip712Domain) :
  issue vc keys_cfg verifying_contract = Returns (issued, meta) ->
  config_domain keys_cfg verifying_contract = Returns domain ->
  usable_expected e = true ->
  (forall p, In p SECTION_PATHS -> present vc p = true ->
     section_template_fields domain (section_proof (_get_by_path vc p))) ->
  document_template_fields domain (document_proof vc) ->
  (forall p role priv a,
      In p SECTION_PATHS -> present vc p = true ->
      _role_for_path p = JStr role ->
      config_key keys_cfg role = Returns priv ->
      private_key_to_address priv = Returns a ->
      accepts a (expected_signer_of (section_proof (_get_by_path vc p)) e
                   (JStr role))) ->
  (forall priv a,
      config_key keys_cfg "document" = Returns priv ->
      private_key_to_address priv = Returns a ->
      accepts a (expected_signer_of (document_proof vc) e (JStr "document"))) ->
  exists results,
    verify issued e = Returns results
    /\ map (field "path") results
       = map JStr (filter (present vc) SECTION_PATHS) ++ [JStr "/"]
    /\ Forall (fun r => field "ok" r = JBool true) results.
Proof.
  intros Hissue Hdomain He Hsec Hdoc Hasec Hadoc.
  pose proof (strip_issued _ _ _ _ _ Hissue) as Hstrip.
  pose proof (issue_Returns_hashable _ _ _ _ _ Hissue) as [Hhd Hhs].
  apply issue_Returns_inv in Hissue
    as (domain' & k1 & k2 & k3 & k4 & d3 & sig_doc & signer_doc & H).
  destruct H as (Hdom' & Hk1 & Hk2 & Hk3 & Hk4 & Hvc & _ & Hproof3 & Habsent
                 & Hsigned & Hsign_doc & Hissued & _).
  rewrite Hdomain in Hdom'. injection Hdom' as <-.
  assert (Hget : forall p, In p SECTION_PATHS ->
                   _get_by_path issued p = _get_by_path d3 p).
  { intros p Hp. rewrite Hissued. apply get_signed_document, Hp. }
  assert (Hpresent : forall p, In p SECTION_PATHS ->
                       present issued p = present vc p).
  { intros p Hp. rewrite <- (present_strip issued), <- (present_strip vc)
      by exact Hp. rewrite Hstrip. reflexivity. }
  (* the sections *)
  destruct (verify_sections_ok issued e SECTION_PATHS (fun p Hp => Hp))
    as (parts & HF & Hpaths & Hok).
  { intros p Hp Hpres. rewrite Hpresent in Hpres by exact Hp.
    destruct (section_items_In k1 k2 k3 p Hp) as [priv Hin].
    destruct (Hsigned p priv Hin Hpres) as (sig & signer & Hsign & Hg).
    destruct (Hsec p Hp Hpres) as (proof & Hproof & Ht & Hh & Hv & Hpd).
    destruct (section_items_role keys_cfg k1 k2 k3 p priv Hk1 Hk2 Hk3 Hin)
      as (role & Hrole & Hrt & Hrin & Hkey).
    destruct (sign_then_recover laws _ _ _ _ Hsign) as [Hrec Hpk].
    pose proof (Hasec p role priv signer Hp Hpres Hrole Hkey Hpk) as Hacc.
    set (h := section_hash_of (_strip_existing_eip712 vc) p) in *.
    destruct (sealed_section_get h sig proof Ht Hh Hv) as (Gt & Gh & Gv).
    assert (Hsp : section_proof (_get_by_path issued p)
                  = JObj (sealed_section_proof h sig proof)).
    { rewrite Hget, Hg, section_proof_signed, Hproof by exact Hp.
      reflexivity. }
    assert (Hh' : section_hash_of (_strip_eip712 issued) p = h).
    { unfold h. rewrite _strip_eip712_eq, Hstrip. reflexivity. }
    assert (Hpi : present issued p = true)
      by (rewrite Hpresent by exact Hp; exact Hpres).
    rewrite (verify_section_proof issued e [] p
               (sealed_section_proof h sig proof) Hp Hpi Hsp He).
    rewrite recover_section_eq
      by (rewrite _strip_eip712_eq, Hstrip; apply Hhs; assumption).
    rewrite (proof_domain_ext _ proof)
      by (apply sealed_section_get_other; discriminate).
    rewrite <- Hproof, Hpd. cbn [bind]. rewrite Hh'.
    unfold proof_value. rewrite Gv, Hrec. cbn [bind app].
    eexists. split; [ reflexivity | ].
    destruct (section_entry_ok p h signer
                (JObj (sealed_section_proof h sig proof)) e) as [Ep Eo].
    split; [ exact Ep | ]. rewrite Eo.
    assert (Es : expected_signer_of (JObj (sealed_section_proof h sig proof))
                   e (_role_for_path p)
                 = expected_signer_of (section_proof (_get_by_path vc p)) e
                     (JStr role)).
    { rewrite Hproof, Hrole. unfold expected_signer_of. cbn [field].
      rewrite sealed_section_get_other by discriminate. reflexivity. }
    rewrite Es, (accepts_addr_ok _ _ Hacc). cbn [field].
    rewrite Gh, Gt. cbn [eq_str]. rewrite !String.eqb_refl. reflexivity. }
  (* the document *)
  destruct Hdoc as (proof & Hproof & Ht & Hv & Hpd).
  destruct (sign_then_recover laws _ _ _ _ Hsign_doc) as [Hrec Hpk].
  pose proof (Hadoc k4 signer_doc Hk4 Hpk) as Hacc.
  destruct (sealed_document_get sig_doc proof Ht Hv) as (Gt & Gv).
  assert (Hdp : document_proof issued
                = JObj (sealed_document_proof sig_doc proof)).
  { rewrite Hissued, document_proof_signed, Hproof3, Hproof. reflexivity. }
  assert (Hloop : for_each (verify_section issued (_strip_eip712 issued) e)
                    SECTION_PATHS [] = Returns (List.concat parts)).
  { apply for_each_verify. exists parts. split; [ exact HF | reflexivity ]. }
  rewrite verify_eq, Hloop. cbn [bind].
  assert (Hid : is_dict issued = true).
  { rewrite <- is_dict_strip, Hstrip, is_dict_strip. exact Hvc. }
  unfold document_proof in Hdp.
  destruct issued as [ | | | | | mi ]; try discriminate.
  cbn [py_get bind] in *. rewrite Hdp. cbn [is_dict negb].
  rewrite recover_document_eq
    by (rewrite _strip_eip712_eq, Hstrip; exact Hhd).
  rewrite (proof_domain_ext _ proof)
    by (apply sealed_document_get_other; discriminate).
  rewrite <- Hproof, Hpd. cbn [bind].
  rewrite _strip_eip712_eq, Hstrip.
  unfold proof_value. rewrite Gv, Hrec. cbn [bind].
  rewrite usable_expected_get by exact He. cbn [bind].
  eexists. split; [ reflexivity | ]. split.
  - rewrite map_app, Hpaths.
    rewrite (filter_ext_in _ _ _ Hpresent). reflexivity.
  - apply Forall_app. split; [ exact Hok | ]. constructor; [ | constructor ].
    destruct (document_entry_ok signer_doc
                (JObj (sealed_document_proof sig_doc proof)) e) as [_ Eo].
    rewrite Eo.
    assert (Es : expected_signer_of (JObj (sealed_document_proof sig_doc proof))
                   e (JStr "document")
                 = expected_signer_of (document_proof vc) e (JStr "document")).
    { rewrite Hproof. unfold expected_signer_of. cbn [field].
      rewrite sealed_document_get_other by discriminate. reflexivity. }
    rewrite Es, (accepts_doc_ok _ _ Hacc). cbn [field].
    rewrite Gt. cbn [eq_str]. rewrite String.eqb_refl. reflexivity.
Qed.

End RoundTripFurther.

Lemma for_each_ext {S A : Type} (f g : S -> A -> result S) l :
  (forall s a, In a l -> f s a = g s a) ->
  forall s, for_each f l s = for_each g l s.
Proof.
  induction l as [ | a l IH ]; intros H s; [ reflexivity | ].
  cbn [for_each]. rewrite (H s a (or_introl eq_refl)).
  destruct (g s a) as [s' | e]; [ | reflexivity ]. cbn [bind].
  apply IH. intros s0 a0 Ha0. apply H. right. exact Ha0.
Qed.

Lemma ok_all_false rs x :
  In x rs -> is_dict x = true -> field "ok" x = JBool false ->
  ok_all rs = false.
Proof.
  intros Hin Hd Hok. unfold ok_all.
  destruct (forallb _ rs) eqn:E; [ | reflexivity ].
  rewrite forallb_forall in E. specialize (E x Hin).
  destruct x as [ | | | | | m ]; try discriminate.
  cbn [py_get field] in *.
  destruct (dict_get "ok" m) as [v | ]; [ | discriminate ].
  rewrite Hok in E. discriminate.
Qed.

Lemma ok_all_true rs :
  Forall (fun r => field "ok" r = JBool true) rs -> ok_all rs = true.
Proof.
  intros H. unfold ok_all. apply forallb_forall. intros x Hx.
  rewrite Forall_forall in H. specialize (H x Hx).
  destruct x as [ | | | | | m ]; try discriminate.
  cbn [py_get field] in *.
  destruct (dict_get "ok" m) as [v | ]; [ | discriminate ].
  rewrite H. reflexivity.
Qed.

Section Callers.

Context {R : Runtime}.

(** The one result for the document. *)
Lemma verify_root_result vc e rs :
  verify vc e = Returns rs ->
  (is_dict (document_proof vc) = false
   /\ filter (has_path "/") rs = [missing_entry "/" "missing proof"])
  \/ (is_dict (document_proof vc) = true
      /\ exists a,
          recover_document vc (document_proof vc) = Returns a
          /\ filter (has_path "/") rs
             = [document_entry a (document_proof vc) e]).
Proof.
  intros Hv. rewrite verify_eq in Hv.
  apply bind_Returns in Hv as (results & Hloop & Hv).
  apply for_each_verify in Hloop as (parts & HF & ->). cbn [app] in Hv.
  apply bind_Returns in Hv as (proof_doc & Hget & Hv).
  assert (Hdoc : proof_doc = document_proof vc).
  { unfold document_proof. rewrite Hget. reflexivity. }
  assert (Hroot : filter (has_path "/") (List.concat parts) = []).
  { apply (proj1 (filter_parts _ _ _ "/" _ _ HF)).
    intros Hin. apply (section_path_not_root "/" Hin). reflexivity. }
  rewrite Hdoc in Hv. destruct (is_dict (document_proof vc)) eqn:Hd.
  - right. split; [ reflexivity | ]. cbn [negb] in Hv.
    apply bind_Returns in Hv as (a & Ha & Hv).
    apply bind_Returns in Hv as (x & _ & Hv). injection Hv as <-.
    exists a. split; [ exact Ha | ]. rewrite filter_app, Hroot. reflexivity.
  - left. split; [ reflexivity | ]. cbn [negb] in Hv. injection Hv as <-.
    rewrite filter_app, Hroot. reflexivity.
Qed.

(** X10.  A proof object that names its own signer is checked against
    that name and not against the expected addresses: when every proof
    object of the credential has a truthy [signer], [verify] gives the
    same outcome whatever the expected addresses are (dicts or false
    values). *)
Theorem declared_signer_overrides_expected (vc e1 e2 : json) :
  usable_expected e1 = true ->
  usable_expected e2 = true ->
  (forall p, In p SECTION_PATHS ->
     is_dict (section_proof (_get_by_path vc p)) = true ->
     truthy (field "signer" (section_proof (_get_by_path vc p))) = true) ->
  (is_dict (document_proof vc) = true ->
   truthy (field "signer" (document_proof vc)) = true) ->
  verify vc e1 = verify vc e2.
Proof.
  intros He1 He2 Hsec Hdoc. rewrite !verify_eq.
  assert (Hloop : forall results,
            for_each (verify_section vc (_strip_eip712 vc) e1)
              SECTION_PATHS results
            = for_each (verify_section vc (_strip_eip712 vc) e2)
                SECTION_PATHS results).
  { apply for_each_ext. intros results p Hp.
    destruct (present vc p) eqn:Hpres;
      [ | rewrite !verify_section_absent by exact Hpres; reflexivity ].
    destruct (section_proof (_get_by_path vc p)) as [ | | | | | proof ] eqn:Hproof.
    6: { rewrite !(verify_section_proof vc _ results p proof) by assumption.
         specialize (Hsec p Hp). rewrite Hproof in Hsec.
         specialize (Hsec eq_refl).
         unfold section_entry, expected_signer_of, py_or.
         rewrite Hsec. reflexivity. }
    all: rewrite !verify_section_missing
           by (try assumption; rewrite Hproof; reflexivity); reflexivity. }
  rewrite Hloop.
  destruct (for_each _ SECTION_PATHS []) as [results | err]; [ | reflexivity ].
  cbn [bind].
  destruct (py_get vc "proof" JNull) as [proof_doc | err] eqn:Hget;
    [ | reflexivity ]. cbn [bind].
  assert (Hd : proof_doc = document_proof vc).
  { unfold document_proof. rewrite Hget. reflexivity. }
  destruct (is_dict proof_doc) eqn:Hdict; cbn [negb]; [ | reflexivity ].
  destruct (recover_document vc proof_doc) as [a | err]; [ | reflexivity ].
  cbn [bind]. rewrite !usable_expected_get by assumption. cbn [bind].
  rewrite Hd in Hdict |- *. specialize (Hdoc Hdict).
  unfold document_entry, expected_signer_of, py_or. rewrite Hdoc.
  reflexivity.
Qed.

(** X11.  The result for the document does not depend on the section
    proofs: two credentials with the same proof-free content and the
    same root proof get the same document result, and rewriting the
    [sProof] of a section in any way gives such a credential.  The
    document signature covers no section signature. *)
Theorem document_result_ignores_section_proofs (vc e : json) :
  (forall vc' rs rs',
      _strip_eip712 vc' = _strip_eip712 vc ->
      document_proof vc' = document_proof vc ->
      verify vc e = Returns rs ->
      verify vc' e = Returns rs' ->
      filter (has_path "/") rs' = filter (has_path "/") rs)
  /\ (forall p g,
      In p SECTION_PATHS ->
      _strip_eip712 (mutate_at vc p (mutate_parts ["sProof"] g))
      = _strip_eip712 vc
      /\ document_proof (mutate_at vc p (mutate_parts ["sProof"] g))
         = document_proof vc).
Proof.
  split.
  - intros vc' rs rs' Hstrip Hproof Hv Hv'.
    apply verify_root_result in Hv, Hv'. rewrite Hproof in Hv'.
    unfold recover_document in Hv, Hv'. rewrite Hstrip in Hv'.
    destruct Hv as [[Hd ->] | (Hd & a & Ha & ->)];
      destruct Hv' as [[Hd' ->] | (Hd' & a' & Ha' & ->)];
      try congruence.
  - intros p g Hp. split.
    + rewrite !_strip_eip712_eq. apply strip_mutate_section; [ exact Hp | ].
      intros [ | | | | | m ]; try reflexivity.
      simpl. rewrite dict_pop_update_same. reflexivity.
    + unfold document_proof.
      rewrite py_get_mutate_section by (try exact Hp; discriminate).
      reflexivity.
Qed.

(** X12.  Issuance creates no proof object.  When a section that is
    present has no proof object of its own, or the root has none, the
    issued credential does not verify, whatever keys, domain and
    expected addresses are used: [verify] on it never returns results
    that are all ok, and demo.py's [main] does not report it valid. *)
Theorem missing_template_never_verifies (vc : json) :
  (exists p, In p SECTION_PATHS /\ present vc p = true
             /\ is_dict (section_proof (_get_by_path vc p)) = false)
  \/ is_dict (document_proof vc) = false ->
  (forall keys_cfg verifying_contract issued meta e rs,
      issue vc keys_cfg verifying_contract = Returns (issued, meta) ->
      verify issued e = Returns rs ->
      ok_all rs = false)
  /\ (forall keys_cfg issued rs ok,
      demo vc keys_cfg = Returns (issued, rs, ok) -> ok = false).
Proof.
  intros Hmiss.
  assert (H : forall keys_cfg verifying_contract issued meta e rs,
            issue vc keys_cfg verifying_contract = Returns (issued, meta) ->
            verify issued e = Returns rs ->
            ok_all rs = false).
  { intros keys_cfg c issued meta e rs Hissue Hv.
    destruct Hmiss as [(p & Hp & Hpres & Hnone) | Hnone].
    - destruct (issued_section_proof _ _ _ _ _ p Hissue Hp) as (h & sig & Hsp).
      assert (Hnone' : is_dict (section_proof (_get_by_path issued p)) = false).
      { rewrite Hsp. destruct (section_proof (_get_by_path vc p));
          try reflexivity. discriminate. }
      assert (Hpres' : present issued p = true).
      { rewrite <- present_strip, (strip_issued _ _ _ _ _ Hissue),
          present_strip by exact Hp. exact Hpres. }
      apply (ok_all_false rs (missing_entry p "missing sProof"));
        try reflexivity.
      apply (verify_section_In issued e rs p _ Hp Hv
               (verify_section_missing issued _ e [] p Hpres' Hnone')).
      left. reflexivity.
    - destruct (issued_document_proof _ _ _ _ _ Hissue)
        as (priv & domain & sig & signer & _ & _ & _ & Hdp).
      assert (Hnone' : is_dict (document_proof issued) = false).
      { rewrite Hdp. destruct (document_proof vc); try reflexivity.
        discriminate. }
      destruct (verify_root_result _ _ _ Hv) as [[_ Hf] | [Hd _]];
        [ | congruence ].
      apply (ok_all_false rs (missing_entry "/" "missing proof"));
        try reflexivity.
      assert (Hin : In (missing_entry "/" "missing proof")
                      (filter (has_path "/") rs))
        by (rewrite Hf; left; reflexivity).
      apply filter_In in Hin as [Hin _]. exact Hin. }
  split; [ exact H | ].
  intros keys_cfg issued rs ok Hdemo. unfold demo in Hdemo.
  apply bind_Returns in Hdemo as ([issued0 proofs] & Hissue & Hdemo).
  cbn beta iota zeta in Hdemo.
  apply bind_Returns in Hdemo as (expected & _ & Hdemo).
  apply bind_Returns in Hdemo as (results & Hv & Hdemo).
  injection Hdemo as <- <- <-.
  apply (H _ _ _ _ _ _ Hissue Hv).
Qed.


(** X14.  The round trip needs no expected addresses and no anonymous
    templates.  Verifying an issued credential gives results that are
    all ok when the templates hold the fields the issuer fills and
    rebuild the issuer's domain, and the expected signer that [verify]
    settles on for each target (the template's own [signer] when it is
    truthy, else the expected address of the role) is nobody, or the
    address of the key that signed, in any letter case. *)
Theorem roundtrip_with_accepted_signers (laws : RuntimeLaws R)
  (vc keys_cfg verifying_contract e issued : json) (meta : list json)
  (domain : Eip712Domain) :
  issue vc keys_cfg verifying_contract = Returns (issued, meta) ->
  config_domain keys_cfg verifying_contract = Returns domain ->
  usable_expected e = true ->
  (forall p, In p SECTION_PATHS -> present vc p = true ->
     section_template_fields domain (section_proof (_get_by_path vc p))) ->
  document_template_fields domain (document_proof vc) ->
  (forall p role priv a,
      In p SECTION_PATHS -> present vc p = true ->
      _role_for_path p = JStr role ->
      config_key keys_cfg role = Returns priv ->
      private_key_to_address priv = Returns a ->
      accepts a (expected_signer_of (section_proof (_get_by_path vc p)) e
                   (JStr role))) ->
  (forall priv a,
      config_key keys_cfg "document" = Returns priv ->
      private_key_to_address priv = Returns a ->
      accepts a (expected_signer_of (document_proof vc) e (JStr "document"))) ->
  exists results,
    verify issued e = Returns results
    /\ ok_all results = true
    /\ map (field "path") results
       = map JStr (filter (present vc) SECTION_PATHS) ++ [JStr "/"].
Proof.
  intros Hissue Hdomain He Hsec Hdoc Hasec Hadoc.
  destruct (roundtrip_accepts laws vc keys_cfg verifying_contract e issued
              meta domain Hissue Hdomain He Hsec Hdoc Hasec Hadoc)
    as (results & Hv & Hpaths & Hok).
  exists results. split; [ exact Hv | ].
  split; [ apply ok_all_true, Hok | exact Hpaths ].
Qed.

End Callers.

Lemma declared_signer_overrides_expected_witness :
  verify (R := Fake.runtime)
    (JObj [("proof", JObj [("type", JStr "Eip712Signature2023");
                           ("proofValue", Samples.stray_signature);
                           ("signer", JStr "0xForged")])])
    JNull
  = verify (R := Fake.runtime)
      (JObj [("proof", JObj [("type", JStr "Eip712Signature2023");
                             ("proofValue", Samples.stray_signature);
                             ("signer", JStr "0xForged")])])
      (JObj [("document", JStr (Fake.address "key-document"))]).
Proof.
  apply (declared_signer_overrides_expected (R := Fake.runtime));
    try reflexivity.
  intros p [<- | [<- | [<- | []]]] H; vm_compute in H; discriminate.
Defined.

Lemma document_result_ignores_section_proofs_witness :
  _strip_eip712
    (mutate_at Scenario.document "/credentialSubject/identity"
       (mutate_parts ["sProof"] (fun _ => JNull)))
  = _strip_eip712 Scenario.document.
Proof.
  apply (proj2 (document_result_ignores_section_proofs (R := Fake.runtime)
                  Scenario.document JNull)
           "/credentialSubject/identity" (fun _ => JNull)).
  simpl. tauto.
Defined.

Lemma missing_template_never_verifies_witness :
  exists issued rs,
    demo (R := Fake.runtime) Samples.bare (Scenario.config "T")
    = Returns (issued, rs, false).
Proof.
  destruct (demo (R := Fake.runtime) Samples.bare (Scenario.config "T"))
    as [ [[issued rs] ok] | err ] eqn:H; [ | vm_compute in H; discriminate ].
  exists issued, rs.
  rewrite (proj2 (missing_template_never_verifies (R := Fake.runtime)
                    Samples.bare (or_intror eq_refl))
             (Scenario.config "T") issued rs ok H).
  reflexivity.
Defined.


Lemma roundtrip_with_accepted_signers_witness :
  exists issued meta results,
    issue (R := Fake.runtime) Scenario.document (Scenario.config "RWA-VC")
      (JStr zero_address) = Returns (issued, meta)
    /\ verify (R := Fake.runtime) issued JNull = Returns results
    /\ ok_all results = true.
Proof.
  destruct (issue (R := Fake.runtime) Scenario.document
              (Scenario.config "RWA-VC") (JStr zero_address))
    as [ [issued meta] | err ] eqn:H; [ | vm_compute in H; discriminate ].
  destruct (roundtrip_with_accepted_signers (R := Fake.runtime) Fake_laws
              Scenario.document (Scenario.config "RWA-VC") (JStr zero_address)
              JNull issued meta
              {| name := JStr "RWA-VC"; version := "1"; chainId := 1;
                 verifyingContract := JStr zero_address |} H)
    as (results & Hv & Hok & _).
  - reflexivity.
  - reflexivity.
  - intros p [<- | [<- | [<- | []]]] Hpres;
      try (vm_compute in Hpres; discriminate);
      eexists; repeat split; vm_compute; reflexivity.
  - eexists. repeat split; vm_compute; reflexivity.
  - intros p role priv a [<- | [<- | [<- | []]]] Hpres Hrole Hk Ha;
      try (vm_compute in Hpres; discriminate);
      vm_compute in Hrole; injection Hrole as <-; left; reflexivity.
  - intros priv a Hk Ha. left. reflexivity.
  - exists issued, meta, results. repeat split; assumption.
Defined.

(** ** The status lists *)

Section StatusListProperties.

Import StatusList.

Lemma set_bit_length i b bits :
  List.length (set_bit i b bits) = List.length bits.
Proof.
  revert i. induction bits as [ | x bits IH ]; intros [ | i ]; simpl;
    try reflexivity. f_equal. apply IH.
Qed.

Lemma get_set_bit_same i b bits :
  (i < List.length bits)%nat -> get_bit i (set_bit i b bits) = b.
Proof.
  unfold get_bit. revert i. induction bits as [ | x bits IH ]; intros [ | i ];
    simpl; intros H; try lia; [ reflexivity | ]. apply IH. lia.
Qed.

Lemma get_set_bit_other i j b bits :
  i <> j -> get_bit j (set_bit i b bits) = get_bit j bits.
Proof.
  unfold get_bit. revert i j.
  induction bits as [ | x bits IH ]; intros [ | i ] [ | j ] H; simpl;
    try reflexivity; try congruence.
  apply IH. congruence.
Qed.

Lemma entry_get_set_same i e m : entry_get i (entry_set i e m) = Some e.
Proof.
  induction m as [ | [k e'] m IH ]; simpl.
  - rewrite Z.eqb_refl. reflexivity.
  - destruct (Z.eqb_spec i k) as [-> | Hne]; simpl.
    + rewrite Z.eqb_refl. reflexivity.
    + destruct (Z.eqb_spec i k); [ contradiction | exact IH ].
Qed.

Lemma entry_get_set_other i j e m :
  i <> j -> entry_get j (entry_set i e m) = entry_get j m.
Proof.
  intros Hne. induction m as [ | [k e'] m IH ]; simpl.
  - destruct (Z.eqb_spec j i); [ congruence | reflexivity ].
  - destruct (Z.eqb_spec i k) as [-> | Hik]; simpl.
    + destruct (Z.eqb_spec j k); [ congruence | reflexivity ].
    + destruct (Z.eqb_spec j k); [ reflexivity | exact IH ].
Qed.

Lemma range_check n i :
  ((i >=? n) || (i <? 0))%Z = false <-> (0 <= i < n)%Z.
Proof.
  rewrite orb_false_iff, Z.geb_leb, Z.leb_gt, Z.ltb_ge. lia.
Qed.

Lemma range_check_out n i :
  ((i >=? n) || (i <? 0))%Z = true <-> ~ (0 <= i < n)%Z.
Proof.
  rewrite <- range_check. destruct ((i >=? n) || (i <? 0))%Z; split;
    intros H; try reflexivity; try discriminate; try congruence.
Qed.

Lemma update_status_in_range l i s r :
  (0 <= i < size l)%Z ->
  update_status l i s r
  = Returns {| list_id := list_id l;
               purpose := purpose l;
               size := size l;
               status_bits := set_bit (Z.to_nat i) (flagged s) (status_bits l);
               detailed_status :=
                 entry_set i {| index := i; status := s; reason := r |}
                   (detailed_status l) |}.
Proof.
  intros H. unfold update_status, flagged.
  rewrite (proj2 (range_check _ _) H).
  destruct ((s =? "revoked") || (s =? "suspended")); reflexivity.
Qed.

Lemma update_status_out_of_range l i s r :
  ~ (0 <= i < size l)%Z -> update_status l i s r = Raises ValueError.
Proof.
  intros H. unfold update_status.
  rewrite (proj2 (range_check_out _ _) H). reflexivity.
Qed.

Lemma update_or_skip_size l u : size (update_or_skip l u) = size l.
Proof.
  destruct u as [[i s] r]. unfold update_or_skip, update_status.
  destruct ((i >=? size l) || (i <? 0))%Z; reflexivity.
Qed.

(** The batch does to every entry what [update_status] does, and
    passes over the entries that [update_status] refuses. *)
Lemma batch_update_status_fold ups :
  forall l, batch_update_status l ups = fold_left update_or_skip ups l.
Proof.
  unfold batch_update_status.
  induction ups as [ | [[i s] r] ups IH ]; intros l; [ reflexivity | ].
  cbn [fold_left]. rewrite IH. f_equal.
  unfold update_or_skip, update_status.
  destruct ((i >=? size l) || (i <? 0))%Z; reflexivity.
Qed.

Lemma batch_update_status_size ups :
  forall l, size (batch_update_status l ups) = size l.
Proof.
  intros l. rewrite batch_update_status_fold. revert l.
  induction ups as [ | u ups IH ]; intros l; [ reflexivity | ].
  cbn [fold_left]. rewrite IH. apply update_or_skip_size.
Qed.

Lemma get_status_update_or_skip l j s r i :
  (0 <= i < size l)%Z ->
  get_status (update_or_skip l (j, s, r)) i
  = if (j =? i)%Z then Returns s else get_status l i.
Proof.
  intros Hi. unfold update_or_skip.
  destruct (Z.eqb_spec j i) as [-> | Hne].
  - rewrite update_status_in_range by exact Hi.
    unfold get_status. cbn [size detailed_status status_bits].
    rewrite (proj2 (range_check _ _) Hi), entry_get_set_same. reflexivity.
  - assert (Hdec : (0 <= j < size l)%Z \/ ~ (0 <= j < size l)%Z) by lia.
    destruct Hdec as [Hj | Hj].
    + rewrite update_status_in_range by exact Hj.
      unfold get_status. cbn [size detailed_status status_bits].
      rewrite entry_get_set_other by exact Hne.
      rewrite get_set_bit_other by lia. reflexivity.
    + rewrite update_status_out_of_range by exact Hj. reflexivity.
Qed.

Lemma get_status_batch ups :
  forall l i,
    (0 <= i < size l)%Z ->
    get_status (batch_update_status l ups) i
    = match find (fun u => (fst (fst u) =? i)%Z) (rev ups) with
      | Some u => Returns (snd (fst u))
      | None => get_status l i
      end.
Proof.
  induction ups as [ | [[j s] r] ups IH ] using rev_ind; intros l i Hi;
    [ reflexivity | ].
  rewrite batch_update_status_fold, fold_left_app. cbn [fold_left].
  rewrite <- batch_update_status_fold, rev_app_distr.
  cbn [rev app find fst snd].
  rewrite get_status_update_or_skip
    by (rewrite batch_update_status_size; exact Hi).
  destruct (j =? i)%Z; [ reflexivity | apply IH, Hi ].
Qed.

Lemma consistent_update l i s r l' :
  consistent l -> update_status l i s r = Returns l' -> consistent l'.
Proof.
  intros [Hlen Hent] H.
  assert (Hdec : (0 <= i < size l)%Z \/ ~ (0 <= i < size l)%Z) by lia.
  destruct Hdec as [Hi | Hi];
    [ | rewrite update_status_out_of_range in H by exact Hi; discriminate ].
  rewrite update_status_in_range in H by exact Hi. injection H as <-.
  split; cbn [size status_bits detailed_status].
  - rewrite set_bit_length. exact Hlen.
  - intros j e Hj. destruct (Z.eq_dec i j) as [<- | Hne].
    + rewrite entry_get_set_same in Hj. injection Hj as <-.
      split; [ exact Hi | ]. cbn [status].
      apply get_set_bit_same. rewrite Hlen. lia.
    + rewrite entry_get_set_other in Hj by exact Hne.
      destruct (Hent j e Hj) as [Hr Hb]. split; [ exact Hr | ].
      rewrite get_set_bit_other by lia. exact Hb.
Qed.

Lemma consistent_update_or_skip l u :
  consistent l -> consistent (update_or_skip l u).
Proof.
  intros H. destruct u as [[i s] r]. unfold update_or_skip.
  destruct (update_status l i s r) as [l' | e] eqn:E; [ | exact H ].
  apply (consistent_update l i s r l' H E).
Qed.

Lemma consistent_batch ups :
  forall l, consistent l -> consistent (batch_update_status l ups).
Proof.
  intros l. rewrite batch_update_status_fold. revert l.
  induction ups as [ | u ups IH ]; intros l H; [ exact H | ].
  cbn [fold_left]. apply IH, consistent_update_or_skip, H.
Qed.

(** X15.  A status that is written is the status that is read.  For an
    index within the list, [update_status] returns, [get_status] then
    gives the status that was written, whatever string it is, and the
    status of every other index is as before; for an index outside the
    list both raise [ValueError]. *)
Theorem update_status_then_get_status
  (l : StatusList2021) (i : Z) (s : string) (r : option string) :
  ((0 <= i < size l)%Z ->
   exists l',
     update_status l i s r = Returns l'
     /\ size l' = size l
     /\ get_status l' i = Returns s
     /\ forall j, j <> i -> get_status l' j = get_status l j)
  /\ (~ (0 <= i < size l)%Z ->
      update_status l i s r = Raises ValueError
      /\ get_status l i = Raises ValueError).
Proof.
  split.
  - intros Hi. eexists. split; [ apply update_status_in_range, Hi | ].
    split; [ reflexivity | ]. split.
    + unfold get_status. cbn [size detailed_status status_bits].
      rewrite (proj2 (range_check _ _) Hi), entry_get_set_same. reflexivity.
    + intros j Hne. unfold get_status. cbn [size detailed_status status_bits].
      destruct ((j >=? size l) || (j <? 0))%Z eqn:Hj; [ reflexivity | ].
      apply range_check in Hj.
      rewrite entry_get_set_other by congruence.
      rewrite get_set_bit_other by lia. reflexivity.
  - intros Hi. split; [ apply update_status_out_of_range, Hi | ].
    unfold get_status. rewrite (proj2 (range_check_out _ _) Hi). reflexivity.
Qed.

(** X16.  The bit array and the detailed entries never disagree.  A
    new list is consistent, [update_status], [batch_update_status] and
    [get_metrics] keep it so, and in a consistent list the bit of an
    index is set exactly when [get_status] gives ["revoked"] or
    ["suspended"] for it: the published bits say what the queries
    say. *)
Theorem status_bits_agree_with_get_status :
  (forall id p n l, StatusList2021_init id p n = Returns l -> consistent l)
  /\ (forall l i s r l',
      consistent l -> update_status l i s r = Returns l' -> consistent l')
  /\ (forall l ups, consistent l -> consistent (batch_update_status l ups))
  /\ (forall l l', consistent l -> get_metrics l = Returns l' -> consistent l')
  /\ (forall l i s,
      consistent l -> get_status l i = Returns s ->
      get_bit (Z.to_nat i) (status_bits l) = flagged s).
Proof.
  split; [ | split; [ | split; [ | split ] ] ].
  - intros id p n l. unfold StatusList2021_init.
    destruct (n <? 0)%Z; [ discriminate | ]. intros H. injection H as <-.
    split; cbn [size status_bits detailed_status].
    + apply repeat_length.
    + intros i e H. discriminate.
  - apply consistent_update.
  - intros l ups. apply consistent_batch.
  - intros l l' Hc H. unfold get_metrics in H.
    apply bind_Returns in H as (x & _ & H). injection H as <-.
    apply consistent_batch, Hc.
  - intros l i s [_ Hent] H. unfold get_status in H.
    destruct ((i >=? size l) || (i <? 0))%Z; [ discriminate | ].
    destruct (entry_get i (detailed_status l)) as [e | ] eqn:E.
    + injection H as <-. apply (Hent i e E).
    + injection H as <-.
      destruct (get_bit (Z.to_nat i) (status_bits l)); reflexivity.
Qed.

(** X17.  A batch is its updates, one after the other.  What
    [batch_update_status] leaves is what calling [update_status] on
    every entry in order leaves, an entry whose index is outside the
    list being passed over instead of stopping the batch; so the last
    entry for an index decides its status, and an index that no entry
    names keeps its status. *)
Theorem batch_update_is_updates_in_order
  (l : StatusList2021) (ups : list (Z * string * option string)) :
  batch_update_status l ups = fold_left update_or_skip ups l
  /\ size (batch_update_status l ups) = size l
  /\ forall i,
      (0 <= i < size l)%Z ->
      get_status (batch_update_status l ups) i
      = match find (fun u => (fst (fst u) =? i)%Z) (rev ups) with
        | Some u => Returns (snd (fst u))
        | None => get_status l i
        end.
Proof.
  split; [ apply batch_update_status_fold | ].
  split; [ apply batch_update_status_size | ].
  apply get_status_batch.
Qed.

End StatusListProperties.

Section StatusListCallers.

Import StatusList.

Lemma find_first_entries n i :
  find (fun u : Z * string * option string => (fst (fst u) =? i)%Z)
    (rev (map (fun k => (Z.of_nat k, "valid", @None string)) (seq 0 n)))
  = if ((0 <=? i) && (i <? Z.of_nat n))%Z
    then Some (i, "valid", None) else None.
Proof.
  induction n as [ | n IH ].
  - simpl. destruct (0 <=? i)%Z eqn:E1; [ | reflexivity ].
    destruct (i <? 0)%Z eqn:E2; [ | reflexivity ].
    apply Z.leb_le in E1. apply Z.ltb_lt in E2. lia.
  - rewrite seq_S, map_app, rev_app_distr. cbn [map rev app find fst Nat.add].
    destruct (Z.eqb_spec (Z.of_nat n) i) as [<- | Hne].
    + replace ((0 <=? Z.of_nat n) && (Z.of_nat n <? Z.of_nat (S n)))%Z
        with true; [ reflexivity | ].
      symmetry. apply andb_true_iff. split; [ apply Z.leb_le | apply Z.ltb_lt ];
        lia.
    + rewrite IH.
      replace (i <? Z.of_nat (S n))%Z with (i <? Z.of_nat n)%Z; [ reflexivity | ].
      destruct (Z.ltb_spec i (Z.of_nat n)); destruct (Z.ltb_spec i (Z.of_nat (S n)));
        try reflexivity; lia.
Qed.

Lemma get_put_status_list_same m id l :
  get_status_list (put_status_list m id l) id = Some l.
Proof.
  induction m as [ | [k l'] m IH ]; simpl.
  - rewrite String.eqb_refl. reflexivity.
  - destruct (String.eqb_spec id k) as [-> | Hne]; simpl.
    + rewrite String.eqb_refl. reflexivity.
    + destruct (String.eqb_spec id k); [ contradiction | exact IH ].
Qed.

Lemma get_put_status_list_other m id id' l :
  id' <> id ->
  get_status_list (put_status_list m id l) id' = get_status_list m id'.
Proof.
  intros Hne. induction m as [ | [k l'] m IH ]; simpl.
  - destruct (String.eqb_spec id' id); [ contradiction | reflexivity ].
  - destruct (String.eqb_spec id k) as [-> | Hik]; simpl.
    + destruct (String.eqb_spec id' k); [ contradiction | reflexivity ].
    + destruct (String.eqb_spec id' k); [ reflexivity | exact IH ].
Qed.

(** X18.  Asking for the metrics of a list rewrites the list.
    [get_metrics] raises [ValueError] on a list without entries; on
    any other list it returns, and afterwards [get_status] gives
    ["valid"] for each of the first hundred indices (all of them when
    the list is shorter), whatever their status was, the other indices
    keeping theirs. *)
Theorem get_metrics_resets_first_entries (l : StatusList2021) :
  ((size l <= 0)%Z -> get_metrics l = Raises ValueError)
  /\ ((0 < size l)%Z ->
      exists l',
        get_metrics l = Returns l'
        /\ size l' = size l
        /\ (forall i, (0 <= i < Z.min 100 (size l))%Z ->
            get_status l' i = Returns "valid")
        /\ (forall i, (Z.min 100 (size l) <= i < size l)%Z ->
            get_status l' i = get_status l i)).
Proof.
  split.
  - intros H. unfold get_metrics, get_status.
    rewrite (proj2 (range_check_out (size l) 0)) by lia. reflexivity.
  - intros H. unfold get_metrics.
    assert (H0 : exists x, get_status l 0 = Returns x).
    { unfold get_status. rewrite (proj2 (range_check (size l) 0)) by lia.
      destruct (entry_get 0 (detailed_status l)); eexists; reflexivity. }
    destruct H0 as [x ->]. cbn [bind]. eexists. split; [ reflexivity | ].
    split; [ apply batch_update_status_size | ]. split.
    + intros i Hi. rewrite get_status_batch by lia.
      rewrite find_first_entries.
      replace ((0 <=? i) && (i <? Z.of_nat (Z.to_nat (Z.min 100 (size l)))))%Z
        with true; [ reflexivity | ].
      symmetry. apply andb_true_iff. split; [ apply Z.leb_le | apply Z.ltb_lt ];
        lia.
    + intros i Hi. rewrite get_status_batch by lia.
      rewrite find_first_entries.
      replace (i <? Z.of_nat (Z.to_nat (Z.min 100 (size l))))%Z with false;
        [ rewrite andb_false_r; reflexivity | ].
      symmetry. apply Z.ltb_ge. lia.
Qed.

(** X19.  The manager acts on the list that is named and on no other.
    After [update_credential_status] has returned,
    [check_credential_status] gives the status written, for that list
    and index; after [batch_revoke_credentials] has returned it gives
    ["revoked"] for every index of the batch that lies within the
    list; the other lists are as before.  On a list that does not
    exist the two updates raise [ValueError] while the check answers
    ["unknown"]; creating a list that exists gives back the existing
    list, its statuses kept and the new purpose and size ignored. *)
Theorem manager_updates_the_named_list
  (m : StatusListManager) (id : string) :
  (forall i s r m',
      update_credential_status m id i s r = Returns m' ->
      check_credential_status m' id i = Returns s
      /\ forall id', id' <> id -> get_status_list m' id' = get_status_list m id')
  /\ (forall indices reason m' l,
      batch_revoke_credentials m id indices reason = Returns m' ->
      get_status_list m id = Some l ->
      (forall i, In i indices -> (0 <= i < size l)%Z ->
         check_credential_status m' id i = Returns "revoked")
      /\ forall id', id' <> id -> get_status_list m' id' = get_status_list m id')
  /\ (get_status_list m id = None ->
      (forall i s r, update_credential_status m id i s r = Raises ValueError)
      /\ (forall indices reason,
          batch_revoke_credentials m id indices reason = Raises ValueError)
      /\ forall i, check_credential_status m id i = Returns "unknown")
  /\ (forall l p n,
      get_status_list m id = Some l ->
      create_status_list m id p n = Returns (m, l)).
Proof.
  split; [ | split; [ | split ] ].
  - intros i s r m' H. unfold update_credential_status in H.
    destruct (get_status_list m id) as [l | ] eqn:Hl; [ | discriminate ].
    apply bind_Returns in H as (l' & Hu & H). injection H as <-.
    split.
    + unfold check_credential_status. rewrite get_put_status_list_same.
      assert (Hdec : (0 <= i < size l)%Z \/ ~ (0 <= i < size l)%Z) by lia.
      destruct Hdec as [Hi | Hi];
        [ | rewrite update_status_out_of_range in Hu by exact Hi;
            discriminate ].
      rewrite update_status_in_range in Hu by exact Hi. injection Hu as <-.
      unfold get_status. cbn [size detailed_status status_bits].
      rewrite (proj2 (range_check _ _) Hi), entry_get_set_same. reflexivity.
    + intros id' Hne. apply get_put_status_list_other, Hne.
  - intros indices reason m' l H Hl. unfold batch_revoke_credentials in H.
    rewrite Hl in H. injection H as <-. split.
    + intros i Hin Hi. unfold check_credential_status.
      rewrite get_put_status_list_same, get_status_batch by exact Hi.
      destruct (find _ _) as [u | ] eqn:F.
      * apply find_some in F as [Hu _]. apply in_rev in Hu.
        apply in_map_iff in Hu as (k & <- & _). reflexivity.
      * assert (Hu : In (i, "revoked", Some reason)
                       (rev (map (fun index => (index, "revoked", Some reason))
                               indices))).
        { apply -> in_rev. apply in_map_iff. exists i.
          split; [ reflexivity | exact Hin ]. }
        pose proof (find_none _ _ F _ Hu) as E. cbn [fst] in E.
        rewrite Z.eqb_refl in E. discriminate.
    + intros id' Hne. apply get_put_status_list_other, Hne.
  - intros Hnone. unfold update_credential_status, batch_revoke_credentials,
      check_credential_status. rewrite Hnone. repeat split.
  - intros l p n Hl. unfold create_status_list. rewrite Hl. reflexivity.
Qed.

End StatusListCallers.

(** ** The status lists on a concrete list *)

Lemma update_status_then_get_status_witness :
  StatusList.StatusList2021_init "test-list" "revocation" 8
  = Returns StatusSamples.fresh
  /\ exists l',
      StatusList.update_status StatusSamples.fresh 3 "suspended" None
      = Returns l'
      /\ StatusList.get_status l' 3 = Returns "suspended".
Proof.
  split; [ reflexivity | ].
  destruct (proj1 (update_status_then_get_status StatusSamples.fresh 3
                     "suspended" None))
    as (l' & Hu & _ & Hg & _); [ simpl; lia | ].
  exists l'. split; [ exact Hu | exact Hg ].
Defined.

Lemma status_bits_agree_with_get_status_witness :
  StatusList.consistent StatusSamples.fresh.
Proof.
  apply (proj1 status_bits_agree_with_get_status
           "test-list" "revocation" 8%Z StatusSamples.fresh).
  reflexivity.
Defined.

Lemma batch_update_is_updates_in_order_witness :
  StatusList.get_status
    (StatusList.batch_update_status StatusSamples.fresh
       [(1, "revoked", None); (9, "revoked", None); (1, "valid", None)]%Z)
    1
  = Returns "valid".
Proof.
  rewrite (proj2 (proj2 (batch_update_is_updates_in_order
                           StatusSamples.fresh
                           [(1, "revoked", None); (9, "revoked", None);
                            (1, "valid", None)]%Z)) 1%Z)
    by (simpl; lia).
  reflexivity.
Defined.

Lemma get_metrics_resets_first_entries_witness :
  exists l' l'',
    StatusList.update_status StatusSamples.fresh 3 "revoked" None = Returns l'
    /\ StatusList.get_status l' 3 = Returns "revoked"
    /\ StatusList.get_metrics l' = Returns l''
    /\ StatusList.get_status l'' 3 = Returns "valid".
Proof.
  destruct (StatusList.update_status StatusSamples.fresh 3 "revoked" None)
    as [l' | err] eqn:Hu; [ | vm_compute in Hu; discriminate ].
  assert (Hs : StatusList.size l' = 8%Z)
    by (vm_compute in Hu; injection Hu as <-; reflexivity).
  assert (Hg : StatusList.get_status l' 3 = Returns "revoked")
    by (vm_compute in Hu; injection Hu as <-; reflexivity).
  destruct (proj2 (get_metrics_resets_first_entries l'))
    as (l'' & Hm & _ & Hv & _); [ rewrite Hs; lia | ].
  exists l', l''. split; [ reflexivity | ]. split; [ exact Hg | ].
  split; [ exact Hm | ]. apply Hv. rewrite Hs. lia.
Defined.

Lemma manager_updates_the_named_list_witness :
  exists m',
    StatusList.update_credential_status StatusSamples.manager "test-list" 3
      "revoked" None = Returns m'
    /\ StatusList.check_credential_status m' "test-list" 3 = Returns "revoked".
Proof.
  destruct (StatusList.update_credential_status StatusSamples.manager
              "test-list" 3 "revoked" None)
    as [m' | err] eqn:Hu; [ | vm_compute in Hu; discriminate ].
  exists m'. split; [ reflexivity | ].
  apply (proj1 (proj1 (manager_updates_the_named_list StatusSamples.manager
                         "test-list") 3%Z "revoked" None m' Hu)).
Defined.

(** ** The Merkle tree *)

Lemma list_pair_ind {A : Type} (P : list A -> Prop) :
  P [] -> (forall a, P [a]) -> (forall a b r, P r -> P (a :: b :: r)) ->
  forall l, P l.
Proof.
  intros H0 H1 H2 l.
  assert (H : P l /\ forall a, P (a :: l)).
  { induction l as [ | x l [IH1 IH2] ]; [ split; [ exact H0 | exact H1 ] | ].
    split; [ apply IH2 | ]. intros a. apply H2, IH1. }
  apply H.
Qed.

Lemma mod2_SS j : (S (S j) mod 2 = j mod 2)%nat.
Proof.
  replace (S (S j)) with (j + 1 * 2)%nat by lia. apply Nat.Div0.mod_add.
Qed.

Lemma div2_SS j : (S (S j) / 2 = S (j / 2))%nat.
Proof.
  replace (S (S j)) with (j + 1 * 2)%nat by lia.
  rewrite Nat.div_add by lia. lia.
Qed.

Section MerkleProperties.

Import Merkle.

Variable hash_data : string -> string.

Lemma next_level_length l :
  List.length (next_level hash_data l) = ((List.length l + 1) / 2)%nat.
Proof.
  induction l as [ | a | a b r IH ] using list_pair_ind; try reflexivity.
  cbn [next_level List.length]. rewrite IH.
  replace (S (S (List.length r)) + 1)%nat with (S (S (List.length r + 1)))
    by lia.
  rewrite div2_SS. reflexivity.
Qed.

(** One level up: the sibling is there, and climbing with it gives the
    parent. *)
Lemma next_level_climb l :
  forall j h,
    nth_error l j = Some h ->
    exists entry,
      sibling l j = Some entry
      /\ nth_error (next_level hash_data l) (j / 2)
         = Some (climb hash_data h entry).
Proof.
  induction l as [ | a | a b r IH ] using list_pair_ind; intros j h Hj.
  - destruct j; discriminate.
  - destruct j as [ | j ]; [ | destruct j; discriminate ].
    injection Hj as <-. eexists. split; reflexivity.
  - destruct j as [ | [ | j ] ].
    + injection Hj as <-. eexists. split; reflexivity.
    + injection Hj as <-. eexists. split; reflexivity.
    + cbn [nth_error] in Hj. destruct (IH j h Hj) as (entry & Hs & Hn).
      exists entry. split.
      * rewrite <- Hs. unfold sibling. rewrite mod2_SS.
        cbn [List.length].
        destruct (j mod 2 =? 0)%nat eqn:Hpar.
        -- replace (S (S j) + 1)%nat with (S (S (j + 1))) by lia.
           cbn [nth_error].
           replace (S (S (j + 1)) <? S (S (List.length r)))%nat
             with (j + 1 <? List.length r)%nat; [ reflexivity | ].
           destruct (Nat.ltb_spec (j + 1) (List.length r));
             destruct (Nat.ltb_spec (S (S (j + 1))) (S (S (List.length r))));
             try reflexivity; lia.
        -- destruct j as [ | j' ]; [ discriminate | ].
           replace (S (S (S j')) - 1)%nat with (S (S j')) by lia.
           replace (S j' - 1)%nat with j' by lia. reflexivity.
      * rewrite div2_SS. cbn [next_level nth_error]. exact Hn.
Qed.

(** The loop of [get_merkle_proof] over the levels below the top one
    never leaves a level, and climbing along the proof that it returns
    leads to a node of the top level. *)
Lemma proof_loop_climbs fuel :
  forall l idx h proof0,
    nth_error l idx = Some h ->
    exists entries idx',
      proof_loop (removelast (l :: build_levels hash_data fuel l)) proof0 idx
      = Ok (proof0 ++ entries)
      /\ List.length entries = List.length (build_levels hash_data fuel l)
      /\ nth_error (last (l :: build_levels hash_data fuel l) []) idx'
         = Some (fold_left (climb hash_data) entries h).
Proof.
  induction fuel as [ | fuel IH ]; intros l idx h proof0 Hh.
  - exists [], idx. cbn. rewrite app_nil_r. repeat split. exact Hh.
  - cbn [build_levels]. destruct (1 <? List.length l)%nat.
    + destruct (next_level_climb l idx h Hh) as (entry & Hs & Hn).
      destruct (IH _ _ _ (proof0 ++ [entry]) Hn)
        as (entries & idx' & Hloop & Hlen & Hlast).
      exists (entry :: entries), idx'.
      change (removelast (l :: next_level hash_data l
                          :: build_levels hash_data fuel (next_level hash_data l)))
        with (l :: removelast
                (next_level hash_data l
                 :: build_levels hash_data fuel (next_level hash_data l))).
      cbn [proof_loop]. rewrite Hs, Hloop, <- app_assoc. cbn [app].
      split; [ reflexivity | ]. split; [ cbn; rewrite Hlen; reflexivity | ].
      exact Hlast.
    + exists [], idx. cbn. rewrite app_nil_r. repeat split. exact Hh.
Qed.

(** The [while] loop ends: with as many rounds as the level has nodes,
    the top level has one node. *)
Lemma build_levels_top fuel :
  forall l,
    l <> [] -> (List.length l <= fuel)%nat ->
    List.length (last (l :: build_levels hash_data fuel l) []) = 1%nat.
Proof.
  induction fuel as [ | fuel IH ]; intros l Hne Hfuel.
  - destruct l; [ contradiction | simpl in Hfuel; lia ].
  - cbn [build_levels]. destruct (Nat.ltb_spec 1 (List.length l)) as [H | H].
    + change (last (l :: next_level hash_data l
                    :: build_levels hash_data fuel (next_level hash_data l)) [])
        with (last (next_level hash_data l
                    :: build_levels hash_data fuel (next_level hash_data l)) []).
      assert (Hlen : List.length (next_level hash_data l)
                     = ((List.length l + 1) / 2)%nat)
        by apply next_level_length.
      assert (Hlt : ((List.length l + 1) / 2 < List.length l)%nat)
        by (apply Nat.Div0.div_lt_upper_bound; lia).
      assert (Hpos : (1 <= (List.length l + 1) / 2)%nat)
        by (apply Nat.div_le_lower_bound; lia).
      apply IH; [ | lia ].
      intros E. rewrite E in Hlen. cbn [List.length] in Hlen. lia.
    + cbn [last]. destruct l as [ | a l ]; [ contradiction | ].
      simpl in *. lia.
Qed.

(** More rounds than the level has nodes change nothing. *)
Lemma build_levels_fuel fuel :
  forall fuel' l,
    (List.length l <= fuel)%nat -> (List.length l <= fuel')%nat ->
    build_levels hash_data fuel l = build_levels hash_data fuel' l.
Proof.
  induction fuel as [ | fuel IH ]; intros fuel' l Hfuel Hfuel'.
  - destruct l; [ | simpl in Hfuel; lia ]. destruct fuel'; reflexivity.
  - destruct fuel' as [ | fuel' ].
    + destruct l; [ reflexivity | simpl in Hfuel'; lia ].
    + cbn [build_levels].
      destruct (Nat.ltb_spec 1 (List.length l)) as [H | H]; [ | reflexivity ].
      f_equal.
      assert (Hlen : List.length (next_level hash_data l)
                     = ((List.length l + 1) / 2)%nat)
        by apply next_level_length.
      assert (Hlt : ((List.length l + 1) / 2 < List.length l)%nat)
        by (apply Nat.Div0.div_lt_upper_bound; lia).
      apply IH; lia.
Qed.

End MerkleProperties.

Section MerkleTheorems.

Import Merkle.

Variable hash_data : string -> string.

Lemma init_nonempty t ts :
  MerkleTree_init hash_data (t :: ts)
  = {| transactions := t :: ts;
       tree := map hash_data (t :: ts)
               :: build_levels hash_data
                    (List.length (map hash_data (t :: ts)))
                    (map hash_data (t :: ts));
       root := match last (map hash_data (t :: ts)
                           :: build_levels hash_data
                                (List.length (map hash_data (t :: ts)))
                                (map hash_data (t :: ts))) [] with
               | x :: _ => Some x
               | [] => None
               end |}.
Proof. reflexivity. Qed.

Lemma levels_upper fuel :
  forall l,
    l <> [] -> (List.length l <= fuel)%nat ->
    (List.length l <= 2 ^ List.length (build_levels hash_data fuel l))%nat.
Proof.
  induction fuel as [ | fuel IH ]; intros l Hne Hfuel.
  - destruct l; [ contradiction | simpl in Hfuel; lia ].
  - cbn [build_levels]. destruct (Nat.ltb_spec 1 (List.length l)) as [H | H].
    + cbn [List.length]. rewrite Nat.pow_succ_r'.
      pose proof (next_level_length hash_data l) as Hlen.
      assert (Hlt : ((List.length l + 1) / 2 < List.length l)%nat)
        by (apply Nat.Div0.div_lt_upper_bound; lia).
      assert (Hpos : (1 <= (List.length l + 1) / 2)%nat)
        by (apply Nat.div_le_lower_bound; lia).
      assert (Hhalf : (List.length l <= 2 * ((List.length l + 1) / 2))%nat).
      { pose proof (Nat.div_mod_eq (List.length l + 1) 2) as E.
        pose proof (Nat.mod_upper_bound (List.length l + 1) 2) as B. lia. }
      assert (Hn : next_level hash_data l <> []).
      { intros E. rewrite E in Hlen. cbn [List.length] in Hlen. lia. }
      pose proof (IH (next_level hash_data l) Hn) as Hrec. lia.
    + destruct l as [ | a l ]; [ contradiction | ]. simpl in *. lia.
Qed.

Lemma levels_lower fuel :
  forall l,
    (1 < List.length l)%nat -> (List.length l <= fuel)%nat ->
    (2 ^ (List.length (build_levels hash_data fuel l) - 1)
     < List.length l)%nat.
Proof.
  induction fuel as [ | fuel IH ]; intros l H Hfuel; [ lia | ].
  cbn [build_levels]. destruct (Nat.ltb_spec 1 (List.length l)); [ | lia ].
  cbn [List.length]. rewrite Nat.sub_succ, Nat.sub_0_r.
  pose proof (next_level_length hash_data l) as Hlen.
  assert (Hlt : ((List.length l + 1) / 2 < List.length l)%nat)
    by (apply Nat.Div0.div_lt_upper_bound; lia).
  assert (Hhalf : (2 * ((List.length l + 1) / 2) <= List.length l + 1)%nat).
  { pose proof (Nat.div_mod_eq (List.length l + 1) 2) as E. lia. }
  destruct (Nat.ltb_spec 1 (List.length (next_level hash_data l))) as [Hn | Hn].
  - pose proof (IH (next_level hash_data l) Hn) as Hrec.
    destruct fuel as [ | fuel' ]; [ lia | ].
    cbn [build_levels] in Hrec |- *.
    destruct (Nat.ltb_spec 1 (List.length (next_level hash_data l)));
      [ | lia ].
    cbn [List.length] in Hrec |- *.
    rewrite Nat.sub_succ, Nat.sub_0_r in Hrec. rewrite Nat.pow_succ_r'. lia.
  - destruct fuel as [ | fuel' ]; [ cbn; lia | ].
    cbn [build_levels].
    destruct (Nat.ltb_spec 1 (List.length (next_level hash_data l)));
      [ lia | ]. cbn. lia.
Qed.

(** X20.  A Merkle proof made by the tree is accepted by the tree.
    For a transaction of the list, [get_merkle_proof] returns a proof
    (no index that it uses lies outside a level), and
    [verify_spv_proof] on the hash of the transaction and that proof
    returns true.  For an index past the end [get_merkle_proof] raises
    [ValueError], and on a tree built from no transaction
    [verify_spv_proof] raises [AttributeError]: the root was never
    assigned. *)
Theorem merkle_proof_verifies (txs : list string) :
  (forall i tx,
      nth_error txs i = Some tx ->
      exists proof,
        get_merkle_proof (MerkleTree_init hash_data txs) i = Ok proof
        /\ verify_spv_proof hash_data (MerkleTree_init hash_data txs)
             (hash_data tx) i proof = Ok true)
  /\ (forall i,
      (List.length txs <= i)%nat ->
      get_merkle_proof (MerkleTree_init hash_data txs) i = Err ValueError)
  /\ (txs = [] ->
      forall h i proof,
        verify_spv_proof hash_data (MerkleTree_init hash_data txs) h i proof
        = Err AttributeError).
Proof.
  split; [ | split ].
  - intros i tx Htx. destruct txs as [ | t ts ]; [ destruct i; discriminate | ].
    rewrite init_nonempty. set (leaves := map hash_data (t :: ts)).
    assert (Hleaf : nth_error leaves i = Some (hash_data tx))
      by (apply map_nth_error, Htx).
    assert (Hi : (i < List.length (t :: ts))%nat)
      by (apply nth_error_Some; rewrite Htx; discriminate).
    destruct (proof_loop_climbs hash_data (List.length leaves) leaves i
                (hash_data tx) [] Hleaf)
      as (entries & idx' & Hloop & _ & Hlast).
    assert (Hne : leaves <> []) by discriminate.
    pose proof (build_levels_top hash_data (List.length leaves) leaves Hne
                  (le_n _)) as Htop.
    exists entries. split.
    + unfold get_merkle_proof. cbn [transactions tree].
      destruct (Nat.leb_spec (List.length (t :: ts)) i); [ lia | ].
      exact Hloop.
    + unfold verify_spv_proof. cbn [root].
      destruct (last (leaves :: build_levels hash_data (List.length leaves) leaves) [])
        as [ | x [ | y r ] ]; try discriminate.
      destruct idx' as [ | idx' ]; [ | destruct idx'; discriminate ].
      injection Hlast as ->. rewrite String.eqb_refl. reflexivity.
  - intros i Hi. unfold get_merkle_proof.
    assert (E : transactions (MerkleTree_init hash_data txs) = txs)
      by (destruct txs; reflexivity).
    rewrite E. destruct (Nat.leb_spec (List.length txs) i); [ reflexivity | lia ].
  - intros -> h i proof. reflexivity.
Qed.

(** X21.  The tree and its proofs are as small as they can be.  The
    [while] loop of [build_tree] ends by itself (further rounds add no
    level); a proof that [get_merkle_proof] returns has one entry for
    every level but the top one, and their number is the logarithm of
    the number of transactions, rounded up: the transactions are at
    most two to the power of that number, and more than two to the
    power of one less when there are at least two. *)
Theorem merkle_proof_is_logarithmic (txs : list string) :
  (forall fuel,
      (List.length txs <= fuel)%nat ->
      build_levels hash_data fuel (map hash_data txs)
      = build_levels hash_data (List.length txs) (map hash_data txs))
  /\ (forall i proof,
      get_merkle_proof (MerkleTree_init hash_data txs) i = Ok proof ->
      S (List.length proof)
      = get_tree_height (MerkleTree_init hash_data txs)
      /\ (List.length txs <= 2 ^ List.length proof)%nat
      /\ ((1 < List.length txs)%nat ->
          (2 ^ (List.length proof - 1) < List.length txs)%nat)).
Proof.
  split.
  - intros fuel Hfuel.
    apply build_levels_fuel; rewrite length_map; [ exact Hfuel | apply le_n ].
  - intros i proof H. unfold get_merkle_proof in H.
    assert (E : transactions (MerkleTree_init hash_data txs) = txs)
      by (destruct txs; reflexivity).
    rewrite E in H.
    destruct (Nat.leb_spec (List.length txs) i) as [ | Hi ]; [ discriminate | ].
    destruct txs as [ | t ts ]; [ simpl in Hi; lia | ].
    rewrite init_nonempty in H |- *. cbn [tree] in H.
    set (leaves := map hash_data (t :: ts)) in *.
    assert (Hlen : List.length leaves = List.length (t :: ts))
      by apply length_map.
    destruct (nth_error leaves i) as [h | ] eqn:Hh.
    2: { apply nth_error_None in Hh. lia. }
    destruct (proof_loop_climbs hash_data (List.length leaves) leaves i h []
                Hh) as (entries & idx' & Hloop & Hcount & _).
    rewrite Hloop in H. injection H as <-.
    unfold get_tree_height. cbn [tree]. rewrite Hcount.
    split; [ reflexivity | ]. rewrite <- Hlen. split.
    + apply levels_upper; [ discriminate | apply le_n ].
    + intros H1. apply levels_lower; [ exact H1 | apply le_n ].
Qed.

End MerkleTheorems.

Lemma merkle_proof_verifies_witness :
  exists proof,
    Merkle.get_merkle_proof MerkleSamples.three 2 = Merkle.Ok proof
    /\ Merkle.verify_spv_proof MerkleSamples.bracket MerkleSamples.three
         (MerkleSamples.bracket "c") 2 proof
       = Merkle.Ok true.
Proof.
  apply (proj1 (merkle_proof_verifies MerkleSamples.bracket ["a"; "b"; "c"])
           2%nat "c").
  reflexivity.
Defined.

Lemma merkle_proof_is_logarithmic_witness :
  exists proof,
    Merkle.get_merkle_proof MerkleSamples.three 2 = Merkle.Ok proof
    /\ S (List.length proof) = Merkle.get_tree_height MerkleSamples.three
    /\ (3 <= 2 ^ List.length proof)%nat.
Proof.
  destruct (Merkle.get_merkle_proof MerkleSamples.three 2)
    as [proof | err] eqn:H; [ | vm_compute in H; discriminate ].
  exists proof. split; [ reflexivity | ].
  destruct (proj2 (merkle_proof_is_logarithmic MerkleSamples.bracket
                     ["a"; "b"; "c"]) 2%nat proof H) as (Hh & Hu & _).
  split; [ exact Hh | exact Hu ].
Defined.
